(** * SillyTavern card plugin: lorebook mapper, character summary and PNG
    metadata codec

    A shallow embedding of [json_to_lorebook_yaml.py], [main.py] and
    [character_card_parser.py].  Python values that come out of [json.loads]
    are the inductive [json]; a Python [str] is its list of code points;
    [bytes] is a list of [byte].  Exceptions and the logger are explicit: the
    mapper runs in a small state-and-exception monad over the converter
    object and its log; the codec returns a result or the exception it
    raises (what it logs on the way changes no result and is left out). *)

From Stdlib Require Import ZArith NArith List Bool String Ascii Lia.
From Stdlib Require Import PrimFloat Uint63 DecimalString DecimalZ.
From Stdlib.Strings Require Import Byte.
Import ListNotations.

Set Implicit Arguments.
Set Warnings "-register-all".

(* ================================================================== *)
(** * Python values *)

Module Py.

(** A [str]: the sequence of its code points. *)
Definition pystr := list N.

(** A literal of the source, written with its ASCII text. *)
Definition lit (s : string) : pystr := map N_of_ascii (list_ascii_of_string s).

Fixpoint str_eqb (a b : pystr) : bool :=
  match a, b with
  | [], [] => true
  | x :: a', y :: b' => N.eqb x y && str_eqb a' b'
  | _, _ => false
  end.

(** What [json.loads] builds: None, bool, int, float, str, list, dict.  A dict
    keeps insertion order, so it is an association list. *)
Inductive json :=
| JNull
| JBool (b : bool)
| JInt (z : Z)
| JFloat (f : float)
| JStr (s : pystr)
| JArr (l : list json)
| JObj (d : list (pystr * json)).

Definition dict := list (pystr * json).

Fixpoint dict_find (k : pystr) (d : dict) : option json :=
  match d with
  | [] => None
  | (k', v) :: d' => if str_eqb k k' then Some v else dict_find k d'
  end.

(** [k in d] *)
Definition dict_has (k : pystr) (d : dict) : bool :=
  match dict_find k d with Some _ => true | None => false end.

(** [d.get(k, dflt)] *)
Definition dict_get (k : pystr) (dflt : json) (d : dict) : json :=
  match dict_find k d with Some v => v | None => dflt end.

(** [d[k] = v]: an existing key keeps its place, a new one goes last. *)
Fixpoint dict_set (k : pystr) (v : json) (d : dict) : dict :=
  match d with
  | [] => [(k, v)]
  | (k', v') :: d' =>
      if str_eqb k k' then (k', v) :: d' else (k', v') :: dict_set k v d'
  end.

(** [bool(v)] *)
Definition truthy (v : json) : bool :=
  match v with
  | JNull => false
  | JBool b => b
  | JInt z => negb (Z.eqb z 0)
  | JFloat f => negb (PrimFloat.eqb f 0%float)
  | JStr s => match s with [] => false | _ => true end
  | JArr l => match l with [] => false | _ => true end
  | JObj d => match d with [] => false | _ => true end
  end.

(** [int] and [float]; [bool] is a subclass of [int]. *)
Inductive number :=
| NInt (z : Z)
| NFloat (f : float).

Definition as_number (v : json) : option number :=
  match v with
  | JInt z => Some (NInt z)
  | JBool b => Some (NInt (if b then 1 else 0))
  | JFloat f => Some (NFloat f)
  | _ => None
  end.

(** The float of an int between 0 and 100. *)
Definition float_of_small (z : Z) : float := PrimFloat.of_uint63 (Uint63.of_Z z).

(** [x > c] for an int constant [c] between 0 and 100. *)
Definition gt_const (x : number) (c : Z) : bool :=
  match x with
  | NInt z => Z.ltb c z
  | NFloat f => PrimFloat.ltb (float_of_small c) f
  end.

(** [sep.join(l)] *)
Fixpoint join (sep : pystr) (l : list pystr) : pystr :=
  match l with
  | [] => []
  | [x] => x
  | x :: l' => x ++ sep ++ join sep l'
  end.

(** [s.replace(c, rep)] for a one-character [c]. *)
Definition replace (c : N) (rep : pystr) (s : pystr) : pystr :=
  flat_map (fun x => if N.eqb x c then rep else [x]) s.

(** [sub in s] on strings. *)
Fixpoint starts_with (p s : pystr) : bool :=
  match p, s with
  | [], _ => true
  | x :: p', y :: s' => N.eqb x y && starts_with p' s'
  | _ :: _, [] => false
  end.

Fixpoint contains (p s : pystr) : bool :=
  starts_with p s || match s with [] => false | _ :: s' => contains p s' end.

(** [str(z)] for an int within the interpreter's limit on the digits of an
    int that is turned into text ([sys.int_max_str_digits], 4300 unless it is
    set otherwise): past the limit [str] raises ValueError.  [json.loads]
    refuses a number past the same limit, so the ints of a parsed document
    are within it; [within_int_limit] says so of a value. *)
Definition str_of_Z (z : Z) : pystr := lit (NilZero.string_of_int (Z.to_int z)).

Definition int_max_str_digits : Z := 4300.

(** [enumerate(l)] *)
Definition enumerate (A : Type) (l : list A) : list (nat * A) :=
  combine (seq 0 (List.length l)) l.

(** The functions of the Python runtime and standard library that the program
    calls and that are not spelled out here. *)
Class Runtime := {
  (** [float(s)] on a str; [None] is ValueError *)
  float_of_str : pystr -> option float;
  (** [repr(f)] of a float *)
  repr_float : float -> pystr;
  (** [repr(s)] of a str *)
  repr_str : pystr -> pystr;
  (** [os.path.basename] *)
  os_path_basename : pystr -> pystr;
  (** [os.path.splitext(p)[0]] *)
  os_path_splitext_root : pystr -> pystr;
  (** [json.dumps(v, ensure_ascii=False, indent=2)] *)
  json_dumps_indent : json -> pystr;
  (** [json.loads(s)]; [None] is JSONDecodeError *)
  json_loads : pystr -> option json;
  (** [json.dumps(v)], which writes ASCII only *)
  json_dumps : json -> string
}.

(** [repr(v)] *)
Fixpoint py_repr {rt : Runtime} (v : json) {struct v} : pystr :=
  match v with
  | JNull => lit "None"
  | JBool true => lit "True"
  | JBool false => lit "False"
  | JInt z => str_of_Z z
  | JFloat f => repr_float f
  | JStr s => repr_str s
  | JArr l => lit "[" ++ join (lit ", ") (map py_repr l) ++ lit "]"
  | JObj d =>
      lit "{"
      ++ join (lit ", ")
           (map (fun kv => repr_str (fst kv) ++ lit ": " ++ py_repr (snd kv)) d)
      ++ lit "}"
  end.

(** Every int in the value has at most [int_max_str_digits] digits. *)
Fixpoint within_int_limit (v : json) {struct v} : bool :=
  match v with
  | JInt z => Z.ltb (Z.abs z) (10 ^ int_max_str_digits)
  | JArr l => forallb within_int_limit l
  | JObj d => forallb (fun kv => within_int_limit (snd kv)) d
  | _ => true
  end.

(** [str(v)], also what an f-string writes for [{v}]. *)
Definition py_str {rt : Runtime} (v : json) : pystr :=
  match v with
  | JStr s => s
  | _ => py_repr v
  end.

End Py.

Import Py.

(* ================================================================== *)
(** * The lorebook mapper: [json_to_lorebook_yaml.py] *)

Module Lore.

(** The exceptions the mapper can meet. *)
Inductive exn := AttributeError | TypeError | ValueError | KeyError.

Definition exn_eqb (a b : exn) : bool :=
  match a, b with
  | AttributeError, AttributeError | TypeError, TypeError
  | ValueError, ValueError | KeyError, KeyError => true
  | _, _ => false
  end.

Inductive level := DEBUG | INFO | WARNING | ERROR.

(** One record of the logger: which call of the source wrote it, and the
    values its message holds. *)
Inductive log_msg :=
| NotADict (entry_id : json)
| BadInsertionOrder (entry_id : json) (value : json)
| BadProbability (entry_id : json) (value : json)
| SkipDisabled (entry_id : json) (name : json)
| EntryDone (entry_id : json) (name : json)
| EntryFailed (entry_id : json) (e : exn)
| Traceback
| FoundDataBook (n : nat)
| FoundBook (n : nat)
| FoundEntries (n : nat)
| SingleEntry
| TryTopLevel
| WholeDocument
| NoTrigger
| Total (n : nat)
| ConvertFailed (e : exn).

(** A trigger of the output document (a dict in the source). *)
Record Trigger := {
  t_name : json;
  t_type : json;
  t_match : json;
  t_conditional : json;
  t_priority : number;
  t_block : bool;
  t_probability : float;
  t_position : json;
  t_content : json
}.

(** The converter object ([yaml_data] has two more keys, [world_state] and
    [user_state], that are set to empty and never touched) and the logger. *)
Record converter := {
  yaml_trigger : list Trigger;
  entries_processed : nat;
  logged : list (level * log_msg)
}.

(** [LoreBookConverter()] *)
Definition init : converter :=
  {| yaml_trigger := []; entries_processed := 0; logged := [] |}.

Inductive outcome (A : Type) :=
| Return (a : A)
| Raise (e : exn).
Arguments Raise {A} e.

(** A method of the converter: it may change the object and the log, and it
    returns or raises. *)
Definition M (A : Type) := converter -> outcome A * converter.

Definition ret (A : Type) (a : A) : M A := fun st => (Return a, st).

Definition raise (A : Type) (e : exn) : M A := fun st => (Raise e, st).
Arguments raise {A} e.

Definition bind (A B : Type) (m : M A) (k : A -> M B) : M B :=
  fun st =>
    match m st with
    | (Return a, st') => k a st'
    | (Raise e, st') => (Raise e, st')
    end.

Declare Scope py_scope.
Delimit Scope py_scope with py.
Notation "x <- m ;; k" := (bind m (fun x => k))
  (at level 61, m at next level, right associativity) : py_scope.
Notation "m ;;; k" := (bind m (fun _ => k))
  (at level 61, right associativity) : py_scope.
Open Scope py_scope.

(** [try: m  except E: h] for the exceptions [E] that [catches] accepts. *)
Definition try_except (A : Type) (catches : exn -> bool) (m : M A)
    (h : exn -> M A) : M A :=
  fun st =>
    match m st with
    | (Raise e, st') => if catches e then h e st' else (Raise e, st')
    | r => r
    end.

(** [except Exception] *)
Definition any_exception (e : exn) : bool := true.

Definition log (l : level) (m : log_msg) : M unit :=
  fun st =>
    (Return tt,
     {| yaml_trigger := yaml_trigger st;
        entries_processed := entries_processed st;
        logged := logged st ++ [(l, m)] |}).

(** [self.entries_processed += 1] *)
Definition count_entry : M unit :=
  fun st =>
    (Return tt,
     {| yaml_trigger := yaml_trigger st;
        entries_processed := S (entries_processed st);
        logged := logged st |}).

Fixpoint for_each (A S : Type) (l : list A) (body : A -> S -> M S) (s : S)
    : M S :=
  match l with
  | [] => ret s
  | x :: l' => s' <- body x s ;; for_each l' body s'
  end.

(** ** [quote_value], [clean_content], [convert_position] *)

Definition quote_value (value : json) : json :=
  match value with
  | JStr s =>
      let escaped_value := replace 34 [92; 34]%N s in
      let escaped_value := replace 13 [] (replace 10 [92; 110]%N escaped_value) in
      JStr ([34%N] ++ escaped_value ++ [34%N])
  | _ => value
  end.

Definition clean_content (content : json) : json :=
  match content with
  | JStr s => JStr (replace 9 [32; 32]%N s)
  | _ => content
  end.

Definition sys_start : pystr := lit "sys_start".
Definition sys_end : pystr := lit "sys_end".

(** [position_map.get(pos_value, "sys_start")].  The keys of the table are 0,
    1, "0", "1", "after_char", "before_char", "before_prompt" and
    "after_prompt"; a dict finds a key by [==], under which [False] and [0.0]
    are 0 and [True] and [1.0] are 1; a list or dict cannot be hashed. *)
Definition convert_position (pos_value : json) : M pystr :=
  match pos_value with
  | JArr _ | JObj _ => raise TypeError
  | JInt z => ret (if Z.eqb z 1 then sys_end else sys_start)
  | JBool b => ret (if b then sys_end else sys_start)
  | JFloat f => ret (if PrimFloat.eqb f 1%float then sys_end else sys_start)
  | JStr s =>
      ret (if str_eqb s (lit "1") || str_eqb s (lit "after_prompt")
           then sys_end else sys_start)
  | JNull => ret sys_start
  end.

(** ** [process_match] *)

(** Lines 74-80 and 85-91: a str becomes a one-element list, a list stays,
    [list(x)] of a dict is its keys, and of anything else raises, which the
    bare [except] turns into [[str(x)]]. *)
Definition as_list {rt : Runtime} (v : json) : list json :=
  match v with
  | JStr _ => [v]
  | JArr l => l
  | JObj d => map (fun kv => JStr (fst kv)) d
  | _ => [JStr (py_str v)]
  end.

(** ["&".join(str(k) for k in keys if k)] *)
Definition join_keys {rt : Runtime} (keys : list json) : pystr :=
  join (lit "&") (map py_str (filter truthy keys)).

Definition nonempty (s : pystr) : bool :=
  match s with [] => false | _ => true end.

Definition process_match {rt : Runtime} (keys keysecondary : json) : pystr :=
  if negb (truthy keys) then []
  else
    let keys := as_list keys in
    let primary := join_keys keys in
    let keysecondary :=
      match keysecondary with
      | JStr _ => JArr [keysecondary]
      | JArr _ => keysecondary
      | _ => if truthy keysecondary then JArr (as_list keysecondary)
             else keysecondary
      end in
    let secondary :=
      if truthy keysecondary then join_keys (as_list keysecondary) else [] in
    if nonempty primary && nonempty secondary
    then primary ++ lit "~" ++ secondary
    else primary.

(** ** [process_entry] *)

(** [float(v)] for a [v] that is no int and no float. *)
Definition py_float {rt : Runtime} (v : json) : M number :=
  match v with
  | JStr s =>
      match float_of_str s with
      | Some f => ret (NFloat f)
      | None => raise ValueError
      end
  | _ => raise TypeError
  end.

(** Lines 126-131 and 139-144: a value that is no number goes through
    [float]; only ValueError is caught there. *)
Definition coerce_number {rt : Runtime} (v : json) (warn : log_msg) : M number :=
  match as_number v with
  | Some n => ret n
  | None =>
      try_except (exn_eqb ValueError) (py_float v)
        (fun _ => log WARNING warn ;;; ret (NInt 100))
  end.

(** [100 - entry_order] *)
Definition priority_of (entry_order : number) : number :=
  match entry_order with
  | NInt z => NInt (100 - z)
  | NFloat f => NFloat (PrimFloat.sub 100%float f)
  end.

(** [max(0, min(raw, 100)) / 100]: [min(a, b)] is [b] when [b < a] and [a]
    otherwise, [max(a, b)] is [b] when [b > a]; [/] is true division. *)
Definition probability_of (raw : number) : float :=
  let m := if gt_const raw 100 then NInt 100 else raw in
  let r := if gt_const m 0 then m else NInt 0 in
  match r with
  | NInt z => PrimFloat.div (float_of_small z) 100%float
  | NFloat f => PrimFloat.div f 100%float
  end.

(** [obj.get(k, dflt)], which only a dict has. *)
Definition py_get (obj : json) (k : pystr) (dflt : json) : M json :=
  match obj with
  | JObj d => ret (dict_get k dflt d)
  | _ => raise AttributeError
  end.

Definition process_entry {rt : Runtime} (entry_id : json) (entry : json)
    : M (option Trigger) :=
  try_except any_exception
    (match entry with
     | JObj e =>
         let raw_entry_name :=
           dict_get (lit "comment") (JStr (lit "entry_" ++ py_str entry_id)) e in
         let keys := dict_get (lit "keys") (JArr []) e in
         let keysecondary := dict_get (lit "secondary_keys") (JArr []) e in
         let raw_entry_match := process_match keys keysecondary in
         raw_entry_position <-
           convert_position (dict_get (lit "position") (JStr (lit "after_char")) e) ;;
         let raw_entry_content := clean_content (dict_get (lit "content") (JStr []) e) in
         let entry_order := dict_get (lit "insertion_order") (JInt 100) e in
         entry_order <-
           coerce_number entry_order (BadInsertionOrder entry_id entry_order) ;;
         let entry_priority := priority_of entry_order in
         let extensions := dict_get (lit "extensions") (JObj []) e in
         prevent_recursion <- py_get extensions (lit "prevent_recursion") (JBool false) ;;
         let entry_block := truthy prevent_recursion in
         entry_probability_raw <- py_get extensions (lit "probability") (JInt 100) ;;
         entry_probability_raw <-
           coerce_number entry_probability_raw
             (BadProbability entry_id entry_probability_raw) ;;
         let entry_probability := probability_of entry_probability_raw in
         if negb (truthy (dict_get (lit "enabled") (JBool true) e))
         then log INFO (SkipDisabled entry_id raw_entry_name) ;;; ret None
         else
           let trigger :=
             {| t_name := quote_value raw_entry_name;
                t_type := quote_value (JStr (lit "keywords"));
                t_match := quote_value (JStr raw_entry_match);
                t_conditional := quote_value (JStr []);
                t_priority := entry_priority;
                t_block := entry_block;
                t_probability := entry_probability;
                t_position := quote_value (JStr raw_entry_position);
                t_content := quote_value raw_entry_content |} in
           log DEBUG (EntryDone entry_id raw_entry_name) ;;;
           ret (Some trigger)
     | _ => log WARNING (NotADict entry_id) ;;; ret None
     end)
    (fun e =>
       log ERROR (EntryFailed entry_id e) ;;;
       log DEBUG Traceback ;;;
       ret None).

(** ** [extract_entries_from_json] *)

(** [k in data]: a key of a dict, an element of a list, a substring of a str;
    nothing else can be searched. *)
Definition py_in (k : pystr) (data : json) : M bool :=
  match data with
  | JObj d => ret (dict_has k d)
  | JArr l =>
      ret (existsb (fun x => match x with JStr s => str_eqb s k | _ => false end) l)
  | JStr s => ret (contains k s)
  | _ => raise TypeError
  end.

(** [data[k]] for a str [k]. *)
Definition py_item (data : json) (k : pystr) : M json :=
  match data with
  | JObj d =>
      match dict_find k d with
      | Some v => ret v
      | None => raise KeyError
      end
  | _ => raise TypeError
  end.

(** [data.items()] *)
Definition py_items (data : json) : M dict :=
  match data with
  | JObj d => ret d
  | _ => raise AttributeError
  end.

Definition is_dict (v : json) : bool :=
  match v with JObj _ => true | _ => false end.

Definition is_list (v : json) : bool :=
  match v with JArr _ => true | _ => false end.

(** The elements of a value that [isinstance(v, list)] has accepted. *)
Definition elements (v : json) : list json :=
  match v with JArr l => l | _ => [] end.

(** The items of a value that [isinstance(v, dict)] has accepted. *)
Definition members (v : json) : dict :=
  match v with JObj d => d | _ => [] end.

(** [a and b] *)
Definition and_then (a b : M bool) : M bool :=
  x <- a ;; if x then b else ret false.

(** [k in data and isinstance(data[k], dict)] *)
Definition has_dict (data : json) (k : pystr) : M bool :=
  and_then (py_in k data) (v <- py_item data k ;; ret (is_dict v)).

(** [k in data and isinstance(data[k], list)] *)
Definition has_list (data : json) (k : pystr) : M bool :=
  and_then (py_in k data) (v <- py_item data k ;; ret (is_list v)).

(** [any(key in data for key in keys)] *)
Fixpoint any_in (keys : list pystr) (data : json) : M bool :=
  match keys with
  | [] => ret false
  | k :: keys' => x <- py_in k data ;; if x then ret true else any_in keys' data
  end.

(** The four lines every shape repeats:
    [if trigger: triggers.append(trigger); self.entries_processed += 1] *)
Definition keep (trigger : option Trigger) (triggers : list Trigger)
    : M (list Trigger) :=
  match trigger with
  | Some t => count_entry ;;; ret (triggers ++ [t])
  | None => ret triggers
  end.

(** Lines 186-201: [data['data']['character_book']['entries']] is a list. *)
Definition is_data_book (data : json) : M bool :=
  and_then (has_dict data (lit "data"))
    (d <- py_item data (lit "data") ;;
     and_then (has_dict d (lit "character_book"))
       (b <- py_item d (lit "character_book") ;; has_list b (lit "entries"))).

Definition from_data_book {rt : Runtime} (data : json) : M (list Trigger) :=
  d <- py_item data (lit "data") ;;
  b <- py_item d (lit "character_book") ;;
  entries_list <- py_item b (lit "entries") ;;
  log DEBUG (FoundDataBook (List.length (elements entries_list))) ;;;
  for_each (enumerate (elements entries_list))
    (fun ie triggers =>
       entry_id_from_json <- py_get (snd ie) (lit "id") (JInt (Z.of_nat (fst ie))) ;;
       trigger <- process_entry entry_id_from_json (snd ie) ;;
       keep trigger triggers)
    [].

(** Lines 204-214: [data['character_book']['entries']] is a list. *)
Definition is_book (data : json) : M bool :=
  and_then (has_dict data (lit "character_book"))
    (b <- py_item data (lit "character_book") ;; has_list b (lit "entries")).

Definition from_book {rt : Runtime} (data : json) : M (list Trigger) :=
  b <- py_item data (lit "character_book") ;;
  entries_list <- py_item b (lit "entries") ;;
  log DEBUG (FoundBook (List.length (elements entries_list))) ;;;
  for_each (enumerate (elements entries_list))
    (fun ie triggers =>
       trigger <- process_entry (JInt (Z.of_nat (fst ie))) (snd ie) ;;
       keep trigger triggers)
    [].

(** Lines 217-227: [data['entries']] is a dict. *)
Definition from_entries {rt : Runtime} (data : json) : M (list Trigger) :=
  entries <- py_item data (lit "entries") ;;
  log DEBUG (FoundEntries (List.length (members entries))) ;;;
  for_each (members entries)
    (fun kv triggers =>
       trigger <- process_entry (JStr (fst kv)) (snd kv) ;;
       keep trigger triggers)
    [].

(** Lines 230-236: the document has a field of an entry. *)
Definition entry_fields : list pystr :=
  [lit "keys"; lit "comment"; lit "content"; lit "insertion_order"].

Definition from_single {rt : Runtime} (data : json) : M (list Trigger) :=
  log DEBUG SingleEntry ;;;
  trigger <- process_entry (JStr (lit "1")) data ;;
  keep trigger [].

(** The same lines where [found_entries = True] follows them; the state of the
    loop is [triggers] and [found_entries]. *)
Definition keep_found (trigger : option Trigger) (s : list Trigger * bool)
    : M (list Trigger * bool) :=
  match trigger with
  | Some t => count_entry ;;; ret (fst s ++ [t], true)
  | None => ret s
  end.

(** Lines 241-247: every top-level field that is a dict. *)
Definition from_fields {rt : Runtime} (items : dict) (s : list Trigger * bool)
    : M (list Trigger * bool) :=
  for_each items
    (fun kv s =>
       if is_dict (snd kv)
       then trigger <- process_entry (JStr (fst kv)) (snd kv) ;; keep_found trigger s
       else ret s)
    s.

(** Lines 253-261: every dict inside a top-level field that is a list. *)
Definition from_arrays {rt : Runtime} (items : dict) (s : list Trigger * bool)
    : M (list Trigger * bool) :=
  let array_fields := filter (fun kv => is_list (snd kv)) items in
  for_each array_fields
    (fun kv s =>
       for_each (enumerate (elements (snd kv)))
         (fun ii s =>
            if is_dict (snd ii)
            then
              trigger <-
                process_entry
                  (JStr (fst kv ++ lit "_" ++ str_of_Z (Z.of_nat (fst ii) + 1)))
                  (snd ii) ;;
              keep_found trigger s
            else ret s)
         s)
    s.

(** Lines 267-286: the whole document as the content of one entry. *)
Definition default_entry {rt : Runtime} (data : json) (source_file : pystr) : json :=
  let basename :=
    if nonempty source_file then os_path_basename source_file else lit "unknown" in
  let name := os_path_splitext_root basename in
  JObj
    [ (lit "keys", JArr [JStr name]);
      (lit "comment", JStr ([20174%N] ++ basename ++ [29983; 25104]%N));
      (lit "content", JStr (json_dumps_indent data));
      (lit "insertion_order", JInt 100);
      (lit "extensions", JObj [(lit "probability", JInt 100)]) ].

Definition from_document {rt : Runtime} (data : json) (source_file : pystr)
    (triggers : list Trigger) : M (list Trigger) :=
  log DEBUG WholeDocument ;;;
  trigger <- process_entry (JStr (lit "default")) (default_entry data source_file) ;;
  keep trigger triggers.

Definition extract_entries_from_json {rt : Runtime} (data : json)
    (source_file : pystr) : M (list Trigger) :=
  c <- is_data_book data ;;
  if c then from_data_book data
  else
    c <- is_book data ;;
    if c then from_book data
    else
      c <- has_dict data (lit "entries") ;;
      if c then from_entries data
      else
        c <- any_in entry_fields data ;;
        if c then from_single data
        else
          log DEBUG TryTopLevel ;;;
          items <- py_items data ;;
          s <- from_fields items ([], false) ;;
          if snd s then ret (fst s)
          else
            items <- py_items data ;;
            s <- from_arrays items s ;;
            if snd s then ret (fst s)
            else from_document data source_file (fst s).

(** ** [convert_json_to_yaml] *)

Definition fallback_trigger : Trigger :=
  {| t_name := JStr [40664; 35748; 26465; 30446]%N;
     t_type := JStr (lit "keywords");
     t_match := JStr [];
     t_conditional := JStr [];
     t_priority := NInt 50;
     t_block := false;
     t_probability := 1%float;
     t_position := JStr (lit "sys_start");
     t_content :=
       JStr [26080; 27861; 20174; 28304; 25968; 25454; 25552; 21462; 26377;
             25928; 20869; 23481; 65292; 36825; 26159; 19968; 20010; 33258;
             21160; 29983; 25104; 30340; 40664; 35748; 26465; 30446; 12290]%N |}.

(** Lines 292-297 *)
Definition reset : M unit :=
  fun st =>
    (Return tt,
     {| yaml_trigger := []; entries_processed := 0; logged := logged st |}).

(** [self.yaml_data["trigger"] = triggers] *)
Definition set_trigger (triggers : list Trigger) : M unit :=
  fun st =>
    (Return tt,
     {| yaml_trigger := triggers;
        entries_processed := entries_processed st;
        logged := logged st |}).

(** [self.yaml_data["trigger"].append(t)] *)
Definition append_trigger (t : Trigger) : M unit :=
  fun st =>
    (Return tt,
     {| yaml_trigger := yaml_trigger st ++ [t];
        entries_processed := entries_processed st;
        logged := logged st |}).

Definition get_converter : M converter := fun st => (Return st, st).

Definition convert_json_to_yaml {rt : Runtime} (json_data : json)
    (source_file : pystr) : M bool :=
  try_except any_exception
    (reset ;;;
     triggers <- extract_entries_from_json json_data source_file ;;
     set_trigger triggers ;;;
     self <- get_converter ;;
     (match yaml_trigger self with
      | [] =>
          log WARNING NoTrigger ;;;
          append_trigger fallback_trigger ;;;
          count_entry
      | _ :: _ => ret tt
      end) ;;;
     self <- get_converter ;;
     log INFO (Total (entries_processed self)) ;;;
     ret true)
    (fun e =>
       log ERROR (ConvertFailed e) ;;;
       log DEBUG Traceback ;;;
       ret false).

(** ** The dumper of [save_yaml_to_file] *)

(** [s.replace(a + b, rep)] for a pattern of two characters: from the left,
    occurrences that do not overlap. *)
Fixpoint replace_pair (a b : N) (rep : pystr) (s : pystr) : pystr :=
  match s with
  | [] => []
  | x :: s' =>
      match s' with
      | y :: s'' =>
          if N.eqb x a && N.eqb y b then rep ++ replace_pair a b rep s''
          else x :: replace_pair a b rep s'
      | [] => [x]
      end
  end.

(** [value.endswith(c)] for a one-character [c]. *)
Definition ends_with (c : N) (value : pystr) : bool :=
  match rev value with
  | x :: _ => N.eqb x c
  | [] => false
  end.

(** [value[1:-1]] *)
Definition strip_ends (value : pystr) : pystr := removelast (tl value).

(** The styles of a scalar: the literal block (a bar) and the double-quoted
    (a quotation mark). *)
Definition literal_style : pystr := [124%N].
Definition double_quoted_style : pystr := [34%N].

(** [ForceDoubleQuoteDumper.represent_scalar] on a str (lines 341-352): the
    value and the style that it hands to the [represent_scalar] of the
    library's dumper. *)
Definition represent_scalar (value : pystr) (style : option pystr)
    : pystr * option pystr :=
  if starts_with [34%N] value && ends_with 34 value then
    if contains [92; 110]%N (strip_ends value) then
      let processed_value :=
        replace_pair 92 34 [34%N]
          (replace_pair 92 110 [10%N] (strip_ends value)) in
      (processed_value, Some literal_style)
    else (strip_ends value, Some double_quoted_style)
  else (value, style).

End Lore.

(* ================================================================== *)
(** * The character summary: [main.py] *)

Module Card.

(** The inner [quote_value] of [_extract_character_info]. *)
Definition quote_value (value : pystr) : pystr :=
  let escaped_value := replace 34 [92; 34]%N value in
  let escaped_value := replace 13 [] (replace 10 [92; 110]%N escaped_value) in
  [34%N] ++ escaped_value ++ [34%N].

(** Lines 169-190: the [if]/[elif] chain that fills [first_mes_raw]. *)
Definition first_mes_raw (json_data : dict) : json :=
  if dict_has (lit "first_mes") json_data then
    dict_get (lit "first_mes") JNull json_data
  else if dict_has (lit "begin_dialogs") json_data then
    match dict_get (lit "begin_dialogs") JNull json_data with
    | JArr (x :: _) => x
    | JStr s => JStr s
    | _ => JStr []
    end
  else if dict_has (lit "greeting") json_data then
    dict_get (lit "greeting") JNull json_data
  else if dict_has (lit "example_dialog") json_data
          && truthy (dict_get (lit "example_dialog") JNull json_data) then
    match dict_get (lit "example_dialog") JNull json_data with
    | JArr (x :: _) => x
    | _ => JStr []
    end
  else if dict_has (lit "char_greeting") json_data then
    dict_get (lit "char_greeting") JNull json_data
  else if dict_has (lit "alternate_greetings") json_data
          && truthy (dict_get (lit "alternate_greetings") JNull json_data) then
    match dict_get (lit "alternate_greetings") JNull json_data with
    | JArr (x :: _) => x
    | _ => JStr []
    end
  else JStr [].

(** The three lines of the summary. *)
Definition summary (name description first_mes : pystr) : pystr :=
  lit "name: " ++ quote_value name ++ [10; 10]%N
  ++ lit "prompt: " ++ quote_value description ++ [10; 10]%N
  ++ lit "first_mes: " ++ quote_value first_mes.

(** [_extract_character_info]: a document that is no dict has no [get], and
    the [except] returns the empty text. *)
Definition _extract_character_info {rt : Runtime} (json_data : json) : pystr :=
  match json_data with
  | JObj d =>
      let name := py_str (dict_get (lit "name") (JStr []) d) in
      let description := py_str (dict_get (lit "description") (JStr []) d) in
      let first_mes := py_str (first_mes_raw d) in
      summary name description first_mes
  | _ => []
  end.

End Card.

(* ================================================================== *)
(** * The PNG metadata codec: [character_card_parser.py] *)

Module Codec.

Local Open Scope N_scope.

Definition bytes := list byte.

(** The byte of a number below 256. *)
Definition byte_of (n : N) : byte :=
  match Byte.of_N n with Some b => b | None => x00 end.

(** A bytes literal of the source. *)
Definition blit (s : string) : bytes := map byte_of_ascii (list_ascii_of_string s).

Fixpoint bytes_eqb (a b : bytes) : bool :=
  match a, b with
  | [], [] => true
  | x :: a', y :: b' => Byte.eqb x y && bytes_eqb a' b'
  | _, _ => false
  end.

(** [b.startswith(p)] *)
Fixpoint bytes_startswith (p b : bytes) : bool :=
  match p, b with
  | [], _ => true
  | x :: p', y :: b' => Byte.eqb x y && bytes_startswith p' b'
  | _ :: _, [] => false
  end.

(** What the codec raises: [png.Error] (with its subclasses FormatError and
    ChunkError), ValueError (with its subclass UnicodeEncodeError), and
    [struct.error]. *)
Inductive error := PngError | ValueError | UnicodeEncodeError | StructError.

Inductive result (A : Type) :=
| Ok (a : A)
| Err (e : error).
Arguments Err {A} e.

(** ** [struct.pack('>I', n)] and its inverse *)

Definition pack_u32 (n : N) : option bytes :=
  if n <? 0x100000000
  then Some [byte_of (n / 0x1000000); byte_of (n / 0x10000 mod 256);
             byte_of (n / 0x100 mod 256); byte_of (n mod 256)]
  else None.

Definition unpack_u32 (b0 b1 b2 b3 : byte) : N :=
  Byte.to_N b0 * 0x1000000 + Byte.to_N b1 * 0x10000 + Byte.to_N b2 * 0x100
  + Byte.to_N b3.

(** ** [zlib.crc32]: CRC-32 with the reflected polynomial 0xEDB88320, one bit
    at a time, returned as an unsigned 32-bit number *)

Fixpoint crc_shift (k : nat) (c : N) : N :=
  match k with
  | O => c
  | S k' =>
      crc_shift k'
        (if N.odd c then N.lxor (N.shiftr c 1) 0xEDB88320 else N.shiftr c 1)
  end.

Definition crc_update (c : N) (b : byte) : N :=
  crc_shift 8 (N.lxor c (Byte.to_N b)).

Definition crc32 (data : bytes) : N :=
  N.land (N.lxor (fold_left crc_update data 0xFFFFFFFF) 0xFFFFFFFF) 0xFFFFFFFF.

(** ** [base64.b64encode] and [base64.b64decode] *)

(** The character of a 6-bit value in the standard alphabet. *)
Definition b64_char (s : N) : byte :=
  byte_of (if s <? 26 then 65 + s
           else if s <? 52 then 97 + (s - 26)
           else if s <? 62 then 48 + (s - 52)
           else if s =? 62 then 43 else 47).

(** The 6-bit value of a character of the alphabet. *)
Definition b64_value (c : byte) : option N :=
  let n := Byte.to_N c in
  if (65 <=? n) && (n <=? 90) then Some (n - 65)
  else if (97 <=? n) && (n <=? 122) then Some (n - 97 + 26)
  else if (48 <=? n) && (n <=? 57) then Some (n - 48 + 52)
  else if n =? 43 then Some 62
  else if n =? 47 then Some 63
  else None.

Definition pad : byte := byte_of 61.

Fixpoint b64encode (data : bytes) : bytes :=
  match data with
  | [] => []
  | [a] =>
      let x := Byte.to_N a in
      [b64_char (x / 4); b64_char (x mod 4 * 16); pad; pad]
  | [a; b] =>
      let x := Byte.to_N a in
      let y := Byte.to_N b in
      [b64_char (x / 4); b64_char (x mod 4 * 16 + y / 16);
       b64_char (y mod 16 * 4); pad]
  | a :: b :: c :: rest =>
      let x := Byte.to_N a in
      let y := Byte.to_N b in
      let z := Byte.to_N c in
      b64_char (x / 4) :: b64_char (x mod 4 * 16 + y / 16)
      :: b64_char (y mod 16 * 4 + z / 64) :: b64_char (z mod 64)
      :: b64encode rest
  end.

(** The state of the decoder of [binascii.a2b_base64]: the position in the
    group of four, the bits left over from the last character, the pads seen
    in a row, and the bytes written. *)
Record b64_state := {
  quad_pos : N;
  leftchar : N;
  pads : N;
  written : bytes
}.

(** One pass over the input, not strict: a character outside the alphabet is
    skipped; a pad that completes a group ends the decoding, any other pad is
    skipped; at the end of the input an unfinished group is an error. *)
Fixpoint a2b_loop (input : bytes) (st : b64_state) : option bytes :=
  match input with
  | [] => if quad_pos st =? 0 then Some (written st) else None
  | this_ch :: rest =>
      if Byte.eqb this_ch pad then
        if (2 <=? quad_pos st) && (4 <=? quad_pos st + (pads st + 1))
        then Some (written st)
        else
          a2b_loop rest
            {| quad_pos := quad_pos st; leftchar := leftchar st;
               pads := if 2 <=? quad_pos st then pads st + 1 else pads st;
               written := written st |}
      else
        match b64_value this_ch with
        | None => a2b_loop rest st
        | Some v =>
            a2b_loop rest
              (if quad_pos st =? 0 then
                 {| quad_pos := 1; leftchar := v; pads := 0;
                    written := written st |}
               else if quad_pos st =? 1 then
                 {| quad_pos := 2; leftchar := v mod 16; pads := 0;
                    written := written st ++ [byte_of (leftchar st * 4 + v / 16)] |}
               else if quad_pos st =? 2 then
                 {| quad_pos := 3; leftchar := v mod 4; pads := 0;
                    written := written st ++ [byte_of (leftchar st * 16 + v / 4)] |}
               else
                 {| quad_pos := 0; leftchar := 0; pads := 0;
                    written := written st ++ [byte_of (leftchar st * 64 + v)] |})
        end
  end.

Definition a2b_base64 (input : bytes) : option bytes :=
  a2b_loop input {| quad_pos := 0; leftchar := 0; pads := 0; written := [] |}.

(** [s.encode('ascii')] *)
Fixpoint ascii_encode (s : pystr) : option bytes :=
  match s with
  | [] => Some []
  | c :: s' =>
      if c <? 128
      then match ascii_encode s' with
           | Some b => Some (byte_of c :: b)
           | None => None
           end
      else None
  end.

(** [b.decode('ascii')] of bytes that are ASCII, and [b.decode('iso-8859-1')] *)
Definition latin1_decode (b : bytes) : pystr := map Byte.to_N b.

(** [s.encode('iso-8859-1')] *)
Fixpoint latin1_encode (s : pystr) : option bytes :=
  match s with
  | [] => Some []
  | c :: s' =>
      if c <? 256
      then match latin1_encode s' with
           | Some b => Some (byte_of c :: b)
           | None => None
           end
      else None
  end.

(** [base64.b64decode(s)] of a str: the str must be ASCII. *)
Definition b64decode (s : pystr) : option bytes :=
  match ascii_encode s with
  | Some b => a2b_base64 b
  | None => None
  end.

(** ** UTF-8 *)

Definition is_surrogate (c : N) : bool := (0xD800 <=? c) && (c <=? 0xDFFF).

(** The bytes of one code point; a surrogate cannot be encoded. *)
Definition utf8_encode_char (c : N) : option bytes :=
  if c <? 0x80 then Some [byte_of c]
  else if c <? 0x800 then Some [byte_of (0xC0 + c / 64); byte_of (0x80 + c mod 64)]
  else if c <? 0x10000 then
    if is_surrogate c then None
    else Some [byte_of (0xE0 + c / 4096); byte_of (0x80 + c / 64 mod 64);
               byte_of (0x80 + c mod 64)]
  else if c <? 0x110000 then
    Some [byte_of (0xF0 + c / 262144); byte_of (0x80 + c / 4096 mod 64);
          byte_of (0x80 + c / 64 mod 64); byte_of (0x80 + c mod 64)]
  else None.

(** [s.encode('utf-8')] *)
Fixpoint utf8_encode (s : pystr) : option bytes :=
  match s with
  | [] => Some []
  | c :: s' =>
      match utf8_encode_char c, utf8_encode s' with
      | Some b, Some b' => Some (b ++ b')
      | _, _ => None
      end
  end.

Definition is_cont (b : byte) : bool :=
  (0x80 <=? Byte.to_N b) && (Byte.to_N b <? 0xC0).

Definition cont_bits (b : byte) : N := Byte.to_N b - 0x80.

Definition push (c : N) (r : option pystr) : option pystr :=
  match r with Some s => Some (c :: s) | None => None end.

(** [b.decode('utf-8')], strict: no stray or missing continuation byte, no
    overlong form, no surrogate, nothing above U+10FFFF. *)
Fixpoint utf8_decode (b : bytes) : option pystr :=
  match b with
  | [] => Some []
  | b0 :: r0 =>
      let n0 := Byte.to_N b0 in
      if n0 <? 0x80 then push n0 (utf8_decode r0)
      else if n0 <? 0xC2 then None
      else if n0 <? 0xE0 then
        match r0 with
        | b1 :: r1 =>
            if is_cont b1
            then push ((n0 - 0xC0) * 64 + cont_bits b1) (utf8_decode r1)
            else None
        | _ => None
        end
      else if n0 <? 0xF0 then
        match r0 with
        | b1 :: b2 :: r2 =>
            let c := (n0 - 0xE0) * 4096 + cont_bits b1 * 64 + cont_bits b2 in
            if is_cont b1 && is_cont b2 && (0x800 <=? c) && negb (is_surrogate c)
            then push c (utf8_decode r2)
            else None
        | _ => None
        end
      else if n0 <? 0xF5 then
        match r0 with
        | b1 :: b2 :: b3 :: r3 =>
            let c := (n0 - 0xF0) * 262144 + cont_bits b1 * 4096
                     + cont_bits b2 * 64 + cont_bits b3 in
            if is_cont b1 && is_cont b2 && is_cont b3 && (0x10000 <=? c)
               && (c <? 0x110000)
            then push c (utf8_decode r3)
            else None
        | _ => None
        end
      else None
  end.

(** ** The chunk reader of the [png] package *)

(** A chunk as [reader.chunks()] yields it: type and data. *)
Definition chunk := (bytes * bytes)%type.

(** [png.signature] *)
Definition signature : bytes :=
  map byte_of [137; 80; 78; 71; 13; 10; 26; 10].

Definition tEXt : bytes := blit "tEXt".
Definition IEND : bytes := blit "IEND".

Definition is_letter (b : byte) : bool :=
  let n := Byte.to_N b in
  ((65 <=? n) && (n <=? 90)) || ((97 <=? n) && (n <=? 122)).

(** Modelled from the spec: the chunk reader is the [png] package's
    [Reader.chunks], which is not part of the repository.  The grammar is the
    spec's: a 4-byte big-endian length, a 4-byte type, [length] bytes of data
    and a 4-byte CRC over type and data; reading stops after the end-marker
    chunk, and a stream that ends before it cannot be parsed.  The package
    refuses a length above 2^31-1 and a type that is not four letters.
    Whether a wrong CRC is an error is the reader's [lenient] switch: the spec
    reads without verifying, the package verifies unless told otherwise, and
    both are covered.  The fuel bounds the number of chunks; [png_chunks]
    gives one more than there are bytes, which is always enough. *)
Fixpoint read_chunks (lenient : bool) (fuel : nat) (b : bytes)
    : result (list chunk) :=
  match fuel with
  | O => Err PngError
  | S fuel' =>
      match b with
      | l0 :: l1 :: l2 :: l3 :: t0 :: t1 :: t2 :: t3 :: rest =>
          let length := unpack_u32 l0 l1 l2 l3 in
          let type := [t0; t1; t2; t3] in
          if 0x7FFFFFFF <? length then Err PngError
          else if negb (forallb is_letter type) then Err PngError
          else
            let data := firstn (N.to_nat length) rest in
            if negb (N.of_nat (List.length data) =? length) then Err PngError
            else
              match skipn (N.to_nat length) rest with
              | c0 :: c1 :: c2 :: c3 :: rest' =>
                  if negb lenient
                     && negb (unpack_u32 c0 c1 c2 c3 =? crc32 (type ++ data))
                  then Err PngError
                  else if bytes_eqb type IEND then Ok [(type, data)]
                  else
                    match read_chunks lenient fuel' rest' with
                    | Ok chunks => Ok ((type, data) :: chunks)
                    | Err e => Err e
                    end
              | _ => Err PngError
              end
      | _ => Err PngError
      end
  end.

(** Modelled from the spec: [list(png.Reader(bytes=b).chunks())], which first
    validates the 8-byte signature (FormatError, a [png.Error], when it is
    absent) and then reads the chunks. *)
Definition png_chunks (lenient : bool) (b : bytes) : result (list chunk) :=
  if bytes_startswith signature b
  then let body := skipn 8 b in read_chunks lenient (S (List.length body)) body
  else Err PngError.

(** ** [_find_chunks] *)

Definition _find_chunks (chunks : list chunk) (name : bytes) : list chunk :=
  filter (fun chunk => bytes_eqb (fst chunk) name) chunks.

(** ** [_decode_text_chunk] and [_encode_text_chunk] *)

(** [chunk_data.split(b'\x00', 1)] unpacked into two names: without a null
    byte there is one part only and the unpacking raises. *)
Fixpoint split_null (chunk_data : bytes) : option (bytes * bytes) :=
  match chunk_data with
  | [] => None
  | b :: rest =>
      if Byte.eqb b x00 then Some ([], rest)
      else match split_null rest with
           | Some (k, t) => Some (b :: k, t)
           | None => None
           end
  end.

Definition _decode_text_chunk (chunk_data : bytes) : option (pystr * pystr) :=
  match split_null chunk_data with
  | Some (keyword, text) => Some (latin1_decode keyword, latin1_decode text)
  | None => None
  end.

Definition _encode_text_chunk (keyword text : pystr) : option bytes :=
  match latin1_encode keyword, latin1_encode text with
  | Some k, Some t => Some (k ++ [x00] ++ t)
  | _, _ => None
  end.

(** [keyword.lower()] of a str decoded from ISO-8859-1: A-Z and the accented
    capitals U+00C0-U+00DE, the sign U+00D7 apart, move up by 32. *)
Definition lower_char (c : N) : N :=
  if ((65 <=? c) && (c <=? 90))
     || ((192 <=? c) && (c <=? 222) && negb (c =? 215))
  then c + 32 else c.

Definition lower (s : pystr) : pystr := map lower_char s.

(** ** [write_metadata] *)

(** [keyword.lower() in ('chara', 'ccv3')] *)
Definition is_reserved (keyword : pystr) : bool :=
  str_eqb (lower keyword) (lit "chara") || str_eqb (lower keyword) (lit "ccv3").

(** Lines 57-68: what the filter keeps. *)
Definition keeps (c : chunk) : bool :=
  if bytes_eqb (fst c) tEXt
  then match _decode_text_chunk (snd c) with
       | Some (keyword, _) => negb (is_reserved keyword)
       | None => true
       end
  else true.

(** Lines 71-73; [data.encode('utf-8')] is outside any [try]. *)
Definition v2_chunk (data : pystr) : result chunk :=
  match utf8_encode data with
  | None => Err UnicodeEncodeError
  | Some raw =>
      let base64_encoded_v2_data := latin1_decode (b64encode raw) in
      match _encode_text_chunk (lit "chara") base64_encoded_v2_data with
      | Some v2_chunk_data => Ok (tEXt, v2_chunk_data)
      | None => Err UnicodeEncodeError
      end
  end.

(** [v3_data_dict['spec'] = ...; v3_data_dict['spec_version'] = ...], which
    only a dict allows (TypeError otherwise). *)
Definition with_spec (v3_data_dict : json) : option json :=
  match v3_data_dict with
  | JObj d =>
      Some (JObj (dict_set (lit "spec_version") (JStr (lit "3.0"))
                    (dict_set (lit "spec") (JStr (lit "chara_card_v3")) d)))
  | _ => None
  end.

(** Lines 76-88: every exception leaves [v3_chunk_tuple] at [None]. *)
Definition v3_chunk {rt : Runtime} (data : pystr) : option chunk :=
  match json_loads data with
  | None => None
  | Some v3_data_dict =>
      match with_spec v3_data_dict with
      | None => None
      | Some v3_data_dict =>
          let v3_json_string := lit (json_dumps v3_data_dict) in
          match utf8_encode v3_json_string with
          | None => None
          | Some raw =>
              let base64_encoded_v3_data := latin1_decode (b64encode raw) in
              match _encode_text_chunk (lit "ccv3") base64_encoded_v3_data with
              | Some v3_chunk_data => Some (tEXt, v3_chunk_data)
              | None => None
              end
          end
      end
  end.

(** Lines 91-95: the index of the first IEND chunk. *)
Fixpoint iend_index (chunks : list chunk) : option nat :=
  match chunks with
  | [] => None
  | c :: rest =>
      if bytes_eqb (fst c) IEND then Some O
      else match iend_index rest with Some i => Some (S i) | None => None end
  end.

(** [l.insert(i, x)] *)
Definition insert (A : Type) (i : nat) (x : A) (l : list A) : list A :=
  firstn i l ++ x :: skipn i l.

(** Lines 97-107 *)
Definition add_metadata (new_chunks : list chunk) (v2_chunk_tuple : chunk)
    (v3_chunk_tuple : option chunk) : list chunk :=
  match iend_index new_chunks with
  | Some insert_pos =>
      let new_chunks := insert insert_pos v2_chunk_tuple new_chunks in
      match v3_chunk_tuple with
      | Some c => insert (insert_pos + 1) c new_chunks
      | None => new_chunks
      end
  | None =>
      let new_chunks := new_chunks ++ [v2_chunk_tuple] in
      match v3_chunk_tuple with
      | Some c => new_chunks ++ [c]
      | None => new_chunks
      end
  end.

(** Lines 114-124: length, type, data and a fresh CRC for every chunk;
    [struct.pack] raises when a number does not fit 32 bits. *)
Fixpoint write_chunks (chunks : list chunk) : result bytes :=
  match chunks with
  | [] => Ok []
  | (chunk_type, chunk_data) :: rest =>
      match pack_u32 (N.of_nat (List.length chunk_data)),
            pack_u32 (crc32 (chunk_type ++ chunk_data)) with
      | Some len, Some crc =>
          match write_chunks rest with
          | Ok out => Ok (len ++ chunk_type ++ chunk_data ++ crc ++ out)
          | Err e => Err e
          end
      | _, _ => Err StructError
      end
  end.

Definition write_metadata {rt : Runtime} (lenient : bool) (image_bytes : bytes)
    (data : pystr) : result bytes :=
  if negb (bytes_startswith signature image_bytes) then Err PngError
  else
    match png_chunks lenient image_bytes with
    | Err e => Err e
    | Ok original_chunks =>
        let new_chunks := filter keeps original_chunks in
        match v2_chunk data with
        | Err e => Err e
        | Ok v2_chunk_tuple =>
            let v3_chunk_tuple := v3_chunk data in
            let new_chunks := add_metadata new_chunks v2_chunk_tuple v3_chunk_tuple in
            match write_chunks new_chunks with
            | Ok out => Ok (signature ++ out)
            | Err e => Err e
            end
        end
    end.

(** ** [read_metadata] *)

(** [text_chunks_data], a dict from str to str. *)
Definition text_dict := list (pystr * pystr).

Fixpoint text_find (k : pystr) (d : text_dict) : option pystr :=
  match d with
  | [] => None
  | (k', v) :: d' => if str_eqb k k' then Some v else text_find k d'
  end.

Fixpoint text_set (k v : pystr) (d : text_dict) : text_dict :=
  match d with
  | [] => [(k, v)]
  | (k', v') :: d' =>
      if str_eqb k k' then (k', v) :: d' else (k', v') :: text_set k v d'
  end.

(** Lines 151-158 *)
Definition collect_text (chunks : list chunk) : text_dict :=
  fold_left
    (fun text_chunks_data c =>
       if bytes_eqb (fst c) tEXt
       then match _decode_text_chunk (snd c) with
            | Some (keyword, text) => text_set (lower keyword) text text_chunks_data
            | None => text_chunks_data
            end
       else text_chunks_data)
    chunks [].

(** [base64.b64decode(text).decode('utf-8')]; every exception becomes the
    ValueError of lines 169 and 176. *)
Definition decode_payload (text : pystr) : result (option pystr) :=
  match b64decode text with
  | Some raw =>
      match utf8_decode raw with
      | Some s => Ok (Some s)
      | None => Err ValueError
      end
  | None => Err ValueError
  end.

Definition read_metadata (lenient : bool) (image_bytes : bytes)
    : result (option pystr) :=
  match png_chunks lenient image_bytes with
  | Err e => Err e
  | Ok chunks =>
      let text_chunks_data := collect_text chunks in
      match text_chunks_data with
      | [] => Ok None
      | _ :: _ =>
          match text_find (lit "ccv3") text_chunks_data with
          | Some text => decode_payload text
          | None =>
              match text_find (lit "chara") text_chunks_data with
              | Some text => decode_payload text
              | None => Ok None
              end
          end
      end
  end.

End Codec.

(* ================================================================== *)
(** * The shapes of a document, read off its fields *)

Module Shape.

(** The four shapes at which the cascade stops whatever they yield. *)
Inductive shape := DataBook | Book | Entries | Single.

(** [d[k]] when it is there and is a dict. *)
Definition sub_dict (k : pystr) (d : dict) : option dict :=
  match dict_find k d with Some (JObj x) => Some x | _ => None end.

(** [d[k]] when it is there and is a list. *)
Definition sub_list (k : pystr) (d : dict) : option (list json) :=
  match dict_find k d with Some (JArr l) => Some l | _ => None end.

(** [document.data.character_book.entries], a list. *)
Definition data_book_entries (d : dict) : option (list json) :=
  match sub_dict (lit "data") d with
  | Some x =>
      match sub_dict (lit "character_book") x with
      | Some b => sub_list (lit "entries") b
      | None => None
      end
  | None => None
  end.

(** [document.character_book.entries], a list. *)
Definition book_entries (d : dict) : option (list json) :=
  match sub_dict (lit "character_book") d with
  | Some b => sub_list (lit "entries") b
  | None => None
  end.

Definition is_some (A : Type) (o : option A) : bool :=
  match o with Some _ => true | None => false end.

(** The first of the four shapes that the document has, by its structure
    alone. *)
Definition committed_shape (d : dict) : option shape :=
  if is_some (data_book_entries d) then Some DataBook
  else if is_some (book_entries d) then Some Book
  else if is_some (sub_dict (lit "entries") d) then Some Entries
  else if existsb (fun k => dict_has k d) Lore.entry_fields then Some Single
  else None.

(** A method that returns whatever the state of the converter. *)
Definition total (A : Type) (m : Lore.M A) : Prop :=
  forall st, exists a st', m st = (Lore.Return a, st').

(** [found_entries] is set only when [triggers] has grown. *)
Definition found_means_some (s : list Lore.Trigger * bool) : Prop :=
  snd s = true -> fst s <> [].

(** A method that does not touch the document's triggers. *)
Definition keeps_document (A : Type) (m : Lore.M A) : Prop :=
  forall st r st', m st = (r, st') -> Lore.yaml_trigger st' = Lore.yaml_trigger st.

(** The body of the loop of lines 193-199. *)
Definition data_book_step {rt : Runtime} (ie : nat * json)
    (triggers : list Lore.Trigger) : Lore.M (list Lore.Trigger) :=
  Lore.bind (Lore.py_get (snd ie) (lit "id") (JInt (Z.of_nat (fst ie))))
    (fun entry_id_from_json =>
       Lore.bind (Lore.process_entry entry_id_from_json (snd ie))
         (fun trigger => Lore.keep trigger triggers)).

(** A value that is neither a number nor a str: [float] raises TypeError. *)
Definition float_rejects_type (v : json) : Prop :=
  match v with
  | JNull | JArr _ | JObj _ => True
  | _ => False
  end.

End Shape.

(* ================================================================== *)
(** * The sources of [first_mes], as a table *)

Module Probe.

(** What is read from the value of a source. *)
Definition whole (v : json) : json := v.

Definition head (v : json) : json :=
  match v with JArr (x :: _) => x | _ => JStr [] end.

Definition head_or_text (v : json) : json :=
  match v with JArr (x :: _) => x | JStr s => JStr s | _ => JStr [] end.

(** Whether a source that is present is taken. *)
Definition always (v : json) : bool := true.

(** Field, whether its value is taken, what is read from it: in the order of
    the probing. *)
Definition sources : list (pystr * (json -> bool) * (json -> json)) :=
  [ (lit "first_mes", always, whole);
    (lit "begin_dialogs", always, head_or_text);
    (lit "greeting", always, whole);
    (lit "example_dialog", truthy, head);
    (lit "char_greeting", always, whole);
    (lit "alternate_greetings", truthy, head) ].

(** The first source that is present and taken decides, whatever it reads;
    without one the result is the empty text. *)
Fixpoint probe (srcs : list (pystr * (json -> bool) * (json -> json)))
    (d : dict) : json :=
  match srcs with
  | [] => JStr []
  | (k, taken, read) :: rest =>
      match dict_find k d with
      | Some v => if taken v then read v else probe rest d
      | None => probe rest d
      end
  end.

End Probe.

(* ================================================================== *)
(** * Chunk streams and their text records *)

Module Container.

Import Codec.

Local Open Scope N_scope.

(** A chunk that the reader accepts and the writer can write: a type of four
    letters and at most 2^31-1 bytes of data. *)
Definition chunk_ok (c : chunk) : Prop :=
  List.length (fst c) = 4%nat
  /\ forallb is_letter (fst c) = true
  /\ N.of_nat (List.length (snd c)) <= 0x7FFFFFFF.

Definition is_iend (c : chunk) : bool := bytes_eqb (fst c) IEND.

(** The chunk lists that the reader returns: accepted chunks, the last one
    the end marker and no other. *)
Definition stream (pre : list chunk) (last : chunk) : Prop :=
  Forall (fun c => chunk_ok c /\ is_iend c = false) pre
  /\ chunk_ok last /\ is_iend last = true.

(** The text record of a chunk: lower-cased keyword and text of a tEXt chunk
    that decodes, nothing otherwise. *)
Definition text_record (c : chunk) : list (pystr * pystr) :=
  if bytes_eqb (fst c) tEXt
  then match _decode_text_chunk (snd c) with
       | Some (keyword, text) => [(lower keyword, text)]
       | None => []
       end
  else [].

(** The text records of a stream, in file order. *)
Definition text_records (chunks : list chunk) : list (pystr * pystr) :=
  flat_map text_record chunks.

(** The text of the last record with keyword [k]. *)
Definition last_text (k : pystr) (chunks : list chunk) : option pystr :=
  text_find k (rev (text_records chunks)).

(** The chunks that hold a reserved keyword. *)
Definition reserved_chunks (chunks : list chunk) : list chunk :=
  filter (fun c => negb (keeps c)) chunks.

(** In the words of the contract: [k] is [word] when the case of the letters
    is left aside.  [word] is in small letters; a character of [k] agrees
    with one of [word] when it is that character, or its capital when that
    character is a small letter (a capital is 32 below its small letter). *)
Fixpoint same_word (word k : pystr) : bool :=
  match word, k with
  | [], [] => true
  | w :: word', x :: k' =>
      ((x =? w) || ((97 <=? w) && (w <=? 122) && (x + 32 =? w)))
      && same_word word' k'
  | _, _ => false
  end.

(** The keyword of a card chunk: chara or ccv3, in any case. *)
Definition card_keyword (k : pystr) : bool :=
  same_word (lit "chara") k || same_word (lit "ccv3") k.

(** A card chunk: a tEXt chunk whose data has a null byte, with a card
    keyword before the first one. *)
Definition card_chunk (c : chunk) : bool :=
  bytes_eqb (fst c) tEXt
  && match split_null (snd c) with
     | Some (keyword, _) => card_keyword (latin1_decode keyword)
     | None => false
     end.

(** The data of a chunk is short enough for the reader. *)
Definition fits (c : chunk) : bool :=
  N.of_nat (List.length (snd c)) <=? 0x7FFFFFFF.

(** The metadata chunks of [data] are short enough for the reader. *)
Definition metadata_fits {rt : Runtime} (data : pystr) : bool :=
  match v2_chunk data with Ok c => fits c | Err _ => true end
  && match v3_chunk data with Some c => fits c | None => true end.

(** A str of Unicode scalar values: no surrogate, nothing above U+10FFFF. *)
Definition unicode_text (s : pystr) : bool :=
  forallb (fun c => (c <? 0x110000) && negb (is_surrogate c)) s.

(** The decoder between two groups of four, with [w] written. *)
Definition at_group (w : bytes) : b64_state :=
  {| quad_pos := 0; leftchar := 0; pads := 0; written := w |}.

(** The metadata chunks that [write_metadata] adds. *)
Definition metadata (v2 : chunk) (v3 : option chunk) : list chunk :=
  v2 :: match v3 with Some c => [c] | None => [] end.

End Container.

(* ================================================================== *)
(** * What the mapper's methods do to the converter *)

Module Effects.

Import Lore.

(** A method that writes to the log and changes nothing else of the
    converter. *)
Definition only_logs (A : Type) (m : M A) : Prop :=
  forall st r st',
    m st = (r, st') ->
    yaml_trigger st' = yaml_trigger st
    /\ entries_processed st' = entries_processed st
    /\ exists l, logged st' = logged st ++ l.

(** A method whose outcome does not depend on the converter. *)
Definition state_blind (A : Type) (m : M A) : Prop :=
  forall st st', fst (m st) = fst (m st').

(** What [process_entry] makes of an entry, from a fresh converter. *)
Definition trigger_of {rt : Runtime} (entry_id entry : json) : option Trigger :=
  match fst (process_entry entry_id entry init) with
  | Return trigger => trigger
  | Raise _ => None
  end.

(** [[trigger] if trigger else []] *)
Definition kept (trigger : option Trigger) : list Trigger :=
  match trigger with
  | Some t => [t]
  | None => []
  end.

(** A value that is neither a dict nor a list. *)
Definition is_scalar (v : json) : bool := negb (is_dict v) && negb (is_list v).

(** A str that stands between two quotation marks as one line, without line
    feed and carriage return; a value that is no str passes. *)
Definition quoted_line (v : json) : Prop :=
  match v with
  | JStr q =>
      exists body, q = [34%N] ++ body ++ [34%N] /\ ~ In 10%N body /\ ~ In 13%N body
  | _ => True
  end.

(** The converter after a method that has counted [n] more entries and has
    left the document alone. *)
Definition counted (n : nat) (st st' : converter) : Prop :=
  yaml_trigger st' = yaml_trigger st
  /\ entries_processed st' = (entries_processed st + n)%nat.

(** What the loop of the first shape makes of one item of
    [data.character_book.entries] that is a dict. *)
Definition data_book_trigger {rt : Runtime} (ie : nat * json) : list Trigger :=
  kept (trigger_of (dict_get (lit "id") (JInt (Z.of_nat (fst ie))) (members (snd ie)))
          (snd ie)).

(** What the loops of the second and third shape make of one item. *)
Definition book_trigger {rt : Runtime} (ie : nat * json) : list Trigger :=
  kept (trigger_of (JInt (Z.of_nat (fst ie))) (snd ie)).

Definition entries_trigger {rt : Runtime} (kv : pystr * json) : list Trigger :=
  kept (trigger_of (JStr (fst kv)) (snd kv)).

(** What the loop of lines 241-247 makes of one top-level field. *)
Definition field_trigger {rt : Runtime} (kv : pystr * json) : list Trigger :=
  if is_dict (snd kv) then kept (trigger_of (JStr (fst kv)) (snd kv)) else [].

(** What the loops of lines 253-261 make of one top-level field that is a
    list: its dicts, numbered from 1. *)
Definition array_triggers {rt : Runtime} (kv : pystr * json) : list Trigger :=
  flat_map
    (fun ii =>
       if is_dict (snd ii)
       then kept (trigger_of
                    (JStr (fst kv ++ lit "_" ++ str_of_Z (Z.of_nat (fst ii) + 1)))
                    (snd ii))
       else [])
    (enumerate (elements (snd kv))).

(** [bool(triggers)] *)
Definition any_kept (triggers : list Trigger) : bool :=
  match triggers with
  | [] => false
  | _ :: _ => true
  end.

(** What each of the four shapes yields: the triggers of its entries, in the
    order of the document. *)
Definition shape_triggers {rt : Runtime} (sh : Shape.shape) (d : dict)
    : list Trigger :=
  match sh with
  | Shape.DataBook =>
      flat_map data_book_trigger
        (enumerate (match Shape.data_book_entries d with Some l => l | None => [] end))
  | Shape.Book =>
      flat_map book_trigger
        (enumerate (match Shape.book_entries d with Some l => l | None => [] end))
  | Shape.Entries =>
      flat_map entries_trigger
        (match Shape.sub_dict (lit "entries") d with Some l => l | None => [] end)
  | Shape.Single => kept (trigger_of (JStr (lit "1")) (JObj d))
  end.

(** The entries of the first shape are all dicts, as line 195 needs. *)
Definition entries_are_dicts (sh : Shape.shape) (d : dict) : bool :=
  match sh with
  | Shape.DataBook =>
      forallb is_dict (match Shape.data_book_entries d with Some l => l | None => [] end)
  | _ => true
  end.

End Effects.

(* ================================================================== *)
(** * Sample runtime and documents *)

Module Sample.

Import Lore.

(** [E [(k, v); ...]] is the dict with these items, keys given as text. *)
Definition E (items : list (string * json)) : json :=
  JObj (map (fun kv => (lit (fst kv), snd kv)) items).

Definition S (s : string) : json := JStr (lit s).

(** The JSON text {"a": 1}, by its code points, and its value. *)
Definition card_text : pystr := [123; 34; 97; 34; 58; 32; 49; 125]%N.

Definition card_json : json := E [("a"%string, JInt 1)].

(** The value with the spec fields of a v3 card, and the text that
    [json.dumps] writes for it:
    {"a": 1, "spec": "chara_card_v3", "spec_version": "3.0"}. *)
Definition card_v3_json : json :=
  E [("a"%string, JInt 1); ("spec"%string, S "chara_card_v3");
     ("spec_version"%string, S "3.0")].

Definition card_v3_text : string :=
  string_of_list_ascii
    (map ascii_of_N
       [123; 34; 97; 34; 58; 32; 49; 44; 32; 34; 115; 112; 101; 99; 34; 58;
        32; 34; 99; 104; 97; 114; 97; 95; 99; 97; 114; 100; 95; 118; 51; 34;
        44; 32; 34; 115; 112; 101; 99; 95; 118; 101; 114; 115; 105; 111; 110;
        34; 58; 32; 34; 51; 46; 48; 34; 125]%N).

(** A runtime that is good enough to run the samples: its JSON functions know
    the two texts and the two values above. *)
Definition runtime : Runtime :=
  {| float_of_str := fun _ => None;
     repr_float := fun _ => lit "0.0";
     repr_str := fun s => [39%N] ++ s ++ [39%N];
     os_path_basename := fun s => s;
     os_path_splitext_root := fun s => s;
     json_dumps_indent := fun _ => lit "{}";
     json_loads :=
       fun s =>
         if str_eqb s card_text then Some card_json
         else if str_eqb s (lit card_v3_text) then Some card_v3_json
         else None;
     json_dumps :=
       fun v =>
         match v with
         | JObj [_; _; _] => card_v3_text
         | _ => "null"%string
         end |}.

(** [data.character_book.entries] is an empty list, next to a top-level
    [entries] map with one good entry. *)
Definition empty_book_doc : json :=
  E [("data"%string, E [("character_book"%string, E [("entries"%string, JArr [])])]);
     ("entries"%string, E [("a"%string, E [("content"%string, S "x")])])].

(** The first entry of [data.character_book.entries] is a str. *)
Definition str_entry_doc : json :=
  E [("data"%string,
      E [("character_book"%string,
          E [("entries"%string, JArr [S "oops"; E [("content"%string, S "x")]])])])].

(** An entry whose [insertion_order] is [null]. *)
Definition null_order_entry : json :=
  E [("insertion_order"%string, JNull); ("content"%string, S "x")].

(** An entry whose [insertion_order] is 30. *)
Definition order_30_entry : json :=
  E [("insertion_order"%string, JInt 30); ("content"%string, S "x")].

(** An entry without [keys] and with secondary keys. *)
Definition no_keys_entry : json :=
  E [("secondary_keys"%string, JArr [S "x"; S "y"]); ("content"%string, S "c")].

(** An empty [first_mes] before a [greeting]. *)
Definition empty_first_mes_doc : dict :=
  [(lit "first_mes", JStr []); (lit "greeting", S "hi")].

(** A one-pixel PNG container: signature, IHDR, a tEXt chunk with keyword
    "Chara" that holds the Base64 of {"old":1}, IEND. *)
Definition card_png : Codec.bytes :=
  map Codec.byte_of
    [137; 80; 78; 71; 13; 10; 26; 10; 0; 0; 0; 13; 73; 72; 68; 82; 0; 0; 0; 1;
     0; 0; 0; 1; 8; 0; 0; 0; 0; 58; 126; 155; 85; 0; 0; 0; 18; 116; 69; 88;
     116; 67; 104; 97; 114; 97; 0; 101; 121; 74; 118; 98; 71; 81; 105; 79;
     106; 70; 57; 82; 204; 208; 211; 0; 0; 0; 0; 73; 69; 78; 68; 174; 66; 96;
     130]%N.

(** The same container with a chara chunk that holds the Base64 of
    {"a": 1} and, after it, a ccv3 chunk whose text "A" is no Base64. *)
Definition mixed_png : Codec.bytes :=
  map Codec.byte_of
    [137; 80; 78; 71; 13; 10; 26; 10; 0; 0; 0; 13; 73; 72; 68; 82; 0; 0;
     0; 1; 0; 0; 0; 1; 8; 0; 0; 0; 0; 58; 126; 155; 85; 0; 0; 0; 18; 116;
     69; 88; 116; 99; 104; 97; 114; 97; 0; 101; 121; 74; 104; 73; 106;
     111; 103; 77; 88; 48; 61; 19; 80; 236; 252; 0; 0; 0; 6; 116; 69; 88;
     116; 99; 99; 118; 51; 0; 65; 47; 153; 178; 113; 0; 0; 0; 0; 73; 69;
     78; 68; 174; 66; 96; 130]%N.

(** The first bytes of a GIF file. *)
Definition not_png : Codec.bytes := Codec.blit "GIF89a".

Definition card_chunks : list Codec.chunk :=
  Eval vm_compute in
    match Codec.png_chunks false card_png with
    | Codec.Ok chunks => chunks
    | Codec.Err _ => []
    end.

Definition mixed_chunks : list Codec.chunk :=
  Eval vm_compute in
    match Codec.png_chunks false mixed_png with
    | Codec.Ok chunks => chunks
    | Codec.Err _ => []
    end.

(** [card_png] after [write_metadata] of [card_text]. *)
Definition card_written : Codec.bytes :=
  Eval vm_compute in
    match Codec.write_metadata (rt := runtime) false card_png card_text with
    | Codec.Ok b => b
    | Codec.Err _ => []
    end.

(** What [process_entry] makes of [no_keys_entry] from a fresh converter. *)
Definition no_keys_trigger : Trigger :=
  Eval vm_compute in
    match fst (process_entry (rt := runtime) (JInt 0) no_keys_entry init) with
    | Return (Some t) => t
    | _ => fallback_trigger
    end.

Definition no_keys_final : converter :=
  Eval vm_compute in snd (process_entry (rt := runtime) (JInt 0) no_keys_entry init).

(** What [process_entry] makes of [order_30_entry] from a fresh converter. *)
Definition order_30_trigger : Trigger :=
  Eval vm_compute in
    match fst (process_entry (rt := runtime) (JInt 0) order_30_entry init) with
    | Return (Some t) => t
    | _ => fallback_trigger
    end.

Definition order_30_final : converter :=
  Eval vm_compute in snd (process_entry (rt := runtime) (JInt 0) order_30_entry init).

(** The converter after [convert_json_to_yaml] of [empty_book_doc]. *)
Definition empty_book_final : converter :=
  Eval vm_compute in
    snd (convert_json_to_yaml (rt := runtime) empty_book_doc [] init).

(** [data.character_book.entries] with three dicts: one with an [id], one
    disabled, one plain. *)
Definition book_doc : json :=
  E [("data"%string,
      E [("character_book"%string,
          E [("entries"%string,
              JArr [E [("id"%string, JInt 7); ("content"%string, S "x")];
                    E [("enabled"%string, JBool false)];
                    E [("content"%string, S "y")]])])])].

(** An entry at position 1 with a probability of 50. *)
Definition half_entry : json :=
  E [("content"%string, S "x"); ("position"%string, JInt 1);
     ("extensions"%string, E [("probability"%string, JInt 50)])].

(** What [process_entry] makes of [half_entry] from a fresh converter. *)
Definition half_trigger : Trigger :=
  Eval vm_compute in
    match fst (process_entry (rt := runtime) (JInt 0) half_entry init) with
    | Return (Some t) => t
    | _ => fallback_trigger
    end.

Definition half_final : converter :=
  Eval vm_compute in snd (process_entry (rt := runtime) (JInt 0) half_entry init).

(** The converter after [convert_json_to_yaml] of the str "content". *)
Definition str_doc_final : converter :=
  Eval vm_compute in snd (convert_json_to_yaml (rt := runtime) (S "content") [] init).

(** A text of two lines with a quotation mark, a text of one line with one,
    and what [quote_value] makes of them. *)
Definition two_lines : pystr := [97; 10; 34; 98]%N.

Definition one_line : pystr := [97; 34; 98]%N.

Definition two_lines_quoted : pystr := [34; 97; 92; 110; 92; 34; 98; 34]%N.

Definition one_line_quoted : pystr := [34; 97; 92; 34; 98; 34]%N.

(** [card_png] after [write_metadata] of a text that is no JSON. *)
Definition plain_written : Codec.bytes :=
  Eval vm_compute in
    match Codec.write_metadata (rt := runtime) false card_png (lit "hello") with
    | Codec.Ok b => b
    | Codec.Err _ => []
    end.

(** A container whose one tEXt chunk holds "A", without a null byte, and the
    container without that chunk. *)
Definition odd_png : Codec.bytes :=
  map Codec.byte_of
    [137; 80; 78; 71; 13; 10; 26; 10; 0; 0; 0; 1; 116; 69; 88; 116; 65; 78;
     157; 171; 225; 0; 0; 0; 0; 73; 69; 78; 68; 174; 66; 96; 130]%N.

Definition bare_png : Codec.bytes :=
  map Codec.byte_of
    [137; 80; 78; 71; 13; 10; 26; 10; 0; 0; 0; 0; 73; 69; 78; 68; 174; 66; 96;
     130]%N.

(** A container with IHDR, a tEXt chunk "Comment" with the text "hi", a tEXt
    chunk that holds "A" without a null byte, a tEXt chunk "CHARA" in
    capitals, and IEND; and the same after [write_metadata] of [card_text]. *)
Definition busy_png : Codec.bytes :=
  map Codec.byte_of
    [137; 80; 78; 71; 13; 10; 26; 10; 0; 0; 0; 13; 73; 72; 68; 82; 0; 0; 0; 1;
     0; 0; 0; 1; 8; 0; 0; 0; 0; 58; 126; 155; 85; 0; 0; 0; 10; 116; 69; 88;
     116; 67; 111; 109; 109; 101; 110; 116; 0; 104; 105; 162; 162; 88; 102; 0;
     0; 0; 1; 116; 69; 88; 116; 65; 78; 157; 171; 225; 0; 0; 0; 10; 116; 69;
     88; 116; 67; 72; 65; 82; 65; 0; 98; 50; 120; 107; 248; 174; 209; 98; 0;
     0; 0; 0; 73; 69; 78; 68; 174; 66; 96; 130]%N.

Definition busy_written : Codec.bytes :=
  Eval vm_compute in
    match Codec.write_metadata (rt := runtime) false busy_png card_text with
    | Codec.Ok b => b
    | Codec.Err _ => []
    end.

Definition busy_written_chunks : list Codec.chunk :=
  Eval vm_compute in
    match Codec.png_chunks false busy_written with
    | Codec.Ok chunks => chunks
    | Codec.Err _ => []
    end.

(** A JSON text with a lone surrogate between its quotation marks, and a
    runtime whose [json.loads] reads it, as Python's does. *)
Definition surrogate_text : pystr := [34; 0xD800; 34]%N.

Definition surrogate_runtime : Runtime :=
  {| float_of_str := float_of_str (Runtime := runtime);
     repr_float := repr_float (Runtime := runtime);
     repr_str := repr_str (Runtime := runtime);
     os_path_basename := os_path_basename (Runtime := runtime);
     os_path_splitext_root := os_path_splitext_root (Runtime := runtime);
     json_dumps_indent := json_dumps_indent (Runtime := runtime);
     json_loads :=
       fun s =>
         if str_eqb s surrogate_text then Some (JStr [0xD800%N])
         else json_loads (Runtime := runtime) s;
     json_dumps := json_dumps (Runtime := runtime) |}.

End Sample.

(* ================================================================== *)
(** * Properties *)

Import Lore Shape Effects.

(** ** Strings and dicts *)

Lemma str_eqb_eq (a b : pystr) : str_eqb a b = true <-> a = b.
Proof.
  revert b; induction a as [|x a IH]; intros [|y b]; simpl;
    try (split; [discriminate | congruence || discriminate]); try tauto.
  rewrite andb_true_iff, N.eqb_eq, IH.
  split; [intros [-> ->]; reflexivity | intros H; inversion H; auto].
Qed.

Lemma str_eqb_refl (a : pystr) : str_eqb a a = true.
Proof. apply str_eqb_eq; reflexivity. Qed.

(** ** The monad *)

Lemma bind_inv (A B : Type) (m : M A) (k : A -> M B) st r st' :
  bind m k st = (r, st') ->
  (exists a st1, m st = (Return a, st1) /\ k a st1 = (r, st'))
  \/ (exists e, m st = (Raise e, st') /\ r = Raise e).
Proof.
  unfold bind; destruct (m st) as [[a|e] st1]; intros H.
  - left; eauto.
  - right; inversion H; subst; eauto.
Qed.

Lemma bind_Return (A B : Type) (m : M A) (k : A -> M B) st b st' :
  bind m k st = (Return b, st') ->
  exists a st1, m st = (Return a, st1) /\ k a st1 = (Return b, st').
Proof.
  intros H; destruct (bind_inv _ _ _ H) as [?|(e & _ & He)]; [assumption|discriminate].
Qed.

Lemma bind_step (A B : Type) (m : M A) (k : A -> M B) st a st1 :
  m st = (Return a, st1) -> bind m k st = k a st1.
Proof. intros H; unfold bind; rewrite H; reflexivity. Qed.
Arguments bind_step {A B m} k {st a st1} _.

Lemma total_ret (A : Type) (a : A) : total (ret a).
Proof. intros st; unfold ret; eauto. Qed.

Lemma total_log l m : total (log l m).
Proof. intros st; unfold log; eauto. Qed.

Lemma total_count_entry : total count_entry.
Proof. intros st; unfold count_entry; eauto. Qed.

Lemma total_bind (A B : Type) (m : M A) (k : A -> M B) :
  total m -> (forall a, total (k a)) -> total (bind m k).
Proof.
  intros Hm Hk st; unfold bind.
  destruct (Hm st) as (a & st1 & ->); apply Hk.
Qed.

Lemma total_try_except (A : Type) (m : M A) (h : exn -> M A) :
  (forall e, total (h e)) -> total (try_except any_exception m h).
Proof.
  intros Hh st; unfold try_except.
  destruct (m st) as [[a|e] st1]; [eauto|apply Hh].
Qed.

Lemma total_for_each (A S : Type) (l : list A) (body : A -> S -> M S) :
  (forall x s, total (body x s)) -> forall s, total (for_each l body s).
Proof.
  intros Hb; induction l as [|x l IH]; intros s; simpl.
  - apply total_ret.
  - apply total_bind; [apply Hb | assumption].
Qed.

Create HintDb total.

#[local] Hint Resolve total_ret total_log total_count_entry total_bind
  total_try_except total_for_each : total.

(** [process_entry] catches whatever its body raises. *)
Lemma process_entry_total {rt : Runtime} entry_id entry :
  total (process_entry entry_id entry).
Proof.
  unfold process_entry; apply total_try_except; intros e; auto 6 with total.
Qed.

Lemma try_except_Return (A : Type) (m : M A) (h : exn -> M A) catches st a st' :
  try_except catches m h st = (Return a, st') ->
  m st = (Return a, st')
  \/ exists e st1, m st = (Raise e, st1) /\ catches e = true /\ h e st1 = (Return a, st').
Proof.
  unfold try_except; destruct (m st) as [[x|e] st1]; intros H.
  - left; assumption.
  - destruct (catches e) eqn:Hc; [right; eauto | discriminate].
Qed.

(** ** [process_match] *)

Lemma nonempty_true (s : pystr) : nonempty s = true <-> s <> [].
Proof. destruct s; simpl; split; congruence. Qed.

Lemma process_match_falsy {rt : Runtime} keys keysecondary :
  truthy keys = false -> process_match keys keysecondary = [].
Proof. intros H; unfold process_match; rewrite H; reflexivity. Qed.

(** With truthy keys the result is the primary part, alone or followed by
    ["~"] and a secondary part, and then neither part is empty. *)
Lemma process_match_truthy {rt : Runtime} keys keysecondary :
  truthy keys = true ->
  process_match keys keysecondary = join_keys (as_list keys)
  \/ exists l,
       join_keys (as_list keys) <> [] /\ join_keys l <> []
       /\ process_match keys keysecondary
          = join_keys (as_list keys) ++ lit "~" ++ join_keys l.
Proof.
  intros H; unfold process_match; rewrite H; cbv zeta; simpl negb; cbv iota.
  set (ks := match keysecondary with
             | JStr _ => JArr [keysecondary]
             | JArr _ => keysecondary
             | _ => if truthy keysecondary then JArr (as_list keysecondary)
                    else keysecondary
             end).
  destruct (nonempty (join_keys (as_list keys))) eqn:Hp; simpl; [|left; reflexivity].
  destruct (truthy ks) eqn:Hs; simpl; [|left; reflexivity].
  destruct (nonempty (join_keys (as_list ks))) eqn:Hn; [|left; reflexivity].
  right; exists (as_list ks); repeat split; try reflexivity;
    apply nonempty_true; assumption.
Qed.

(** ** [process_entry] *)

(** What a trigger that [process_entry] returns is made of. *)
Lemma process_entry_Some {rt : Runtime} entry_id entry st t st' :
  process_entry entry_id entry st = (Return (Some t), st') ->
  exists e order st1 st2,
    entry = JObj e
    /\ coerce_number (dict_get (lit "insertion_order") (JInt 100) e)
         (BadInsertionOrder entry_id (dict_get (lit "insertion_order") (JInt 100) e)) st1
       = (Return order, st2)
    /\ t_priority t = priority_of order
    /\ t_match t
       = quote_value
           (JStr (process_match (dict_get (lit "keys") (JArr []) e)
                    (dict_get (lit "secondary_keys") (JArr []) e)))
    /\ truthy (dict_get (lit "enabled") (JBool true) e) = true.
Proof.
  unfold process_entry; intros H.
  apply try_except_Return in H as [H|(e & st1 & _ & _ & H)].
  2:{ unfold bind, log, ret in H; discriminate. }
  destruct entry as [| | | | |l|e]; try (unfold bind, log, ret in H; discriminate).
  apply bind_Return in H as (pos & s1 & Hpos & H).
  apply bind_Return in H as (order & s2 & Hord & H).
  apply bind_Return in H as (pr & s3 & Hpr & H).
  apply bind_Return in H as (raw & s4 & Hraw & H).
  apply bind_Return in H as (prob & s5 & Hprob & H).
  destruct (truthy (dict_get (lit "enabled") (JBool true) e)) eqn:Hen; simpl in H.
  2:{ unfold bind, log, ret in H; discriminate. }
  unfold bind, log, ret in H; inversion H; subst; clear H.
  exists e, order, s1, s2; simpl; auto.
Qed.

(** With truthy keys, the result by its two parts: the truthy keys joined by
    ["&"], and the truthy secondary keys joined by ["&"]. *)
Lemma process_match_parts {rt : Runtime} keys keysecondary :
  truthy keys = true ->
  process_match keys keysecondary
  = (if nonempty (join (lit "&") (map py_str (filter truthy (as_list keys))))
        && nonempty
             (join (lit "&")
                (map py_str
                   (filter truthy
                      match keysecondary with
                      | JStr _ => [keysecondary]
                      | JArr l => l
                      | _ => if truthy keysecondary then as_list keysecondary else []
                      end)))
     then join (lit "&") (map py_str (filter truthy (as_list keys)))
          ++ lit "~"
          ++ join (lit "&")
               (map py_str
                  (filter truthy
                     match keysecondary with
                     | JStr _ => [keysecondary]
                     | JArr l => l
                     | _ => if truthy keysecondary then as_list keysecondary else []
                     end))
     else join (lit "&") (map py_str (filter truthy (as_list keys)))).
Proof.
  intros H; unfold process_match, join_keys; rewrite H; cbv zeta; simpl negb; cbv iota.
  destruct (nonempty (join (lit "&") (map py_str (filter truthy (as_list keys)))));
    [|reflexivity].
  cbn [andb].
  destruct keysecondary as [|b|z|f|s|l|d]; try reflexivity.
  - destruct b; reflexivity.
  - destruct (truthy (JInt z)) eqn:E; cbv iota; [reflexivity|].
    rewrite E; reflexivity.
  - destruct (truthy (JFloat f)) eqn:E; cbv iota; [reflexivity|].
    rewrite E; reflexivity.
  - destruct l; reflexivity.
  - destruct d as [|kv d]; reflexivity.
Qed.

(** C10.  For every entry that yields a trigger, the trigger's match is the
    quoted form of a text [m].  When the entry's [keys] are absent, empty or
    otherwise falsy, [m] is empty whatever [secondary_keys] holds.  The
    primary part is the truthy keys joined by ["&"], falsy keys being left
    out, and the secondary part is the truthy secondary keys joined by
    ["&"], falsy ones being left out (a str counts as the one key, a list
    gives its elements, another truthy value its keys or else its text);
    [m] is empty whenever the primary part is, it is the primary part alone
    when the secondary part is empty, and the primary part, ["~"] and the
    secondary part when neither is empty. *)
Theorem match_needs_primary {rt : Runtime} entry_id e st t st' :
  process_entry entry_id (JObj e) st = (Return (Some t), st') ->
  let keys := dict_get (lit "keys") (JArr []) e in
  let keysecondary := dict_get (lit "secondary_keys") (JArr []) e in
  let primary := join (lit "&") (map py_str (filter truthy (as_list keys))) in
  let secondary :=
    join (lit "&")
      (map py_str
         (filter truthy
            match keysecondary with
            | JStr _ => [keysecondary]
            | JArr l => l
            | _ => if truthy keysecondary then as_list keysecondary else []
            end)) in
  exists m,
    t_match t = quote_value (JStr m)
    /\ (truthy keys = false -> m = [])
    /\ (primary = [] -> m = [])
    /\ (truthy keys = true ->
        m = primary
        \/ exists l,
             let secondary := join (lit "&") (map py_str (filter truthy l)) in
             primary <> [] /\ secondary <> []
             /\ m = primary ++ lit "~" ++ secondary)
    /\ (truthy keys = true -> secondary = [] -> m = primary)
    /\ (truthy keys = true -> primary <> [] -> secondary <> [] ->
        m = primary ++ lit "~" ++ secondary).
Proof.
  intros H keys keysecondary primary secondary.
  apply process_entry_Some in H as (e' & order & s1 & s2 & He & _ & _ & Hm & _).
  injection He as <-.
  exists (process_match keys keysecondary).
  split; [exact Hm|].
  split; [apply process_match_falsy|].
  split.
  { intros Hp; destruct (truthy keys) eqn:Hk; [|apply process_match_falsy; assumption].
    destruct (process_match_truthy keys keysecondary Hk)
      as [->|(l & Hne & _)]; [exact Hp | contradiction]. }
  split; [intros Hk; apply process_match_truthy; assumption|].
  split.
  - intros Hk Hs; rewrite (process_match_parts keys keysecondary Hk).
    fold primary; fold secondary; rewrite Hs, andb_false_r; reflexivity.
  - intros Hk Hp Hs; rewrite (process_match_parts keys keysecondary Hk).
    fold primary; fold secondary.
    apply nonempty_true in Hp, Hs; rewrite Hp, Hs; reflexivity.
Qed.

Lemma match_needs_primary_witness :
  process_entry (rt := Sample.runtime) (JInt 0) Sample.no_keys_entry init
  = (Return (Some Sample.no_keys_trigger), Sample.no_keys_final)
  /\ t_match Sample.no_keys_trigger = JStr [34; 34]%N.
Proof.
  assert (H : process_entry (rt := Sample.runtime) (JInt 0) Sample.no_keys_entry init
              = (Return (Some Sample.no_keys_trigger), Sample.no_keys_final))
    by (vm_compute; reflexivity).
  split; [exact H|].
  destruct (match_needs_primary (rt := Sample.runtime) _ _ _ H) as (m & Hm & Hf & _).
  rewrite Hm, (Hf eq_refl); reflexivity.
Defined.

(** ** [convert_json_to_yaml] *)

(** C9.  When [convert_json_to_yaml] succeeds, the document's trigger list is
    not empty: it is what extraction returned, or, when extraction returned
    nothing, the one fixed fallback trigger (priority 50, probability 1.0,
    position sys_start, block false). *)
Theorem convert_leaves_a_trigger {rt : Runtime} json_data source_file st st' :
  convert_json_to_yaml json_data source_file st = (Return true, st') ->
  yaml_trigger st' <> []
  /\ (exists triggers st1,
        extract_entries_from_json json_data source_file (snd (reset st))
        = (Return triggers, st1)
        /\ yaml_trigger st'
           = match triggers with [] => [fallback_trigger] | _ :: _ => triggers end)
  /\ t_priority fallback_trigger = NInt 50
  /\ t_probability fallback_trigger = 1%float
  /\ t_position fallback_trigger = JStr sys_start
  /\ t_block fallback_trigger = false.
Proof.
  unfold convert_json_to_yaml; intros H.
  apply try_except_Return in H as [H|(e & st1 & _ & _ & H)].
  2:{ unfold bind, log, ret in H; discriminate. }
  apply bind_Return in H as ([] & s0 & Hreset & H).
  apply bind_Return in H as (triggers & s1 & Hex & H).
  unfold reset in Hreset; injection Hreset as <-.
  assert (Hy : yaml_trigger st'
               = match triggers with [] => [fallback_trigger] | _ :: _ => triggers end).
  { destruct triggers as [|t ts];
      unfold bind, set_trigger, get_converter, log, append_trigger, count_entry, ret in H;
      simpl in H; injection H as <-; reflexivity. }
  split; [|split; [|repeat split]].
  - rewrite Hy; destruct triggers; discriminate.
  - exists triggers, s1; split; [exact Hex | exact Hy].
Qed.

Lemma convert_leaves_a_trigger_witness :
  convert_json_to_yaml (rt := Sample.runtime) Sample.empty_book_doc [] init
  = (Return true, Sample.empty_book_final)
  /\ yaml_trigger Sample.empty_book_final <> [].
Proof.
  assert (H : convert_json_to_yaml (rt := Sample.runtime) Sample.empty_book_doc [] init
              = (Return true, Sample.empty_book_final))
    by (vm_compute; reflexivity).
  split; [exact H|].
  exact (proj1 (convert_leaves_a_trigger (rt := Sample.runtime) _ _ _ H)).
Defined.

(** ** Entries that are dropped *)

(** An entry whose [insertion_order] is [null]: [float(None)] raises
    TypeError, the [except ValueError] of line 129 lets it through, and the
    outer handler drops the entry with an error record. *)
Example null_insertion_order_drops_entry {rt : Runtime} entry_id st :
  process_entry entry_id Sample.null_order_entry st
  = (Return None,
     {| yaml_trigger := yaml_trigger st;
        entries_processed := entries_processed st;
        logged := (logged st ++ [(ERROR, EntryFailed entry_id TypeError)])
                  ++ [(DEBUG, Traceback)] |}).
Proof. reflexivity. Qed.

(** A trigger's priority is 100 minus the number that [insertion_order] was
    coerced to; that number is the field itself when it is an int, a bool or
    a float, and 100 when the field is absent or a str that [float] does not
    accept. *)
Lemma priority_is_100_minus_order {rt : Runtime} entry_id e st t st' :
  process_entry entry_id (JObj e) st = (Return (Some t), st') ->
  (forall v n, dict_find (lit "insertion_order") e = Some v ->
     as_number v = Some n -> t_priority t = priority_of n)
  /\ (dict_find (lit "insertion_order") e = None -> t_priority t = NInt 0)
  /\ (forall s, dict_find (lit "insertion_order") e = Some (JStr s) ->
        float_of_str s = None -> t_priority t = NInt 0).
Proof.
  intros H.
  apply process_entry_Some in H as (e' & order & s1 & s2 & He & Hc & Hp & _).
  injection He as <-; unfold dict_get in Hc.
  repeat split.
  - intros v n Hv Hn; rewrite Hv in Hc; unfold coerce_number in Hc.
    rewrite Hn in Hc; unfold ret in Hc; injection Hc as <- _; exact Hp.
  - intros Hv; rewrite Hv in Hc; unfold coerce_number, ret in Hc; simpl in Hc.
    injection Hc as <- _; exact Hp.
  - intros s Hv Hs; rewrite Hv in Hc.
    unfold coerce_number, try_except, py_float in Hc; simpl in Hc.
    rewrite Hs in Hc; unfold raise, bind, log, ret in Hc; simpl in Hc.
    injection Hc as <- _; exact Hp.
Qed.

(** A document whose [data.character_book.entries] starts with a str:
    [entry.get('id', i)] of line 195 raises AttributeError outside
    [process_entry], the conversion returns [False] and no entry is kept,
    the good second entry included; [process_entry] itself would have
    dropped the str with a warning and gone on. *)
Example str_entry_aborts_conversion {rt : Runtime} st :
  (exists st',
     convert_json_to_yaml Sample.str_entry_doc [] st = (Return false, st')
     /\ yaml_trigger st' = []
     /\ In (ERROR, ConvertFailed AttributeError) (logged st'))
  /\ fst (process_entry (JInt 0) (Sample.S "oops") st) = Return None.
Proof.
  split; [|reflexivity].
  eexists; split; [reflexivity|].
  split; [reflexivity|].
  simpl; rewrite !in_app_iff; simpl; tauto.
Qed.

(** ** The cascade of [extract_entries_from_json] *)

Lemma has_dict_obj d k st :
  has_dict (JObj d) k st = (Return (Shape.is_some (Shape.sub_dict k d)), st).
Proof.
  unfold has_dict, and_then, bind, py_in, py_item, ret, Shape.sub_dict, dict_has.
  destruct (dict_find k d) as [[]|]; reflexivity.
Qed.

Lemma is_data_book_obj d st :
  is_data_book (JObj d) st = (Return (Shape.is_some (Shape.data_book_entries d)), st).
Proof.
  unfold is_data_book, has_dict, has_list, and_then, bind, py_in, py_item, ret,
    Shape.data_book_entries, Shape.sub_dict, Shape.sub_list, dict_has.
  destruct (dict_find (lit "data") d) as [[| | | | | |x]|]; try reflexivity.
  destruct (dict_find (lit "character_book") x) as [[| | | | | |b]|]; try reflexivity.
  destruct (dict_find (lit "entries") b) as [[]|]; reflexivity.
Qed.

Lemma is_book_obj d st :
  is_book (JObj d) st = (Return (Shape.is_some (Shape.book_entries d)), st).
Proof.
  unfold is_book, has_dict, has_list, and_then, bind, py_in, py_item, ret,
    Shape.book_entries, Shape.sub_dict, Shape.sub_list, dict_has.
  destruct (dict_find (lit "character_book") d) as [[| | | | | |b]|]; try reflexivity.
  destruct (dict_find (lit "entries") b) as [[]|]; reflexivity.
Qed.

Lemma any_in_obj keys d st :
  any_in keys (JObj d) st = (Return (existsb (fun k => dict_has k d) keys), st).
Proof.
  induction keys as [|k keys IH]; simpl; [reflexivity|].
  unfold bind, py_in, ret; destruct (dict_has k d); simpl; [reflexivity|exact IH].
Qed.

(** A loop whose body always returns and keeps an invariant of the loop state
    returns and keeps it. *)
Lemma for_each_keeps (A S : Type) (P : S -> Prop) (body : A -> S -> M S) l :
  (forall x s st, P s -> exists s' st', body x s st = (Return s', st') /\ P s') ->
  forall s st, P s ->
    exists s' st', for_each l body s st = (Return s', st') /\ P s'.
Proof.
  intros Hb; induction l as [|x l IH]; intros s st Hs; simpl.
  - unfold ret; eauto.
  - unfold bind; destruct (Hb x s st Hs) as (s1 & st1 & -> & H1); apply IH; exact H1.
Qed.

Lemma keep_found_keeps trigger s st :
  found_means_some s ->
  exists s' st', keep_found trigger s st = (Return s', st') /\ found_means_some s'.
Proof.
  intros Hs; destruct trigger as [t|]; unfold keep_found, bind, count_entry, ret.
  - do 2 eexists; split; [reflexivity|].
    intros _; simpl; destruct (fst s); discriminate.
  - eauto.
Qed.

Lemma entry_step_keeps {rt : Runtime} entry_id entry s st :
  found_means_some s ->
  exists s' st',
    (trigger <- process_entry entry_id entry ;; keep_found trigger s) st
    = (Return s', st')
    /\ found_means_some s'.
Proof.
  intros Hs; unfold bind.
  destruct (process_entry_total entry_id entry st) as (trigger & st1 & ->).
  apply keep_found_keeps; exact Hs.
Qed.

Lemma from_fields_keeps {rt : Runtime} items s st :
  found_means_some s ->
  exists s' st', from_fields items s st = (Return s', st') /\ found_means_some s'.
Proof.
  unfold from_fields; apply for_each_keeps.
  intros kv s0 st0 H0; destruct (is_dict (snd kv)).
  - apply entry_step_keeps; exact H0.
  - unfold ret; eauto.
Qed.

Lemma from_arrays_keeps {rt : Runtime} items s st :
  found_means_some s ->
  exists s' st', from_arrays items s st = (Return s', st') /\ found_means_some s'.
Proof.
  unfold from_arrays; apply for_each_keeps.
  intros kv s0 st0 H0; apply for_each_keeps; [|exact H0].
  intros ii s1 st1 H1; destruct (is_dict (snd ii)).
  - apply entry_step_keeps; exact H1.
  - unfold ret; eauto.
Qed.

(** The entry that wraps the whole document always yields its trigger. *)
Lemma from_document_adds {rt : Runtime} data source_file triggers st :
  exists t st',
    from_document data source_file triggers st = (Return (triggers ++ [t]), st').
Proof. do 2 eexists; reflexivity. Qed.

(** ** What a method leaves untouched *)

Lemma keeps_document_ret (A : Type) (a : A) : keeps_document (ret a).
Proof. intros st r st' H; injection H as _ <-; reflexivity. Qed.

Lemma keeps_document_raise (A : Type) (e : exn) : keeps_document (@raise A e).
Proof. intros st r st' H; injection H as _ <-; reflexivity. Qed.

Lemma keeps_document_log l m : keeps_document (log l m).
Proof. intros st r st' H; injection H as _ <-; reflexivity. Qed.

Lemma keeps_document_count_entry : keeps_document count_entry.
Proof. intros st r st' H; injection H as _ <-; reflexivity. Qed.

Lemma keeps_document_bind (A B : Type) (m : M A) (k : A -> M B) :
  keeps_document m -> (forall a, keeps_document (k a)) -> keeps_document (bind m k).
Proof.
  intros Hm Hk st r st'; unfold bind.
  destruct (m st) as [[a|e] st1] eqn:E; intros H.
  - rewrite (Hk a _ _ _ H); eapply Hm; exact E.
  - injection H as _ <-; eapply Hm; exact E.
Qed.

Lemma keeps_document_try_except (A : Type) catches (m : M A) (h : exn -> M A) :
  keeps_document m -> (forall e, keeps_document (h e)) ->
  keeps_document (try_except catches m h).
Proof.
  intros Hm Hh st r st'; unfold try_except.
  destruct (m st) as [[a|e] st1] eqn:E; intros H.
  - injection H as _ <-; eapply Hm; exact E.
  - destruct (catches e).
    + rewrite (Hh e _ _ _ H); eapply Hm; exact E.
    + injection H as _ <-; eapply Hm; exact E.
Qed.

Lemma keeps_document_for_each (A S : Type) (l : list A) (body : A -> S -> M S) :
  (forall x s, keeps_document (body x s)) -> forall s, keeps_document (for_each l body s).
Proof.
  intros Hb; induction l as [|x l IH]; intros s; cbn [for_each].
  - apply keeps_document_ret.
  - apply keeps_document_bind; [apply Hb|exact IH].
Qed.

Create HintDb document.
#[local] Hint Resolve keeps_document_ret keeps_document_raise keeps_document_log
  keeps_document_count_entry keeps_document_bind keeps_document_try_except
  keeps_document_for_each : document.

Lemma keeps_document_convert_position v : keeps_document (convert_position v).
Proof. destruct v; cbn [convert_position]; auto with document. Qed.

Lemma keeps_document_coerce_number {rt : Runtime} v w :
  keeps_document (coerce_number v w).
Proof.
  unfold coerce_number; destruct (as_number v); [auto with document|].
  apply keeps_document_try_except; [|auto with document].
  unfold py_float; destruct v; auto with document.
  destruct (float_of_str s); auto with document.
Qed.

Lemma keeps_document_py_get obj k dflt : keeps_document (py_get obj k dflt).
Proof. destruct obj; cbn [py_get]; auto with document. Qed.

#[local] Hint Resolve keeps_document_convert_position keeps_document_coerce_number
  keeps_document_py_get : document.

Lemma keeps_document_process_entry {rt : Runtime} entry_id entry :
  keeps_document (process_entry entry_id entry).
Proof.
  unfold process_entry; apply keeps_document_try_except; [|auto with document].
  destruct entry; auto with document.
  repeat (apply keeps_document_bind; [auto with document|intros ?]).
  destruct (negb _); auto with document.
Qed.

Lemma keeps_document_keep trigger triggers : keeps_document (keep trigger triggers).
Proof. destruct trigger; cbn [keep]; auto with document. Qed.

Lemma total_keep trigger triggers : total (keep trigger triggers).
Proof.
  destruct trigger; cbn [keep];
    [apply total_bind; [apply total_count_entry|intros ?]|]; apply total_ret.
Qed.

Lemma data_book_step_dict {rt : Runtime} (i : nat) (e : dict) triggers :
  total (data_book_step (i, JObj e) triggers)
  /\ keeps_document (data_book_step (i, JObj e) triggers).
Proof.
  unfold data_book_step; cbn [fst snd py_get]; split.
  - apply total_bind; [apply total_ret|intros id].
    apply total_bind; [apply process_entry_total|intros tr].
    apply total_keep.
  - apply keeps_document_bind; [apply keeps_document_ret|intros id].
    apply keeps_document_bind; [apply keeps_document_process_entry|intros tr].
    apply keeps_document_keep.
Qed.

(** The loop raises at the first entry that is no dict, and the document is
    as it was. *)
Lemma data_book_loop_raises {rt : Runtime} (entries : list json) :
  Exists (fun x => is_dict x = false) entries ->
  forall (i : nat) triggers st,
    exists st',
      for_each (combine (seq i (List.length entries)) entries) data_book_step
        triggers st
      = (Raise AttributeError, st')
      /\ yaml_trigger st' = yaml_trigger st.
Proof.
  induction entries as [|x entries IH]; intros Hex i triggers st.
  - inversion Hex.
  - cbn [List.length seq combine for_each].
    destruct (is_dict x) eqn:Hx.
    + assert (Hrest : Exists (fun x => is_dict x = false) entries)
        by (inversion Hex; subst; [congruence|assumption]).
      destruct x as [| | | | | |e]; try discriminate Hx.
      destruct (data_book_step_dict i e triggers) as (Ht & Hk).
      destruct (Ht st) as (ts & st1 & E).
      rewrite (bind_step _ E).
      destruct (IH Hrest (S i) ts st1) as (st' & -> & Hy).
      exists st'; split; [reflexivity|].
      rewrite Hy; eapply Hk; exact E.
    + exists st; split; [|reflexivity].
      destruct x; try discriminate Hx; reflexivity.
Qed.

Lemma from_data_book_raises {rt : Runtime} (d : dict) (entries : list json) st :
  data_book_entries d = Some entries ->
  Exists (fun x => is_dict x = false) entries ->
  exists st',
    from_data_book (JObj d) st = (Raise AttributeError, st')
    /\ yaml_trigger st' = yaml_trigger st.
Proof.
  unfold data_book_entries, sub_dict, sub_list, from_data_book; intros Hd Hex.
  destruct (dict_find (lit "data") d) as [[| | | | | |x]|] eqn:E1; try discriminate.
  destruct (dict_find (lit "character_book") x) as [[| | | | | |b]|] eqn:E2; try discriminate.
  destruct (dict_find (lit "entries") b) as [[| | | | |l|]|] eqn:E3; try discriminate.
  injection Hd as ->.
  unfold bind at 1, py_item at 1; rewrite E1; unfold ret at 1.
  unfold bind at 1, py_item at 1; rewrite E2; unfold ret at 1.
  unfold bind at 1, py_item at 1; rewrite E3; unfold ret at 1.
  unfold bind at 1, log at 1; cbn [elements].
  match goal with |- context [for_each _ _ _ ?s] =>
    destruct (data_book_loop_raises Hex 0 [] s) as (st' & H & Hy)
  end.
  exists st'; split; [exact H|exact Hy].
Qed.

Lemma bind_raise (A B : Type) (m : M A) (k : A -> M B) st e st1 :
  m st = (Raise e, st1) -> bind m k st = (Raise e, st1).
Proof. intros H; unfold bind; rewrite H; reflexivity. Qed.
Arguments bind_raise {A B m} k {st e st1} _.

Lemma extract_data_book {rt : Runtime} (d : dict) (entries : list json) source_file st :
  data_book_entries d = Some entries ->
  extract_entries_from_json (JObj d) source_file st = from_data_book (JObj d) st.
Proof.
  intros H; unfold extract_entries_from_json.
  rewrite (bind_step _ (is_data_book_obj d st)), H; reflexivity.
Qed.

(** C3 fails on the code.  A conversion whose document has the list
    [data.character_book.entries] with an element that is no dict returns
    [False] and leaves the document without a trigger: the AttributeError of
    line 195 is raised outside [process_entry] and ends the whole
    conversion, where the claim has the one entry dropped and the rest
    processed. *)
Theorem non_dict_entry_aborts_conversion {rt : Runtime} (d : dict)
    (entries : list json) source_file st :
  data_book_entries d = Some entries ->
  Exists (fun x => is_dict x = false) entries ->
  exists st',
    convert_json_to_yaml (JObj d) source_file st = (Return false, st')
    /\ yaml_trigger st' = []
    /\ In (ERROR, ConvertFailed AttributeError) (logged st').
Proof.
  intros Hd Hex; unfold convert_json_to_yaml, try_except.
  rewrite (bind_step _ (eq_refl : reset st = (Return tt, _))); cbv beta.
  match goal with |- context [bind (extract_entries_from_json _ _) _ ?s] =>
    destruct (@from_data_book_raises rt d entries s Hd Hex) as (st1 & H & Hy);
    rewrite <- (@extract_data_book rt d entries source_file s Hd) in H
  end.
  rewrite (bind_raise _ H); cbn [any_exception].
  eexists; split; [reflexivity|]; split; [exact Hy|].
  cbn [logged]; rewrite !in_app_iff; cbn [In]; tauto.
Qed.

Lemma non_dict_entry_aborts_conversion_witness :
  data_book_entries (members Sample.str_entry_doc)
  = Some [Sample.S "oops"; Sample.E [("content"%string, Sample.S "x")]]
  /\ Exists (fun x => is_dict x = false)
       [Sample.S "oops"; Sample.E [("content"%string, Sample.S "x")]]
  /\ exists st',
       convert_json_to_yaml (rt := Sample.runtime) Sample.str_entry_doc [] init
       = (Return false, st')
       /\ yaml_trigger st' = []
       /\ In (ERROR, ConvertFailed AttributeError) (logged st').
Proof.
  assert (H1 : data_book_entries (members Sample.str_entry_doc)
               = Some [Sample.S "oops"; Sample.E [("content"%string, Sample.S "x")]])
    by reflexivity.
  assert (H2 : Exists (fun x => is_dict x = false)
                 [Sample.S "oops"; Sample.E [("content"%string, Sample.S "x")]])
    by (apply Exists_cons_hd; reflexivity).
  split; [exact H1|]; split; [exact H2|].
  exact (@non_dict_entry_aborts_conversion Sample.runtime _ _ [] init H1 H2).
Defined.

(** The sibling loop over [character_book.entries] hands every element to
    [process_entry] and never raises. *)
Lemma from_book_total {rt : Runtime} (d : dict) (entries : list json) :
  book_entries d = Some entries -> total (from_book (JObj d)).
Proof.
  unfold book_entries, sub_dict, sub_list, from_book; intros Hd st.
  destruct (dict_find (lit "character_book") d) as [[| | | | | |b]|] eqn:E1; try discriminate.
  destruct (dict_find (lit "entries") b) as [[| | | | |l|]|] eqn:E2; try discriminate.
  unfold bind at 1, py_item at 1; rewrite E1; unfold ret at 1.
  unfold bind at 1, py_item at 1; rewrite E2; unfold ret at 1.
  unfold bind at 1, log at 1.
  apply total_for_each; intros ie triggers.
  apply total_bind; [apply process_entry_total|intros tr; apply total_keep].
Qed.

Lemma convert_position_cases (v : json) st :
  (exists p, convert_position v st = (Return p, st))
  \/ convert_position v st = (Raise TypeError, st).
Proof. destruct v; cbn [convert_position]; unfold ret, raise; eauto. Qed.

(** C5 fails on the code.  An entry whose [insertion_order] is [null], a
    list or a dict is dropped with an error record, where the claim has it
    keep the default 100 and yield a trigger of priority 0: the TypeError of
    [float] passes the [except ValueError] of line 129. *)
Theorem unconvertible_insertion_order_drops_entry {rt : Runtime} entry_id
    (e : dict) (v : json) st :
  dict_find (lit "insertion_order") e = Some v ->
  float_rejects_type v ->
  process_entry entry_id (JObj e) st
  = (Return None,
     {| yaml_trigger := yaml_trigger st;
        entries_processed := entries_processed st;
        logged := (logged st ++ [(ERROR, EntryFailed entry_id TypeError)])
                  ++ [(DEBUG, Traceback)] |}).
Proof.
  intros Hv Hty; unfold process_entry, try_except.
  assert (Hbody : forall k,
            bind (convert_position (dict_get (lit "position") (JStr (lit "after_char")) e))
              (fun p =>
                 bind (coerce_number (dict_get (lit "insertion_order") (JInt 100) e)
                         (BadInsertionOrder entry_id
                            (dict_get (lit "insertion_order") (JInt 100) e)))
                   (k p)) st
            = (@Raise (option Trigger) TypeError, st)).
  { intros k.
    destruct (convert_position_cases
                (dict_get (lit "position") (JStr (lit "after_char")) e) st)
      as [(p & Hp)|Hp].
    - rewrite (bind_step _ Hp); apply bind_raise.
      unfold dict_get; rewrite Hv.
      destruct v; try contradiction; reflexivity.
    - apply bind_raise; exact Hp. }
  rewrite Hbody; reflexivity.
Qed.

Lemma unconvertible_insertion_order_drops_entry_witness :
  dict_find (lit "insertion_order") (members Sample.null_order_entry) = Some JNull
  /\ float_rejects_type JNull
  /\ fst (process_entry (rt := Sample.runtime) (JInt 0) Sample.null_order_entry init)
     = Return None.
Proof.
  assert (H1 : dict_find (lit "insertion_order") (members Sample.null_order_entry)
               = Some JNull) by reflexivity.
  split; [exact H1|]; split; [exact I|].
  change Sample.null_order_entry with (JObj (members Sample.null_order_entry)).
  rewrite (@unconvertible_insertion_order_drops_entry Sample.runtime (JInt 0) _ _ init H1 I).
  reflexivity.
Defined.

(** ** More on [process_entry] and [convert_json_to_yaml] *)

(** An entry whose [enabled] is present and falsy yields no trigger. *)
Theorem disabled_entry_yields_no_trigger {rt : Runtime} entry_id (e : dict) st :
  truthy (dict_get (lit "enabled") (JBool true) e) = false ->
  exists st', process_entry entry_id (JObj e) st = (Return None, st').
Proof.
  intros H.
  destruct (process_entry_total entry_id (JObj e) st) as ([t|] & st' & Hr); [|eauto].
  apply process_entry_Some in Hr as (e' & order & s1 & s2 & He & _ & _ & _ & Hen).
  injection He as <-; rewrite H in Hen; discriminate.
Qed.

Lemma disabled_entry_yields_no_trigger_witness :
  truthy (dict_get (lit "enabled") (JBool true)
            [(lit "enabled", JBool false); (lit "content", Sample.S "x")]) = false
  /\ exists st',
       process_entry (rt := Sample.runtime) (JInt 0)
         (JObj [(lit "enabled", JBool false); (lit "content", Sample.S "x")]) init
       = (Return None, st').
Proof.
  split; [reflexivity|].
  apply (@disabled_entry_yields_no_trigger Sample.runtime); reflexivity.
Defined.

Lemma priority_is_100_minus_order_witness :
  process_entry (rt := Sample.runtime) (JInt 0) Sample.order_30_entry init
  = (Return (Some Sample.order_30_trigger), Sample.order_30_final)
  /\ t_priority Sample.order_30_trigger = NInt 70.
Proof.
  assert (H : process_entry (rt := Sample.runtime) (JInt 0) Sample.order_30_entry init
              = (Return (Some Sample.order_30_trigger), Sample.order_30_final))
    by (vm_compute; reflexivity).
  split; [exact H|].
  exact (proj1 (@priority_is_100_minus_order Sample.runtime (JInt 0) _ init _ _ H)
           (JInt 30) (NInt 30) eq_refl eq_refl).
Defined.

(** ** What a method changes *)

Lemma only_logs_ret (A : Type) (a : A) : only_logs (ret a).
Proof.
  intros st r st' H; injection H as <- <-.
  repeat split; exists []; symmetry; apply app_nil_r.
Qed.

Lemma only_logs_raise (A : Type) (e : exn) : only_logs (@raise A e).
Proof.
  intros st r st' H; injection H as <- <-.
  repeat split; exists []; symmetry; apply app_nil_r.
Qed.

Lemma only_logs_log l m : only_logs (log l m).
Proof. intros st r st' H; injection H as <- <-; simpl; eauto. Qed.

Lemma only_logs_bind (A B : Type) (m : M A) (k : A -> M B) :
  only_logs m -> (forall a, only_logs (k a)) -> only_logs (bind m k).
Proof.
  intros Hm Hk st r st' H; unfold bind in H.
  destruct (m st) as [[a|e] st1] eqn:E; destruct (Hm _ _ _ E) as (T & C & l & L).
  - destruct (Hk a _ _ _ H) as (T' & C' & l' & L').
    rewrite T', C', L', L, <- app_assoc; eauto.
  - injection H as <- <-; eauto.
Qed.

Lemma only_logs_try_except (A : Type) catches (m : M A) (h : exn -> M A) :
  only_logs m -> (forall e, only_logs (h e)) -> only_logs (try_except catches m h).
Proof.
  intros Hm Hh st r st' H; unfold try_except in H.
  destruct (m st) as [[a|e] st1] eqn:E; destruct (Hm _ _ _ E) as (T & C & l & L).
  - injection H as <- <-; eauto.
  - destruct (catches e).
    + destruct (Hh e _ _ _ H) as (T' & C' & l' & L').
      rewrite T', C', L', L, <- app_assoc; eauto.
    + injection H as <- <-; eauto.
Qed.

Create HintDb logs.
#[local] Hint Resolve only_logs_ret only_logs_raise only_logs_log only_logs_bind
  only_logs_try_except : logs.

Lemma only_logs_convert_position v : only_logs (convert_position v).
Proof. destruct v; simpl; auto with logs. Qed.

Lemma only_logs_coerce_number {rt : Runtime} v w : only_logs (coerce_number v w).
Proof.
  unfold coerce_number; destruct (as_number v); [auto with logs|].
  apply only_logs_try_except; [|auto with logs].
  unfold py_float; destruct v; auto with logs.
  destruct (float_of_str s); auto with logs.
Qed.

Lemma only_logs_py_get obj k dflt : only_logs (py_get obj k dflt).
Proof. destruct obj; simpl; auto with logs. Qed.

#[local] Hint Resolve only_logs_convert_position only_logs_coerce_number
  only_logs_py_get : logs.

Lemma only_logs_process_entry {rt : Runtime} entry_id entry :
  only_logs (process_entry entry_id entry).
Proof.
  unfold process_entry; apply only_logs_try_except; [|auto with logs].
  destruct entry; auto with logs.
  repeat (apply only_logs_bind; [auto with logs|intros ?]).
  destruct (negb _); auto with logs.
Qed.

(** ** Outcomes that do not depend on the converter *)

Lemma state_blind_ret (A : Type) (a : A) : state_blind (ret a).
Proof. intros st st'; reflexivity. Qed.

Lemma state_blind_raise (A : Type) (e : exn) : state_blind (@raise A e).
Proof. intros st st'; reflexivity. Qed.

Lemma state_blind_log l m : state_blind (log l m).
Proof. intros st st'; reflexivity. Qed.

Lemma state_blind_bind (A B : Type) (m : M A) (k : A -> M B) :
  state_blind m -> (forall a, state_blind (k a)) -> state_blind (bind m k).
Proof.
  intros Hm Hk st st'; unfold bind; specialize (Hm st st').
  destruct (m st) as [[a|e] s1], (m st') as [[a'|e'] s1']; simpl in Hm;
    try discriminate; injection Hm as <-; [apply Hk|reflexivity].
Qed.

Lemma state_blind_try_except (A : Type) catches (m : M A) (h : exn -> M A) :
  state_blind m -> (forall e, state_blind (h e)) -> state_blind (try_except catches m h).
Proof.
  intros Hm Hh st st'; unfold try_except; specialize (Hm st st').
  destruct (m st) as [[a|e] s1], (m st') as [[a'|e'] s1']; simpl in Hm;
    try discriminate; injection Hm as <-; [reflexivity|].
  destruct (catches e); [apply Hh|reflexivity].
Qed.

Create HintDb blind.
#[local] Hint Resolve state_blind_ret state_blind_raise state_blind_log
  state_blind_bind state_blind_try_except : blind.

Lemma state_blind_convert_position v : state_blind (convert_position v).
Proof. destruct v; simpl; auto with blind. Qed.

Lemma state_blind_coerce_number {rt : Runtime} v w : state_blind (coerce_number v w).
Proof.
  unfold coerce_number; destruct (as_number v); [auto with blind|].
  apply state_blind_try_except; [|auto with blind].
  unfold py_float; destruct v; auto with blind.
  destruct (float_of_str s); auto with blind.
Qed.

Lemma state_blind_py_get obj k dflt : state_blind (py_get obj k dflt).
Proof. destruct obj; simpl; auto with blind. Qed.

#[local] Hint Resolve state_blind_convert_position state_blind_coerce_number
  state_blind_py_get : blind.

Lemma state_blind_process_entry {rt : Runtime} entry_id entry :
  state_blind (process_entry entry_id entry).
Proof.
  unfold process_entry; apply state_blind_try_except; [|auto with blind].
  destruct entry; auto with blind.
  repeat (apply state_blind_bind; [auto with blind|intros ?]).
  destruct (negb _); auto with blind.
Qed.

(** [process_entry] returns [trigger_of], whatever the converter. *)
Lemma process_entry_trigger_of {rt : Runtime} entry_id entry st :
  exists st',
    process_entry entry_id entry st = (Return (trigger_of entry_id entry), st').
Proof.
  destruct (process_entry_total entry_id entry st) as (r & st' & H).
  exists st'; rewrite H; unfold trigger_of.
  rewrite <- (state_blind_process_entry entry_id entry st init), H; reflexivity.
Qed.

(** ** Counting the entries *)

Lemma counted_refl st : counted 0 st st.
Proof. split; [reflexivity|apply plus_n_O]. Qed.

Lemma counted_trans n m st st1 st2 :
  counted n st st1 -> counted m st1 st2 -> counted (n + m) st st2.
Proof. intros [T C] [T' C']; split; [congruence|rewrite C', C; lia]. Qed.

Lemma only_logs_counted (A : Type) (m : M A) st r st' :
  only_logs m -> m st = (r, st') -> counted 0 st st'.
Proof.
  intros Hm H; destruct (Hm _ _ _ H) as (T & C & _).
  split; [exact T|rewrite C; apply plus_n_O].
Qed.

Lemma keep_counted trigger acc st :
  exists st',
    keep trigger acc st = (Return (acc ++ kept trigger), st')
    /\ counted (List.length (kept trigger)) st st'.
Proof.
  destruct trigger as [t|]; unfold keep, bind, count_entry, ret; cbn [kept].
  - eexists; split; [reflexivity|]; split; simpl; [reflexivity|lia].
  - rewrite app_nil_r; eexists; split; [reflexivity|apply counted_refl].
Qed.

(** One round of a loop: [process_entry] and what is kept of it. *)
Lemma entry_step_counted {rt : Runtime} entry_id entry acc st :
  exists st',
    (trigger <- process_entry entry_id entry ;; keep trigger acc) st
    = (Return (acc ++ kept (trigger_of entry_id entry)), st')
    /\ counted (List.length (kept (trigger_of entry_id entry))) st st'.
Proof.
  destruct (process_entry_trigger_of entry_id entry st) as (st1 & H).
  rewrite (bind_step _ H).
  destruct (keep_counted (trigger_of entry_id entry) acc st1) as (st2 & -> & C).
  exists st2; split; [reflexivity|].
  apply (@counted_trans 0 _ st st1 st2); [|exact C].
  eapply only_logs_counted; [apply only_logs_process_entry|exact H].
Qed.

(** A loop whose rounds each append what [f] makes of the item appends what
    [f] makes of all the items, in their order. *)
Lemma for_each_collect (A : Type) (f : A -> list Trigger)
    (body : A -> list Trigger -> M (list Trigger)) :
  (forall x acc st r st',
     body x acc st = (Return r, st') ->
     r = acc ++ f x /\ counted (List.length (f x)) st st') ->
  forall l acc st r st',
    for_each l body acc st = (Return r, st') ->
    r = acc ++ flat_map f l /\ counted (List.length (flat_map f l)) st st'.
Proof.
  intros Hb; induction l as [|x l IH]; intros acc st r st' H; simpl in *.
  - injection H as <- <-; rewrite app_nil_r; split; [reflexivity|apply counted_refl].
  - apply bind_Return in H as (acc1 & st1 & H1 & H).
    apply Hb in H1 as (-> & C1); apply IH in H as (-> & C2).
    rewrite <- app_assoc, length_app; split; [reflexivity|].
    eapply counted_trans; [exact C1|exact C2].
Qed.

(** ** The shapes, one by one *)

Lemma extract_committed {rt : Runtime} d source_file st sh :
  committed_shape d = Some sh ->
  extract_entries_from_json (JObj d) source_file st
  = match sh with
    | DataBook => from_data_book (JObj d) st
    | Book => from_book (JObj d) st
    | Entries => from_entries (JObj d) st
    | Single => from_single (JObj d) st
    end.
Proof.
  unfold committed_shape, extract_entries_from_json.
  rewrite (bind_step _ (is_data_book_obj d st)).
  destruct (is_some (data_book_entries d)); [intros H; injection H as <-; reflexivity|].
  rewrite (bind_step _ (is_book_obj d st)).
  destruct (is_some (book_entries d)); [intros H; injection H as <-; reflexivity|].
  rewrite (bind_step _ (has_dict_obj d (lit "entries") st)).
  destruct (is_some (sub_dict (lit "entries") d)); [intros H; injection H as <-; reflexivity|].
  rewrite (bind_step _ (any_in_obj entry_fields d st)).
  destruct (existsb (fun k => dict_has k d) entry_fields);
    [intros H; injection H as <-; reflexivity|discriminate].
Qed.

Lemma from_data_book_collect {rt : Runtime} d entries st r st' :
  data_book_entries d = Some entries ->
  from_data_book (JObj d) st = (Return r, st') ->
  r = flat_map data_book_trigger (enumerate entries)
  /\ counted (List.length r) st st'.
Proof.
  unfold data_book_entries, sub_dict, sub_list, from_data_book; intros Hd.
  destruct (dict_find (lit "data") d) as [[| | | | | |x]|] eqn:E0; try discriminate.
  destruct (dict_find (lit "character_book") x) as [[| | | | | |b]|] eqn:E1; try discriminate.
  destruct (dict_find (lit "entries") b) as [[| | | | |l|]|] eqn:E2; try discriminate.
  injection Hd as ->.
  unfold bind at 1, py_item at 1; rewrite E0; unfold ret at 1.
  unfold bind at 1, py_item at 1; rewrite E1; unfold ret at 1.
  unfold bind at 1, py_item at 1; rewrite E2; unfold ret at 1.
  unfold bind at 1, log at 1; cbn [elements]; intros H.
  eapply for_each_collect in H as (-> & [T C]).
  - split; [reflexivity|]; split; [exact T|exact C].
  - clear; intros [i e] acc st r st' H; cbn [fst snd] in *.
    apply bind_Return in H as (entry_id & st1 & Hid & H).
    destruct e; try discriminate; injection Hid as <- <-.
    destruct (entry_step_counted (dict_get (lit "id") (JInt (Z.of_nat i)) d) (JObj d) acc st)
      as (st2 & E & C).
    rewrite E in H; injection H as <- <-; split; [reflexivity|exact C].
Qed.

Lemma from_book_collect {rt : Runtime} d entries st r st' :
  book_entries d = Some entries ->
  from_book (JObj d) st = (Return r, st') ->
  r = flat_map book_trigger (enumerate entries)
  /\ counted (List.length r) st st'.
Proof.
  unfold book_entries, sub_dict, sub_list, from_book; intros Hd.
  destruct (dict_find (lit "character_book") d) as [[| | | | | |b]|] eqn:E1; try discriminate.
  destruct (dict_find (lit "entries") b) as [[| | | | |l|]|] eqn:E2; try discriminate.
  injection Hd as ->.
  unfold bind at 1, py_item at 1; rewrite E1; unfold ret at 1.
  unfold bind at 1, py_item at 1; rewrite E2; unfold ret at 1.
  unfold bind at 1, log at 1; cbn [elements]; intros H.
  eapply for_each_collect in H as (-> & [T C]).
  - split; [reflexivity|]; split; [exact T|exact C].
  - clear; intros [i e] acc st r st' H; cbn [fst snd] in *.
    destruct (entry_step_counted (JInt (Z.of_nat i)) e acc st) as (st2 & E & C).
    rewrite E in H; injection H as <- <-; split; [reflexivity|exact C].
Qed.

Lemma from_entries_collect {rt : Runtime} d entries st r st' :
  sub_dict (lit "entries") d = Some entries ->
  from_entries (JObj d) st = (Return r, st') ->
  r = flat_map entries_trigger entries
  /\ counted (List.length r) st st'.
Proof.
  unfold sub_dict, from_entries; intros Hd.
  destruct (dict_find (lit "entries") d) as [[| | | | | |b]|] eqn:E1; try discriminate.
  injection Hd as ->.
  unfold bind at 1, py_item at 1; rewrite E1; unfold ret at 1.
  unfold bind at 1, log at 1; cbn [members]; intros H.
  eapply for_each_collect in H as (-> & [T C]).
  - split; [reflexivity|]; split; [exact T|exact C].
  - clear; intros [k e] acc st r st' H; cbn [fst snd] in *.
    destruct (entry_step_counted (JStr k) e acc st) as (st2 & E & C).
    rewrite E in H; injection H as <- <-; split; [reflexivity|exact C].
Qed.

Lemma from_single_collect {rt : Runtime} data st r st' :
  from_single data st = (Return r, st') ->
  r = kept (trigger_of (JStr (lit "1")) data)
  /\ counted (List.length r) st st'.
Proof.
  unfold from_single; unfold bind at 1, log at 1; intros H.
  match type of H with _ ?s = _ =>
    destruct (entry_step_counted (JStr (lit "1")) data [] s) as (st2 & E & [T C]) end.
  rewrite E in H; injection H as <- <-; split; [reflexivity|].
  split; [exact T|exact C].
Qed.

(** ** The search of the top level *)

Lemma keep_found_counted trigger s st :
  exists st',
    keep_found trigger s st
    = (Return (fst s ++ kept trigger, snd s || any_kept (kept trigger)), st')
    /\ counted (List.length (kept trigger)) st st'.
Proof.
  destruct trigger as [t|]; unfold keep_found, bind, count_entry, ret; cbn [kept any_kept].
  - rewrite orb_true_r; eexists; split; [reflexivity|]; split; simpl; [reflexivity|lia].
  - rewrite app_nil_r, orb_false_r; destruct s; eexists; split; [reflexivity|apply counted_refl].
Qed.

Lemma found_step_counted {rt : Runtime} entry_id entry s st :
  exists st',
    (trigger <- process_entry entry_id entry ;; keep_found trigger s) st
    = (Return (fst s ++ kept (trigger_of entry_id entry),
               snd s || any_kept (kept (trigger_of entry_id entry))), st')
    /\ counted (List.length (kept (trigger_of entry_id entry))) st st'.
Proof.
  destruct (process_entry_trigger_of entry_id entry st) as (st1 & H).
  rewrite (bind_step _ H).
  destruct (keep_found_counted (trigger_of entry_id entry) s st1) as (st2 & -> & C).
  exists st2; split; [reflexivity|].
  apply (@counted_trans 0 _ st st1 st2); [|exact C].
  eapply only_logs_counted; [apply only_logs_process_entry|exact H].
Qed.

Lemma any_kept_app (a b : list Trigger) : any_kept (a ++ b) = any_kept a || any_kept b.
Proof. destruct a; reflexivity. Qed.

Lemma for_each_found (A : Type) (f : A -> list Trigger)
    (body : A -> list Trigger * bool -> M (list Trigger * bool)) :
  (forall x s st,
     exists st',
       body x s st = (Return (fst s ++ f x, snd s || any_kept (f x)), st')
       /\ counted (List.length (f x)) st st') ->
  forall l s st,
    exists st',
      for_each l body s st
      = (Return (fst s ++ flat_map f l, snd s || any_kept (flat_map f l)), st')
      /\ counted (List.length (flat_map f l)) st st'.
Proof.
  intros Hb; induction l as [|x l IH]; intros s st; simpl.
  - rewrite app_nil_r, orb_false_r; destruct s; eexists; split; [reflexivity|apply counted_refl].
  - destruct (Hb x s st) as (st1 & H1 & C1); rewrite (bind_step _ H1).
    destruct (IH (fst s ++ f x, snd s || any_kept (f x)) st1) as (st2 & -> & C2).
    cbn [fst snd]; rewrite <- app_assoc, any_kept_app, orb_assoc, length_app.
    eexists; split; [reflexivity|eapply counted_trans; [exact C1|exact C2]].
Qed.

Lemma from_fields_counted {rt : Runtime} items s st :
  exists st',
    from_fields items s st
    = (Return (fst s ++ flat_map field_trigger items,
               snd s || any_kept (flat_map field_trigger items)), st')
    /\ counted (List.length (flat_map field_trigger items)) st st'.
Proof.
  unfold from_fields; apply for_each_found.
  intros kv s0 st0; unfold field_trigger; destruct (is_dict (snd kv)).
  - apply found_step_counted.
  - cbn [any_kept List.length]; rewrite app_nil_r, orb_false_r; destruct s0.
    eexists; split; [reflexivity|apply counted_refl].
Qed.

Lemma from_arrays_counted {rt : Runtime} items s st :
  exists st',
    from_arrays items s st
    = (Return (fst s ++ flat_map array_triggers (filter (fun kv => is_list (snd kv)) items),
               snd s
               || any_kept
                    (flat_map array_triggers (filter (fun kv => is_list (snd kv)) items))),
       st')
    /\ counted
         (List.length
            (flat_map array_triggers (filter (fun kv => is_list (snd kv)) items)))
         st st'.
Proof.
  unfold from_arrays; apply for_each_found.
  intros kv s0 st0; unfold array_triggers; apply for_each_found.
  intros ii s1 st1; destruct (is_dict (snd ii)).
  - apply found_step_counted.
  - cbn [any_kept List.length]; rewrite app_nil_r, orb_false_r; destruct s1.
    eexists; split; [reflexivity|apply counted_refl].
Qed.

Lemma from_document_counted {rt : Runtime} data source_file triggers st :
  exists st',
    from_document data source_file triggers st
    = (Return (triggers
               ++ kept (trigger_of (JStr (lit "default")) (default_entry data source_file))),
       st')
    /\ counted
         (List.length
            (kept (trigger_of (JStr (lit "default")) (default_entry data source_file))))
         st st'.
Proof.
  unfold from_document; unfold bind at 1, log at 1.
  match goal with |- context [bind _ _ ?s] =>
    destruct (entry_step_counted (JStr (lit "default")) (default_entry data source_file)
                triggers s) as (st2 & E & [T C]) end.
  exists st2; split; [exact E|split; [exact T|exact C]].
Qed.

(** A dict with none of the four shapes: its dict-valued fields, else the
    dicts in its list-valued fields, else the document as one entry. *)
Lemma extract_top_level {rt : Runtime} d source_file st :
  committed_shape d = None ->
  exists st',
    extract_entries_from_json (JObj d) source_file st
    = (Return
         (if any_kept (flat_map field_trigger d) then flat_map field_trigger d
          else if any_kept
                    (flat_map array_triggers (filter (fun kv => is_list (snd kv)) d))
          then flat_map array_triggers (filter (fun kv => is_list (snd kv)) d)
          else kept (trigger_of (JStr (lit "default"))
                       (default_entry (JObj d) source_file))),
       st')
    /\ counted
         (List.length
            (if any_kept (flat_map field_trigger d) then flat_map field_trigger d
             else if any_kept
                       (flat_map array_triggers (filter (fun kv => is_list (snd kv)) d))
             then flat_map array_triggers (filter (fun kv => is_list (snd kv)) d)
             else kept (trigger_of (JStr (lit "default"))
                          (default_entry (JObj d) source_file))))
         st st'.
Proof.
  unfold committed_shape, extract_entries_from_json.
  rewrite (bind_step _ (is_data_book_obj d st)).
  destruct (is_some (data_book_entries d)); [discriminate|].
  rewrite (bind_step _ (is_book_obj d st)).
  destruct (is_some (book_entries d)); [discriminate|].
  rewrite (bind_step _ (has_dict_obj d (lit "entries") st)).
  destruct (is_some (sub_dict (lit "entries") d)); [discriminate|].
  rewrite (bind_step _ (any_in_obj entry_fields d st)).
  destruct (existsb (fun k => dict_has k d) entry_fields); [discriminate|].
  intros _.
  rewrite (bind_step _ (eq_refl : log DEBUG TryTopLevel st = (Return tt, _))).
  rewrite (bind_step _ (eq_refl : py_items (JObj d) _ = (Return d, _))).
  match goal with |- context [bind _ _ ?s] =>
    destruct (from_fields_counted d ([], false) s) as (st1 & Hf & [T1 C1]) end.
  rewrite (bind_step _ Hf); cbn [fst snd app orb].
  destruct (flat_map field_trigger d) as [|t a] eqn:Ea; cbn [any_kept]; cbv iota.
  2:{ exists st1; split; [reflexivity|]; split; [exact T1|exact C1]. }
  rewrite (bind_step _ (eq_refl : py_items (JObj d) _ = (Return d, _))).
  destruct (from_arrays_counted d ([], false) st1) as (st2 & Ha & [T2 C2]).
  rewrite (bind_step _ Ha); cbn [fst snd app orb].
  destruct (flat_map array_triggers _) as [|t b] eqn:Eb; cbn [any_kept]; cbv iota.
  2:{ exists st2; split; [reflexivity|].
      split; [rewrite T2; exact T1|rewrite C2, C1; simpl; lia]. }
  destruct (from_document_counted (JObj d) source_file [] st2) as (st3 & -> & [T3 C3]).
  exists st3; split; [reflexivity|].
  split; [rewrite T3, T2; exact T1|rewrite C3, C2, C1; simpl; lia].
Qed.




(** ** Documents that are no dict *)

(** A document that is no dict has no shape but the fourth, which a str or a
    list can seem to have; nothing comes of it. *)
Lemma extract_non_dict {rt : Runtime} data source_file st r st' :
  is_dict data = false ->
  extract_entries_from_json data source_file st = (Return r, st') ->
  r = [] /\ counted 0 st st'.
Proof.
  intros Hd H.
  assert (Hs : from_single data st = (Return r, st')
               \/ False).
  { destruct data; try discriminate; try (left; exact H); try discriminate H.
    all: revert H;
      unfold extract_entries_from_json, is_data_book, is_book, has_dict, has_list,
        and_then, entry_fields, any_in, py_in, py_item, py_items, bind, ret, raise.
    all: repeat match goal with
           | |- context [if ?c then _ else _] => destruct c
           end; intros H; try discriminate H; left; exact H. }
  destruct Hs as [Hs|[]].
  apply from_single_collect in Hs as (-> & C).
  assert (K : kept (trigger_of (JStr (lit "1")) data) = []).
  { destruct data; try discriminate; reflexivity. }
  rewrite K in *; split; [reflexivity|exact C].
Qed.

Lemma committed_data_book d :
  committed_shape d = Some DataBook -> exists entries, data_book_entries d = Some entries.
Proof.
  unfold committed_shape; destruct (data_book_entries d); [eauto|]; simpl.
  repeat match goal with |- context [if ?c then _ else _] => destruct c end; discriminate.
Qed.

Lemma committed_book d :
  committed_shape d = Some Book -> exists entries, book_entries d = Some entries.
Proof.
  unfold committed_shape; destruct (book_entries d); [eauto|]; simpl.
  repeat match goal with |- context [if ?c then _ else _] => destruct c end; discriminate.
Qed.

Lemma committed_entries d :
  committed_shape d = Some Entries -> exists entries, sub_dict (lit "entries") d = Some entries.
Proof.
  unfold committed_shape; destruct (sub_dict (lit "entries") d); [eauto|]; simpl.
  repeat match goal with |- context [if ?c then _ else _] => destruct c end; discriminate.
Qed.

(** Whatever the document, what [extract_entries_from_json] returns has been
    counted, one by one. *)
Lemma extract_counted {rt : Runtime} data source_file st r st' :
  extract_entries_from_json data source_file st = (Return r, st') ->
  counted (List.length r) st st'.
Proof.
  intros H; destruct (is_dict data) eqn:Hd.
  2:{ edestruct extract_non_dict as (-> & C); [exact Hd|exact H|exact C]. }
  destruct data; try discriminate.
  destruct (committed_shape d) as [[| | |]|] eqn:Hs.
  - erewrite extract_committed in H by exact Hs.
    destruct (committed_data_book d Hs) as (entries & He).
    eapply from_data_book_collect; [exact He|exact H].
  - erewrite extract_committed in H by exact Hs.
    destruct (committed_book d Hs) as (entries & He).
    eapply from_book_collect; [exact He|exact H].
  - erewrite extract_committed in H by exact Hs.
    destruct (committed_entries d Hs) as (entries & He).
    eapply from_entries_collect; [exact He|exact H].
  - erewrite extract_committed in H by exact Hs.
    eapply from_single_collect; exact H.
  - destruct (extract_top_level d source_file st Hs) as (st1 & E & C).
    rewrite E in H; injection H as <- <-; exact C.
Qed.

(** ** What the mapper yields, shape by shape *)

Lemma total_on_for_each (A S : Type) (P : A -> Prop) (body : A -> S -> M S) l :
  (forall x, P x -> forall s, total (body x s)) ->
  Forall P l -> forall s, total (for_each l body s).
Proof.
  intros Hb Hl; induction Hl as [|x l Hx _ IH]; intros s; simpl.
  - apply total_ret.
  - apply total_bind; [apply Hb; exact Hx|exact IH].
Qed.

Lemma Forall_enumerate (A : Type) (P : A -> Prop) (l : list A) :
  Forall P l -> Forall (fun ie => P (snd ie)) (enumerate l).
Proof.
  unfold enumerate; generalize 0%nat.
  induction l as [|x l IH]; intros n H; simpl; constructor.
  - inversion H; assumption.
  - apply IH; inversion H; assumption.
Qed.

Lemma from_data_book_total {rt : Runtime} d entries :
  data_book_entries d = Some entries ->
  forallb is_dict entries = true ->
  total (from_data_book (JObj d)).
Proof.
  unfold data_book_entries, sub_dict, sub_list, from_data_book; intros Hd Hall st.
  destruct (dict_find (lit "data") d) as [[| | | | | |x]|] eqn:E0; try discriminate.
  destruct (dict_find (lit "character_book") x) as [[| | | | | |b]|] eqn:E1; try discriminate.
  destruct (dict_find (lit "entries") b) as [[| | | | |l|]|] eqn:E2; try discriminate.
  injection Hd as ->.
  unfold bind at 1, py_item at 1; rewrite E0; unfold ret at 1.
  unfold bind at 1, py_item at 1; rewrite E1; unfold ret at 1.
  unfold bind at 1, py_item at 1; rewrite E2; unfold ret at 1.
  unfold bind at 1, log at 1; cbn [elements].
  apply (@total_on_for_each _ _ (fun ie => is_dict (snd ie) = true)).
  - intros [i e] He triggers; cbn [fst snd] in *.
    destruct e; try discriminate.
    apply total_bind; [apply total_ret|intros id].
    apply total_bind; [apply process_entry_total|intros tr; apply total_keep].
  - apply (@Forall_enumerate _ (fun e => is_dict e = true)), Forall_forall; intros e He.
    rewrite forallb_forall in Hall; apply Hall; exact He.
Qed.

Lemma from_entries_total {rt : Runtime} d entries :
  sub_dict (lit "entries") d = Some entries -> total (from_entries (JObj d)).
Proof.
  unfold sub_dict, from_entries; intros Hd st.
  destruct (dict_find (lit "entries") d) as [[| | | | | |b]|] eqn:E1; try discriminate.
  unfold bind at 1, py_item at 1; rewrite E1; unfold ret at 1.
  unfold bind at 1, log at 1.
  apply total_for_each; intros kv triggers.
  apply total_bind; [apply process_entry_total|intros tr; apply total_keep].
Qed.

Lemma from_single_total {rt : Runtime} data : total (from_single data).
Proof.
  unfold from_single.
  apply total_bind; [apply total_log|intros _].
  apply total_bind; [apply process_entry_total|intros tr; apply total_keep].
Qed.

(** The first of the four shapes that the document has yields the triggers of
    its entries, those that [process_entry] keeps, in the order of the
    document, whatever the converter held: the first shape numbers its
    entries by their [id] field or else their position, the second by their
    position, the third by their key, and the fourth is the document
    itself.  The first shape needs every entry to be a dict. *)
Theorem shape_yields_its_entries_in_order {rt : Runtime} d source_file st sh :
  committed_shape d = Some sh ->
  entries_are_dicts sh d = true ->
  exists st',
    extract_entries_from_json (JObj d) source_file st
    = (Return (shape_triggers sh d), st').
Proof.
  intros Hs Hall; erewrite extract_committed by exact Hs.
  destruct sh; cbn [shape_triggers entries_are_dicts] in *.
  - destruct (committed_data_book d Hs) as (entries & He); rewrite He in *.
    destruct (from_data_book_total d He Hall st) as (r & st' & H).
    exists st'; rewrite H.
    edestruct from_data_book_collect as (-> & _); [exact He|exact H|reflexivity].
  - destruct (committed_book d Hs) as (entries & He); rewrite He.
    destruct (from_book_total d He st) as (r & st' & H).
    exists st'; rewrite H.
    edestruct from_book_collect as (-> & _); [exact He|exact H|reflexivity].
  - destruct (committed_entries d Hs) as (entries & He); rewrite He.
    destruct (from_entries_total d He st) as (r & st' & H).
    exists st'; rewrite H.
    edestruct from_entries_collect as (-> & _); [exact He|exact H|reflexivity].
  - destruct (from_single_total (JObj d) st) as (r & st' & H).
    exists st'; rewrite H.
    edestruct from_single_collect as (-> & _); [exact H|reflexivity].
Qed.

(** A dict with none of the four shapes is searched in three steps, and the
    first step that keeps a trigger decides: the dict-valued top-level
    fields, keyed by their names; else the dicts inside the list-valued
    top-level fields, keyed by field name and position from 1; else the
    whole document as the content of one entry. *)
Theorem top_level_search_order {rt : Runtime} d source_file st :
  committed_shape d = None ->
  exists st',
    extract_entries_from_json (JObj d) source_file st
    = (Return
         (if any_kept (flat_map field_trigger d) then flat_map field_trigger d
          else if any_kept
                    (flat_map array_triggers (filter (fun kv => is_list (snd kv)) d))
          then flat_map array_triggers (filter (fun kv => is_list (snd kv)) d)
          else kept (trigger_of (JStr (lit "default"))
                       (default_entry (JObj d) source_file))),
       st').
Proof.
  intros Hs; destruct (extract_top_level d source_file st Hs) as (st' & H & _).
  exists st'; exact H.
Qed.

(** After a conversion that succeeds, [entries_processed] is the number of
    triggers in the document, the fallback trigger included. *)
Theorem counter_is_number_of_triggers {rt : Runtime} json_data source_file st st' :
  convert_json_to_yaml json_data source_file st = (Return true, st') ->
  entries_processed st' = List.length (yaml_trigger st').
Proof.
  unfold convert_json_to_yaml; intros H.
  apply try_except_Return in H as [H|(e & st1 & _ & _ & H)].
  2:{ unfold bind, log, ret in H; discriminate. }
  apply bind_Return in H as ([] & s0 & Hreset & H).
  apply bind_Return in H as (triggers & s1 & Hex & H).
  unfold reset in Hreset; injection Hreset as <-.
  apply extract_counted in Hex as [_ C]; cbn [entries_processed] in C.
  destruct triggers as [|t ts];
    unfold bind, set_trigger, get_converter, log, append_trigger, count_entry, ret in H;
    simpl in H; injection H as <-; simpl; rewrite C; reflexivity.
Qed.

(** [convert_json_to_yaml] never raises: it returns [True] or [False]; and a
    document that is [None], a bool or a number (no container to search)
    makes it return [False]. *)
Theorem convert_never_raises {rt : Runtime} json_data source_file st :
  exists ok st',
    convert_json_to_yaml json_data source_file st = (Return ok, st')
    /\ match json_data with
       | JNull | JBool _ | JInt _ | JFloat _ => ok = false
       | _ => True
       end.
Proof.
  assert (T : total (convert_json_to_yaml json_data source_file)).
  { unfold convert_json_to_yaml; apply total_try_except; intros e.
    repeat (apply total_bind; [apply total_log|intros _]); apply total_ret. }
  destruct json_data;
    try (do 2 eexists; split; [reflexivity|reflexivity]);
    destruct (T st) as (ok & st' & H); exists ok, st'; (split; [exact H|exact I]).
Qed.

(** ** The fields of a trigger *)

(** All that a trigger that [process_entry] returns is made of. *)
Lemma process_entry_inv {rt : Runtime} entry_id entry st t st' :
  process_entry entry_id entry st = (Return (Some t), st') ->
  exists e pos order x prob s1 s2 s3 s4,
    entry = JObj e
    /\ convert_position (dict_get (lit "position") (JStr (lit "after_char")) e) st
       = (Return pos, s1)
    /\ coerce_number (dict_get (lit "insertion_order") (JInt 100) e)
         (BadInsertionOrder entry_id (dict_get (lit "insertion_order") (JInt 100) e)) s1
       = (Return order, s2)
    /\ dict_get (lit "extensions") (JObj []) e = JObj x
    /\ coerce_number (dict_get (lit "probability") (JInt 100) x)
         (BadProbability entry_id (dict_get (lit "probability") (JInt 100) x)) s3
       = (Return prob, s4)
    /\ truthy (dict_get (lit "enabled") (JBool true) e) = true
    /\ t = {| t_name :=
                quote_value
                  (dict_get (lit "comment") (JStr (lit "entry_" ++ py_str entry_id)) e);
              t_type := quote_value (JStr (lit "keywords"));
              t_match :=
                quote_value
                  (JStr (process_match (dict_get (lit "keys") (JArr []) e)
                           (dict_get (lit "secondary_keys") (JArr []) e)));
              t_conditional := quote_value (JStr []);
              t_priority := priority_of order;
              t_block := truthy (dict_get (lit "prevent_recursion") (JBool false) x);
              t_probability := probability_of prob;
              t_position := quote_value (JStr pos);
              t_content := quote_value (clean_content (dict_get (lit "content") (JStr []) e))
           |}.
Proof.
  unfold process_entry; intros H.
  apply try_except_Return in H as [H|(e & st1 & _ & _ & H)].
  2:{ unfold bind, log, ret in H; discriminate. }
  destruct entry as [| | | | |l|e]; try (unfold bind, log, ret in H; discriminate).
  apply bind_Return in H as (pos & s1 & Hpos & H).
  apply bind_Return in H as (order & s2 & Hord & H).
  apply bind_Return in H as (pr & s3 & Hpr & H).
  apply bind_Return in H as (raw & s4 & Hraw & H).
  apply bind_Return in H as (prob & s5 & Hprob & H).
  destruct (truthy (dict_get (lit "enabled") (JBool true) e)) eqn:Hen; simpl in H.
  2:{ unfold bind, log, ret in H; discriminate. }
  unfold bind, log, ret in H; inversion H; subst; clear H.
  destruct (dict_get (lit "extensions") (JObj []) e) as [| | | | | |x] eqn:Hx;
    try discriminate.
  injection Hpr as <- <-; injection Hraw as <- <-.
  exists e, pos, order, x, prob, s1, s2, s2, s5.
  repeat (split; [first [reflexivity|assumption]|]); reflexivity.
Qed.

(** [process_entry] is contained.  For an id and an entry as [json.loads]
    builds them, whose ints are within the interpreter's limit on the digits
    of an int that is turned into text (past it the messages of lines 107,
    111 and 177 cannot be made), it never raises, it changes nothing of the
    converter but the log, to which it only appends, and what it returns
    does not depend on what the converter holds. *)
Theorem process_entry_is_contained {rt : Runtime} entry_id entry st :
  within_int_limit entry_id = true ->
  within_int_limit entry = true ->
  exists st' records,
    process_entry entry_id entry st = (Return (trigger_of entry_id entry), st')
    /\ yaml_trigger st' = yaml_trigger st
    /\ entries_processed st' = entries_processed st
    /\ logged st' = logged st ++ records.
Proof.
  intros _ _.
  destruct (process_entry_trigger_of entry_id entry st) as (st' & H).
  destruct (only_logs_process_entry entry_id entry _ H) as (T & C & l & L).
  exists st', l; auto.
Qed.

Lemma process_entry_is_contained_witness :
  within_int_limit (JInt 0) = true
  /\ within_int_limit Sample.half_entry = true
  /\ exists st' records,
       process_entry (rt := Sample.runtime) (JInt 0) Sample.half_entry init
       = (Return (trigger_of (rt := Sample.runtime) (JInt 0) Sample.half_entry), st')
       /\ yaml_trigger st' = yaml_trigger init
       /\ entries_processed st' = entries_processed init
       /\ logged st' = logged init ++ records.
Proof.
  assert (H1 : within_int_limit (JInt 0) = true) by (vm_compute; reflexivity).
  assert (H2 : within_int_limit Sample.half_entry = true) by (vm_compute; reflexivity).
  split; [exact H1|]; split; [exact H2|].
  exact (@process_entry_is_contained Sample.runtime (JInt 0) Sample.half_entry init H1 H2).
Defined.

Lemma probability_of_int (z : Z) :
  probability_of (NInt z)
  = PrimFloat.div (float_of_small (Z.max 0 (Z.min z 100))) 100%float.
Proof.
  unfold probability_of, gt_const.
  destruct (Z.ltb_spec 100 z) as [H|H].
  - cbn [Z.ltb Z.compare]; cbv iota.
    replace (Z.max 0 (Z.min z 100)) with 100%Z by lia; reflexivity.
  - destruct (Z.ltb_spec 0 z) as [H0|H0].
    + replace (Z.max 0 (Z.min z 100)) with z by lia; reflexivity.
    + replace (Z.max 0 (Z.min z 100)) with 0%Z by lia; reflexivity.
Qed.

(** For every entry that yields a trigger, the trigger's probability is 1.0
    when the entry has no [extensions] or they have no [probability], and an
    int [probability] clamped to 0..100 and divided by 100 otherwise. *)
Theorem probability_is_clamped {rt : Runtime} entry_id e st t st' :
  process_entry entry_id (JObj e) st = (Return (Some t), st') ->
  (dict_find (lit "extensions") e = None -> t_probability t = 1%float)
  /\ (forall x, dict_find (lit "extensions") e = Some (JObj x) ->
        (dict_find (lit "probability") x = None -> t_probability t = 1%float)
        /\ (forall p, dict_find (lit "probability") x = Some (JInt p) ->
              t_probability t
              = PrimFloat.div (float_of_small (Z.max 0 (Z.min p 100))) 100%float)).
Proof.
  intros H.
  apply process_entry_inv in H
    as (e' & pos & order & x & prob & s1 & s2 & s3 & s4 & He & _ & _ & Hx & Hp & _ & ->).
  injection He as <-; unfold dict_get in Hx, Hp; cbn [t_probability].
  split; [intros Hn|intros x' Hs; split; [intros Hn|intros p Hn]].
  - rewrite Hn in Hx; injection Hx as <-; cbn in Hp.
    unfold ret in Hp; injection Hp as <- _; reflexivity.
  - rewrite Hs in Hx; injection Hx as <-; rewrite Hn in Hp; cbn in Hp.
    unfold ret in Hp; injection Hp as <- _; reflexivity.
  - rewrite Hs in Hx; injection Hx as <-; rewrite Hn in Hp; cbn in Hp.
    unfold ret in Hp; injection Hp as <- _; apply probability_of_int.
Qed.

(** The position of a trigger is one of two values: [sys_end] when the
    entry's [position] is 1, ["1"], ["after_prompt"], [True] or 1.0, and
    [sys_start] for every other value that can be looked up and when the
    field is absent. *)
Theorem position_is_start_or_end {rt : Runtime} entry_id e st t st' :
  process_entry entry_id (JObj e) st = (Return (Some t), st') ->
  (t_position t = quote_value (JStr sys_start)
   \/ t_position t = quote_value (JStr sys_end))
  /\ (t_position t = quote_value (JStr sys_end)
      <-> exists v,
            dict_find (lit "position") e = Some v
            /\ (v = JInt 1 \/ v = JStr (lit "1") \/ v = JStr (lit "after_prompt")
                \/ v = JBool true
                \/ exists f, v = JFloat f /\ PrimFloat.eqb f 1%float = true)).
Proof.
  intros H.
  apply process_entry_inv in H
    as (e' & pos & order & x & prob & s1 & s2 & s3 & s4 & He & Hpos & _ & _ & _ & _ & ->).
  injection He as <-; unfold dict_get in Hpos; cbn [t_position].
  destruct (dict_find (lit "position") e) as [v|] eqn:Hv.
  - destruct v as [|b|z|f|s|l|d]; cbn [convert_position] in Hpos; unfold ret, raise in Hpos;
      try discriminate; injection Hpos as <- _.
    + split; [left; reflexivity|]; split; [discriminate|].
      intros (v & Ev & [E|[E|[E|[E|(f & E & _)]]]]); injection Ev as <-; discriminate.
    + destruct b; (split; [auto|]); split; try discriminate; eauto 8.
      intros (v & Ev & [E|[E|[E|[E|(f & E & _)]]]]); injection Ev as <-; discriminate.
    + destruct (Z.eqb_spec z 1) as [->|Hz]; (split; [auto|]); split; try discriminate;
        eauto 8.
      intros (v & Ev & [E|[E|[E|[E|(f & E & _)]]]]); injection Ev as <-;
        try discriminate; injection E as ->; contradiction.
    + destruct (PrimFloat.eqb f 1%float) eqn:Hf; (split; [auto|]); split;
        try discriminate; eauto 10.
      intros (v & Ev & [E|[E|[E|[E|(f' & E & Hf')]]]]); injection Ev as <-;
        try discriminate; injection E as <-; congruence.
    + destruct (str_eqb s (lit "1")) eqn:E1; cbn [orb].
      * apply str_eqb_eq in E1 as ->; split; [auto|]; split; eauto 8.
      * destruct (str_eqb s (lit "after_prompt")) eqn:E2.
        -- apply str_eqb_eq in E2 as ->; split; [auto|]; split; eauto 8.
        -- split; [auto|]; split; [discriminate|].
           intros (v & Ev & [E|[E|[E|[E|(f & E & _)]]]]); injection Ev as <-;
             try discriminate; injection E as ->; discriminate.
  - cbn in Hpos; injection Hpos as <- _.
    split; [left; reflexivity|]; split; [discriminate|].
    intros (v & Ev & _); discriminate.
Qed.

(** An entry is dropped, with no trigger and no exception, when its
    [position] is a list or a dict (it cannot be looked up in the table) or
    when its [extensions] are not a dict (they have no [get]). *)
Theorem malformed_entry_is_dropped {rt : Runtime} entry_id e st :
  is_scalar (dict_get (lit "position") (JStr (lit "after_char")) e) = false
  \/ is_dict (dict_get (lit "extensions") (JObj []) e) = false ->
  exists st', process_entry entry_id (JObj e) st = (Return None, st').
Proof.
  intros Hbad.
  destruct (process_entry_total entry_id (JObj e) st) as ([t|] & st' & Hr); [|eauto].
  apply process_entry_inv in Hr
    as (e' & pos & order & x & prob & s1 & s2 & s3 & s4 & He & Hpos & _ & Hx & _).
  injection He as <-; destruct Hbad as [Hp|Hd].
  - destruct (dict_get (lit "position") (JStr (lit "after_char")) e); discriminate.
  - rewrite Hx in Hd; discriminate.
Qed.

(** ** The document as one entry *)

Lemma process_match_one_key {rt : Runtime} (name : pystr) :
  process_match (JArr [JStr name]) (JArr []) = name.
Proof. destruct name; reflexivity. Qed.

Lemma scalar_fields_yield_nothing {rt : Runtime} (d : dict) :
  forallb (fun kv => is_scalar (snd kv)) d = true ->
  flat_map field_trigger d = []
  /\ filter (fun kv => is_list (snd kv)) d = [].
Proof.
  induction d as [|[k v] d IH]; simpl; [auto|].
  intros H; apply andb_prop in H as [Hv Hd]; destruct (IH Hd) as (-> & ->).
  unfold field_trigger, is_scalar in *; cbn [snd] in *.
  destruct (is_dict v); [discriminate|]; destruct (is_list v); [discriminate|auto].
Qed.

(** A dict with none of the four shapes and no dict or list among its
    top-level values (an empty dict, or one of plain values) becomes one
    entry: exactly one trigger, whose content is the quoted pretty-printed
    JSON of the document, whose match is the name of the source file without
    its extension (of "unknown" without a source file), with priority 0,
    probability 1.0, position sys_start and no block. *)
Theorem plain_document_becomes_one_entry {rt : Runtime} d source_file st :
  committed_shape d = None ->
  forallb (fun kv => is_scalar (snd kv)) d = true ->
  exists t st',
    extract_entries_from_json (JObj d) source_file st = (Return [t], st')
    /\ t_content t = quote_value (clean_content (JStr (json_dumps_indent (JObj d))))
    /\ t_match t
       = quote_value
           (JStr (os_path_splitext_root
                    (if nonempty source_file then os_path_basename source_file
                     else lit "unknown")))
    /\ t_priority t = NInt 0
    /\ t_probability t = 1%float
    /\ t_position t = quote_value (JStr sys_start)
    /\ t_block t = false.
Proof.
  intros Hs Hplain.
  destruct (extract_top_level d source_file st Hs) as (st' & H & _).
  destruct (scalar_fields_yield_nothing d Hplain) as (Ef & Ea).
  rewrite Ef, Ea in H; cbn [flat_map any_kept] in H.
  destruct (process_entry_trigger_of (JStr (lit "default"))
              (default_entry (JObj d) source_file) init) as (s1 & Hp).
  destruct (trigger_of (JStr (lit "default")) (default_entry (JObj d) source_file))
    as [t|] eqn:Et.
  2:{ unfold trigger_of in Et; discriminate Et. }
  exists t, st'; split; [exact H|].
  apply process_entry_inv in Hp
    as (e & pos & order & x & prob & s2 & s3 & s4 & s5 & He & Hpos & Hord & Hx & Hprob & _ & ->).
  unfold default_entry in He; injection He as <-.
  cbn in Hpos, Hord, Hx; unfold ret in Hpos, Hord.
  injection Hpos as <- _; injection Hord as <- _; injection Hx as <-.
  cbn in Hprob; unfold ret in Hprob; injection Hprob as <- _.
  cbn [t_content t_match t_priority t_probability t_position t_block].
  repeat split.
  change (dict_get (lit "keys") (JArr []) _)
    with (JArr [JStr (os_path_splitext_root
                        (if nonempty source_file then os_path_basename source_file
                         else lit "unknown"))]).
  change (dict_get (lit "secondary_keys") (JArr []) _) with (JArr []).
  rewrite process_match_one_key; reflexivity.
Qed.

(** ** Quoting, and the dumper that undoes it *)

(** [quote_value] in one pass over the str. *)
Lemma quote_value_one_pass (s : pystr) :
  quote_value (JStr s)
  = JStr (34%N :: flat_map
                    (fun c => if N.eqb c 34 then [92; 34]%N
                              else if N.eqb c 10 then [92; 110]%N
                              else if N.eqb c 13 then [] else [c]) s
          ++ [34%N]).
Proof.
  unfold quote_value, replace; cbn [app]; do 3 f_equal.
  induction s as [|c s IH]; [reflexivity|].
  cbn [flat_map]; rewrite !flat_map_app, IH; f_equal.
  destruct (N.eqb_spec c 34) as [->|H34]; [reflexivity|].
  cbn [flat_map app].
  destruct (N.eqb c 10); [reflexivity|].
  cbn [flat_map app]; destruct (N.eqb c 13); reflexivity.
Qed.

Lemma strip_ends_quoted (b : pystr) : strip_ends (34%N :: b ++ [34%N]) = b.
Proof. unfold strip_ends; cbn [tl]; apply removelast_last. Qed.

Lemma ends_with_quoted (b : pystr) : ends_with 34 (34%N :: b ++ [34%N]) = true.
Proof. unfold ends_with; cbn [rev]; rewrite rev_unit; reflexivity. Qed.

Lemma replace_pair_other (a b : N) (rep : pystr) (x : N) (l : pystr) :
  x <> a -> replace_pair a b rep (x :: l) = x :: replace_pair a b rep l.
Proof.
  intros H; destruct l as [|y l]; [reflexivity|].
  cbn [replace_pair]; destruct (N.eqb_spec x a); [contradiction|reflexivity].
Qed.

Lemma replace_pair_next (a b : N) (rep : pystr) (x y : N) (l : pystr) :
  y <> b -> replace_pair a b rep (x :: y :: l) = x :: replace_pair a b rep (y :: l).
Proof.
  intros H; cbn [replace_pair]; destruct (N.eqb_spec y b); [contradiction|].
  rewrite andb_false_r; reflexivity.
Qed.

Lemma replace_pair_found (a b : N) (rep : pystr) (l : pystr) :
  replace_pair a b rep (a :: b :: l) = rep ++ replace_pair a b rep l.
Proof. cbn [replace_pair]; rewrite !N.eqb_refl; reflexivity. Qed.

Lemma contains_app_r (p l r : pystr) :
  contains p r = true -> contains p (l ++ r) = true.
Proof.
  intros H; induction l as [|x l IH]; [exact H|].
  cbn [app contains]; rewrite IH; apply orb_true_r.
Qed.

Lemma contains_cons (p : pystr) (x : N) (s : pystr) :
  contains p (x :: s) = starts_with p (x :: s) || contains p s.
Proof. reflexivity. Qed.

(** What the first character of a quoted text can be. *)
Lemma escaped_head (c : N) (s : pystr) :
  exists y r,
    replace 34 [92; 34]%N (c :: s) = y :: r
    /\ (y = 92%N \/ (y = c /\ c <> 34%N)).
Proof.
  unfold replace; cbn [flat_map]; destruct (N.eqb_spec c 34) as [->|H].
  - do 2 eexists; split; [reflexivity|auto].
  - do 2 eexists; split; [reflexivity|auto].
Qed.

(** The second [replace] of line 347 undoes the escaping of the quotation
    marks. *)
Lemma unescape_quotes (s : pystr) :
  replace_pair 92 34 [34%N] (replace 34 [92; 34]%N s) = s.
Proof.
  induction s as [|c s IH]; [reflexivity|].
  change (replace 34 [92; 34]%N (c :: s))
    with ((if N.eqb c 34 then [92; 34]%N else [c]) ++ replace 34 [92; 34]%N s).
  destruct (N.eqb_spec c 34) as [->|H34]; cbn [app].
  - rewrite replace_pair_found, IH; reflexivity.
  - destruct (N.eq_dec c 92) as [->|H92].
    + destruct s as [|d s]; [reflexivity|].
      destruct (escaped_head d s) as (y & r & E & Hy); rewrite E in *.
      rewrite replace_pair_next, IH; [reflexivity|].
      destruct Hy as [->|[-> Hd]]; [discriminate|exact Hd].
    + rewrite replace_pair_other, IH by exact H92; reflexivity.
Qed.

(** Without a carriage return and without a backslash before an [n], the
    first [replace] of line 347 undoes the escaping of the line feeds. *)
Lemma unescape_line_feeds (s : pystr) :
  ~ In 13%N s ->
  contains [92; 110]%N s = false ->
  replace_pair 92 110 [10%N]
    (flat_map
       (fun c => if N.eqb c 34 then [92; 34]%N
                 else if N.eqb c 10 then [92; 110]%N
                 else if N.eqb c 13 then [] else [c]) s)
  = replace 34 [92; 34]%N s.
Proof.
  induction s as [|c s IH]; [reflexivity|].
  intros Hcr Hbn.
  rewrite contains_cons in Hbn; apply orb_false_elim in Hbn as [Hhead Hbn].
  assert (Hc : c <> 13%N) by (intros ->; apply Hcr; left; reflexivity).
  assert (Hcr' : ~ In 13%N s) by (intros H; apply Hcr; right; exact H).
  specialize (IH Hcr' Hbn).
  change (replace 34 [92; 34]%N (c :: s))
    with ((if N.eqb c 34 then [92; 34]%N else [c]) ++ replace 34 [92; 34]%N s).
  cbn [flat_map].
  destruct (N.eqb_spec c 34) as [->|H34]; cbn [app].
  { rewrite replace_pair_next by discriminate.
    rewrite replace_pair_other by discriminate.
    rewrite IH; reflexivity. }
  destruct (N.eqb_spec c 10) as [->|H10]; cbn [app].
  { rewrite replace_pair_found, IH; reflexivity. }
  destruct (N.eqb_spec c 13) as [->|_]; [contradiction|]; cbn [app].
  destruct (N.eq_dec c 92) as [->|H92].
  2:{ rewrite replace_pair_other, IH by exact H92; reflexivity. }
  destruct s as [|d s]; [reflexivity|].
  assert (Hd : d <> 110%N).
  { intros ->; cbn in Hhead; discriminate. }
  assert (Hd13 : d <> 13%N) by (intros ->; apply Hcr'; left; reflexivity).
  revert IH; cbn [flat_map].
  destruct (N.eqb_spec d 34) as [->|D34]; cbn [app].
  { intros IH; rewrite replace_pair_next, IH by discriminate; reflexivity. }
  destruct (N.eqb_spec d 10) as [->|D10]; cbn [app].
  { intros IH; rewrite replace_pair_next, IH by discriminate; reflexivity. }
  destruct (N.eqb_spec d 13) as [->|_]; [contradiction|]; cbn [app].
  intros IH; rewrite replace_pair_next, IH by exact Hd; reflexivity.
Qed.

Lemma escaped_line_feed_shows (s : pystr) :
  In 10%N s ->
  contains [92; 110]%N
    (flat_map
       (fun c => if N.eqb c 34 then [92; 34]%N
                 else if N.eqb c 10 then [92; 110]%N
                 else if N.eqb c 13 then [] else [c]) s)
  = true.
Proof.
  induction s as [|c s IH]; [intros []|].
  intros [->|H]; cbn [flat_map].
  - reflexivity.
  - apply contains_app_r, IH, H.
Qed.

(** Without a line feed and a carriage return, only the quotation marks are
    escaped, and no backslash comes to stand before an [n]. *)
Lemma one_line_escaped (s : pystr) :
  ~ In 10%N s ->
  ~ In 13%N s ->
  contains [92; 110]%N s = false ->
  flat_map
    (fun c => if N.eqb c 34 then [92; 34]%N
              else if N.eqb c 10 then [92; 110]%N
              else if N.eqb c 13 then [] else [c]) s
  = replace 34 [92; 34]%N s
  /\ contains [92; 110]%N (replace 34 [92; 34]%N s) = false.
Proof.
  induction s as [|c s IH]; [split; reflexivity|].
  intros Hlf Hcr Hbn.
  rewrite contains_cons in Hbn; apply orb_false_elim in Hbn as [Hhead Hbn].
  assert (H10 : c <> 10%N) by (intros ->; apply Hlf; left; reflexivity).
  assert (H13 : c <> 13%N) by (intros ->; apply Hcr; left; reflexivity).
  destruct IH as (IH1 & IH2); [intros H; apply Hlf; right; exact H
                              |intros H; apply Hcr; right; exact H|exact Hbn|].
  change (replace 34 [92; 34]%N (c :: s))
    with ((if N.eqb c 34 then [92; 34]%N else [c]) ++ replace 34 [92; 34]%N s).
  cbn [flat_map]; rewrite IH1.
  destruct (N.eqb_spec c 34) as [->|H34]; cbn [app].
  { split; [reflexivity|]; rewrite !contains_cons, IH2; reflexivity. }
  destruct (N.eqb_spec c 10) as [->|_]; [contradiction|].
  destruct (N.eqb_spec c 13) as [->|_]; [contradiction|]; cbn [app].
  split; [reflexivity|]; rewrite contains_cons, IH2, orb_false_r.
  destruct (N.eq_dec c 92) as [->|H92].
  2:{ cbn [starts_with]; destruct (N.eqb_spec 92 c) as [E|_]; [congruence|reflexivity]. }
  destruct s as [|d s]; [reflexivity|].
  destruct (escaped_head d s) as (y & r & E & Hy); rewrite E.
  cbn [starts_with]; rewrite N.eqb_refl, andb_true_r; cbn [andb].
  destruct (N.eqb_spec 110 y) as [<-|_]; [|reflexivity].
  destruct Hy as [Hy|[Hy _]]; [discriminate|].
  subst d; cbn in Hhead; discriminate.
Qed.

(** A str of several lines comes back from the dumper as it was: for a str
    with a line feed, without a carriage return and without a backslash
    before an [n], [represent_scalar] hands the str itself to the library,
    in the literal block style. *)
Theorem quoted_lines_are_restored (s quoted : pystr) (style : option pystr) :
  In 10%N s ->
  ~ In 13%N s ->
  contains [92; 110]%N s = false ->
  quote_value (JStr s) = JStr quoted ->
  represent_scalar quoted style = (s, Some literal_style).
Proof.
  intros Hlf Hcr Hbn Hq; rewrite quote_value_one_pass in Hq; injection Hq as <-.
  unfold represent_scalar.
  rewrite ends_with_quoted, strip_ends_quoted; cbn [starts_with N.eqb Pos.eqb andb].
  rewrite (@escaped_line_feed_shows s Hlf).
  rewrite (@unescape_line_feeds s Hcr Hbn), unescape_quotes; reflexivity.
Qed.

(** A str of one line keeps its escapes: for a str without line feed and
    carriage return and without a backslash before an [n], [represent_scalar]
    hands to the library, in the double-quoted style, the str with a
    backslash before each of its quotation marks; the str itself only when
    it has none. *)
Theorem quoted_line_keeps_its_escapes (s quoted : pystr) (style : option pystr) :
  ~ In 10%N s ->
  ~ In 13%N s ->
  contains [92; 110]%N s = false ->
  quote_value (JStr s) = JStr quoted ->
  represent_scalar quoted style
  = (replace 34 [92; 34]%N s, Some double_quoted_style)
  /\ (~ In 34%N s -> represent_scalar quoted style = (s, Some double_quoted_style)).
Proof.
  intros Hlf Hcr Hbn Hq; rewrite quote_value_one_pass in Hq; injection Hq as <-.
  unfold represent_scalar.
  rewrite ends_with_quoted, strip_ends_quoted; cbn [starts_with N.eqb Pos.eqb andb].
  destruct (@one_line_escaped s Hlf Hcr Hbn) as (-> & ->).
  split; [reflexivity|].
  intros Hq; do 2 f_equal; clear - Hq.
  induction s as [|c s IH]; [reflexivity|].
  unfold replace in *; cbn [flat_map].
  destruct (N.eqb_spec c 34) as [->|_]; [exfalso; apply Hq; left; reflexivity|].
  cbn [app]; f_equal; apply IH; intros H; apply Hq; right; exact H.
Qed.

(** ** When a conversion succeeds *)

Lemma convert_after_extract {rt : Runtime} json_data source_file st r s1 :
  extract_entries_from_json json_data source_file (snd (reset st)) = (Return r, s1) ->
  exists st',
    convert_json_to_yaml json_data source_file st = (Return true, st')
    /\ yaml_trigger st' = match r with [] => [fallback_trigger] | _ :: _ => r end.
Proof.
  intros H; unfold convert_json_to_yaml, try_except.
  rewrite (bind_step _ (eq_refl : reset st = (Return tt, _))); cbv beta.
  rewrite (bind_step _ H).
  destruct r as [|t r]; eexists; split; reflexivity.
Qed.

Lemma convert_after_raise {rt : Runtime} json_data source_file st e s1 :
  extract_entries_from_json json_data source_file (snd (reset st)) = (Raise e, s1) ->
  exists st', convert_json_to_yaml json_data source_file st = (Return false, st').
Proof.
  intros H; unfold convert_json_to_yaml, try_except.
  rewrite (bind_step _ (eq_refl : reset st = (Return tt, _))); cbv beta.
  rewrite (bind_raise _ H); cbn [any_exception]; eexists; reflexivity.
Qed.

(** The conversion of a dict succeeds in every case but one: it returns
    [False] exactly when the document has the list
    [data.character_book.entries] and an element of it is no dict. *)
Theorem dict_conversion_fails_in_one_case {rt : Runtime} d source_file st :
  exists st',
    convert_json_to_yaml (JObj d) source_file st
    = (Return (forallb is_dict
                 (match data_book_entries d with Some l => l | None => [] end)),
       st').
Proof.
  destruct (committed_shape d) as [[| | |]|] eqn:Hs.
  - destruct (committed_data_book d Hs) as (entries & He); rewrite He.
    destruct (forallb is_dict entries) eqn:Hall.
    + destruct (from_data_book_total d He Hall (snd (reset st))) as (r & s1 & H).
      pose proof (@extract_committed rt d source_file (snd (reset st)) _ Hs) as E;
        cbv iota in E; rewrite <- E in H.
      destruct (convert_after_extract _ _ _ H) as (st' & -> & _); eauto.
    + assert (Hex : Exists (fun x => is_dict x = false) entries).
      { apply Exists_exists; clear - Hall.
        induction entries as [|x l IH]; [discriminate|].
        cbn [forallb] in Hall; destruct (is_dict x) eqn:Hx.
        - destruct (IH Hall) as (y & Hy & Hd); exists y; split; [right; exact Hy|exact Hd].
        - exists x; split; [left; reflexivity|exact Hx]. }
      destruct (@from_data_book_raises rt d entries (snd (reset st)) He Hex)
        as (s1 & H & _).
      pose proof (@extract_committed rt d source_file (snd (reset st)) _ Hs) as E;
        cbv iota in E; rewrite <- E in H.
      destruct (convert_after_raise _ _ _ H) as (st' & ->); eauto.
  - assert (Hn : data_book_entries d = None).
    { unfold committed_shape in Hs; destruct (data_book_entries d); [discriminate|reflexivity]. }
    rewrite Hn; cbn [forallb].
    destruct (committed_book d Hs) as (entries & He).
    destruct (from_book_total d He (snd (reset st))) as (r & s1 & H).
    pose proof (@extract_committed rt d source_file (snd (reset st)) _ Hs) as E;
      cbv iota in E; rewrite <- E in H.
    destruct (convert_after_extract _ _ _ H) as (st' & -> & _); eauto.
  - assert (Hn : data_book_entries d = None).
    { unfold committed_shape in Hs; destruct (data_book_entries d); [discriminate|reflexivity]. }
    rewrite Hn; cbn [forallb].
    destruct (committed_entries d Hs) as (entries & He).
    destruct (from_entries_total d He (snd (reset st))) as (r & s1 & H).
    pose proof (@extract_committed rt d source_file (snd (reset st)) _ Hs) as E;
      cbv iota in E; rewrite <- E in H.
    destruct (convert_after_extract _ _ _ H) as (st' & -> & _); eauto.
  - assert (Hn : data_book_entries d = None).
    { unfold committed_shape in Hs; destruct (data_book_entries d); [discriminate|reflexivity]. }
    rewrite Hn; cbn [forallb].
    destruct (from_single_total (JObj d) (snd (reset st))) as (r & s1 & H).
    pose proof (@extract_committed rt d source_file (snd (reset st)) _ Hs) as E;
      cbv iota in E; rewrite <- E in H.
    destruct (convert_after_extract _ _ _ H) as (st' & -> & _); eauto.
  - assert (Hn : data_book_entries d = None).
    { unfold committed_shape in Hs; destruct (data_book_entries d); [discriminate|reflexivity]. }
    rewrite Hn; cbn [forallb].
    destruct (extract_top_level d source_file (snd (reset st)) Hs) as (s1 & H & _).
    destruct (convert_after_extract _ _ _ H) as (st' & -> & _); eauto.
Qed.

(** A document that is no dict never yields a trigger of its own: when its
    conversion succeeds (a str or a list that holds the name of an entry
    field can pass for a single entry), the document is left with the
    fallback trigger and nothing else. *)
Theorem other_document_gets_the_fallback_only {rt : Runtime} json_data source_file
    st st' :
  is_dict json_data = false ->
  convert_json_to_yaml json_data source_file st = (Return true, st') ->
  yaml_trigger st' = [fallback_trigger].
Proof.
  intros Hd H; unfold convert_json_to_yaml in H.
  apply try_except_Return in H as [H|(e & st1 & _ & _ & H)].
  2:{ unfold bind, log, ret in H; discriminate. }
  apply bind_Return in H as ([] & s0 & Hreset & H).
  apply bind_Return in H as (triggers & s1 & Hex & H).
  apply (extract_non_dict _ _ _ Hd) in Hex as (-> & _).
  unfold bind, set_trigger, get_converter, log, append_trigger, count_entry, ret in H;
    simpl in H; injection H as <-; reflexivity.
Qed.

(** ** The texts of a trigger *)

Lemma quote_value_quoted_line (v : json) : quoted_line (quote_value v).
Proof.
  destruct v; try exact I.
  rewrite quote_value_one_pass; eexists; split; [reflexivity|].
  assert (G : forall x, In x
                (flat_map
                   (fun c => if N.eqb c 34 then [92; 34]%N
                             else if N.eqb c 10 then [92; 110]%N
                             else if N.eqb c 13 then [] else [c]) s) ->
              x <> 10%N /\ x <> 13%N).
  { intros x Hx; apply in_flat_map in Hx as (c & _ & Hx); revert Hx.
    destruct (N.eqb_spec c 34);
      [intros [<-|[<-|[]]]; split; discriminate|].
    destruct (N.eqb_spec c 10);
      [intros [<-|[<-|[]]]; split; discriminate|].
    destruct (N.eqb_spec c 13); [intros []|].
    intros [<-|[]]; split; assumption. }
  split; intros H; apply G in H as [H1 H2]; congruence.
Qed.

Lemma quoted_clean_has_no_tab (content : json) (q : pystr) :
  quote_value (clean_content content) = JStr q -> ~ In 9%N q.
Proof.
  destruct content; try discriminate.
  cbn [clean_content]; rewrite quote_value_one_pass; intros E; injection E as <-.
  intros [H|H]; [discriminate|].
  apply in_app_or in H as [H|[H|[]]]; [|discriminate].
  apply in_flat_map in H as (c & Hc & H).
  assert (C : c <> 9%N).
  { unfold replace in Hc; apply in_flat_map in Hc as (b & _ & Hc).
    destruct (N.eqb_spec b 9) as [_|Hb].
    - destruct Hc as [<-|[<-|[]]]; discriminate.
    - destruct Hc as [<-|[]]; exact Hb. }
  revert H.
  destruct (N.eqb_spec c 34); [intros [H|[H|[]]]; discriminate|].
  destruct (N.eqb_spec c 10); [intros [H|[H|[]]]; discriminate|].
  destruct (N.eqb_spec c 13); [intros []|].
  intros [H|[]]; congruence.
Qed.

(** Every text of a trigger is safe to write on one line: its name, type,
    match, conditional, position and content, when they are strs, stand
    between two quotation marks and hold no line feed and no carriage
    return (a name or content that is no str is passed as it is); and a
    content that is a str holds no tab. *)
Theorem trigger_texts_are_quoted_lines {rt : Runtime} entry_id entry st t st' :
  process_entry entry_id entry st = (Return (Some t), st') ->
  quoted_line (t_name t)
  /\ quoted_line (t_type t)
  /\ quoted_line (t_match t)
  /\ quoted_line (t_conditional t)
  /\ quoted_line (t_position t)
  /\ quoted_line (t_content t)
  /\ (forall q, t_content t = JStr q -> ~ In 9%N q).
Proof.
  intros H.
  apply process_entry_inv in H
    as (e & pos & order & x & prob & s1 & s2 & s3 & s4 & _ & _ & _ & _ & _ & _ & ->).
  cbn [t_name t_type t_match t_conditional t_position t_content].
  repeat (split; [apply quote_value_quoted_line|]).
  intros q; apply quoted_clean_has_no_tab.
Qed.

Lemma trigger_texts_are_quoted_lines_witness :
  process_entry (rt := Sample.runtime) (JInt 0) Sample.half_entry init
  = (Return (Some Sample.half_trigger), Sample.half_final)
  /\ quoted_line (t_content Sample.half_trigger).
Proof.
  assert (H : process_entry (rt := Sample.runtime) (JInt 0) Sample.half_entry init
              = (Return (Some Sample.half_trigger), Sample.half_final))
    by (vm_compute; reflexivity).
  split; [exact H|].
  destruct (@trigger_texts_are_quoted_lines Sample.runtime (JInt 0) _ init _ _ H)
    as (_ & _ & _ & _ & _ & Hc & _).
  exact Hc.
Defined.

(** ** A converter that is used again *)

Lemma state_blind_count_entry : state_blind count_entry.
Proof. intros st st'; reflexivity. Qed.

Lemma state_blind_for_each (A S : Type) (l : list A) (body : A -> S -> M S) :
  (forall x s, state_blind (body x s)) -> forall s, state_blind (for_each l body s).
Proof.
  intros Hb; induction l as [|x l IH]; intros s; simpl.
  - apply state_blind_ret.
  - apply state_blind_bind; [apply Hb|exact IH].
Qed.

Ltac blind_step :=
  first
    [ apply state_blind_ret | apply state_blind_raise | apply state_blind_log
    | apply state_blind_count_entry | apply state_blind_process_entry
    | apply state_blind_py_get
    | apply state_blind_bind; [|intros ?]
    | apply state_blind_for_each; intros ? ?
    | match goal with
      | |- state_blind (if ?c then _ else _) => destruct c
      | |- state_blind (match ?o with Some _ => _ | None => _ end) => destruct o
      end ].

Lemma state_blind_py_in k data : state_blind (py_in k data).
Proof. destruct data; simpl; blind_step. Qed.

Lemma state_blind_py_item data k : state_blind (py_item data k).
Proof. destruct data; simpl; repeat blind_step. Qed.

Lemma state_blind_has_dict data k : state_blind (has_dict data k).
Proof.
  unfold has_dict, and_then.
  apply state_blind_bind; [apply state_blind_py_in|intros c; destruct c; [|blind_step]].
  apply state_blind_bind; [apply state_blind_py_item|intros v; blind_step].
Qed.

Lemma state_blind_has_list data k : state_blind (has_list data k).
Proof.
  unfold has_list, and_then.
  apply state_blind_bind; [apply state_blind_py_in|intros c; destruct c; [|blind_step]].
  apply state_blind_bind; [apply state_blind_py_item|intros v; blind_step].
Qed.

Lemma state_blind_any_in keys data : state_blind (any_in keys data).
Proof.
  induction keys as [|k keys IH]; simpl; [blind_step|].
  apply state_blind_bind; [apply state_blind_py_in|intros c; destruct c; [blind_step|exact IH]].
Qed.

Lemma state_blind_extract {rt : Runtime} data source_file :
  state_blind (extract_entries_from_json data source_file).
Proof.
  assert (Hd := state_blind_has_dict); assert (Hl := state_blind_has_list).
  assert (Hi := state_blind_py_item); assert (Ha := state_blind_any_in).
  unfold extract_entries_from_json, is_data_book, is_book, and_then, from_data_book,
    from_book, from_entries, from_single, from_fields, from_arrays, from_document,
    keep, keep_found, py_items.
  repeat first [apply Hd | apply Hl | apply Hi | apply Ha | blind_step
               | match goal with |- state_blind (match ?d with JObj _ => _ | _ => _ end) =>
                   destruct d end ].
Qed.

Lemma keeps_document_py_in k data : keeps_document (py_in k data).
Proof. destruct data; simpl; first [apply keeps_document_ret|apply keeps_document_raise]. Qed.

Lemma keeps_document_py_item data k : keeps_document (py_item data k).
Proof.
  destruct data; simpl; try apply keeps_document_raise.
  destruct (dict_find k d); [apply keeps_document_ret|apply keeps_document_raise].
Qed.

Ltac keeps_step :=
  first
    [ apply keeps_document_ret | apply keeps_document_raise | apply keeps_document_log
    | apply keeps_document_count_entry | apply keeps_document_process_entry
    | apply keeps_document_py_get | apply keeps_document_py_in
    | apply keeps_document_py_item
    | apply keeps_document_bind; [|intros ?]
    | apply keeps_document_for_each; intros ? ?
    | match goal with
      | |- keeps_document (if ?c then _ else _) => destruct c
      | |- keeps_document (match ?o with Some _ => _ | None => _ end) => destruct o
      | |- keeps_document (match ?d with JObj _ => _ | _ => _ end) => destruct d
      end ].

Lemma keeps_document_any_in keys data : keeps_document (any_in keys data).
Proof.
  induction keys as [|k keys IH]; simpl; [keeps_step|].
  apply keeps_document_bind; [keeps_step|intros c; destruct c; [keeps_step|exact IH]].
Qed.

Lemma keeps_document_extract {rt : Runtime} data source_file :
  keeps_document (extract_entries_from_json data source_file).
Proof.
  assert (Ha := keeps_document_any_in).
  unfold extract_entries_from_json, is_data_book, is_book, has_dict, has_list, and_then,
    from_data_book, from_book, from_entries, from_single, from_fields, from_arrays,
    from_document, keep, keep_found, py_items.
  repeat first [apply Ha | keeps_step].
Qed.

(** A conversion starts afresh: whatever an earlier conversion left in the
    converter, [convert_json_to_yaml] returns what it returns on a new
    converter and leaves the same triggers in the document, and, when it
    succeeds, the same count. *)
Theorem conversion_starts_afresh {rt : Runtime} json_data source_file st :
  exists ok st1 st2,
    convert_json_to_yaml json_data source_file st = (Return ok, st1)
    /\ convert_json_to_yaml json_data source_file init = (Return ok, st2)
    /\ yaml_trigger st1 = yaml_trigger st2
    /\ (ok = true -> entries_processed st1 = entries_processed st2).
Proof.
  pose proof (state_blind_extract json_data source_file (snd (reset st))
                (snd (reset init))) as B.
  destruct (extract_entries_from_json json_data source_file (snd (reset st)))
    as [[r|e] s1] eqn:E1;
    destruct (extract_entries_from_json json_data source_file (snd (reset init)))
      as [[r'|e'] s2] eqn:E2; cbn [fst] in B; try discriminate B; injection B as <-.
  - pose proof (extract_counted _ _ _ E1) as [_ C1].
    pose proof (extract_counted _ _ _ E2) as [_ C2].
    unfold convert_json_to_yaml, try_except.
    rewrite !(bind_step _ (eq_refl : reset _ = (Return tt, _))); cbv beta.
    rewrite (bind_step _ E1), (bind_step _ E2).
    destruct r as [|t r]; do 3 eexists; (split; [reflexivity|]);
      (split; [reflexivity|]); (split; [reflexivity|]); intros _; simpl;
      rewrite C1, C2; reflexivity.
  - pose proof (keeps_document_extract _ _ _ E1) as K1.
    pose proof (keeps_document_extract _ _ _ E2) as K2.
    unfold convert_json_to_yaml, try_except.
    rewrite !(bind_step _ (eq_refl : reset _ = (Return tt, _))); cbv beta.
    rewrite (bind_raise _ E1), (bind_raise _ E2); cbn [any_exception].
    do 3 eexists; (split; [reflexivity|]); (split; [reflexivity|]).
    split; [simpl; rewrite K1, K2; reflexivity|discriminate].
Qed.

(** ** The theorems above, on the samples *)

Lemma shape_yields_its_entries_in_order_witness :
  committed_shape (members Sample.book_doc) = Some DataBook
  /\ entries_are_dicts DataBook (members Sample.book_doc) = true
  /\ exists st',
       extract_entries_from_json (rt := Sample.runtime) Sample.book_doc [] init
       = (Return (shape_triggers (rt := Sample.runtime) DataBook
                    (members Sample.book_doc)), st').
Proof.
  split; [reflexivity|]; split; [reflexivity|].
  exact (@shape_yields_its_entries_in_order Sample.runtime (members Sample.book_doc)
           [] init DataBook eq_refl eq_refl).
Defined.

Lemma top_level_search_order_witness :
  committed_shape [(lit "a", JInt 1)] = None
  /\ exists st',
       extract_entries_from_json (rt := Sample.runtime) (JObj [(lit "a", JInt 1)]) [] init
       = (Return (kept (trigger_of (rt := Sample.runtime) (JStr (lit "default"))
                          (default_entry (rt := Sample.runtime)
                             (JObj [(lit "a", JInt 1)]) []))), st').
Proof.
  split; [reflexivity|].
  exact (@top_level_search_order Sample.runtime [(lit "a", JInt 1)] [] init eq_refl).
Defined.

Lemma counter_is_number_of_triggers_witness :
  convert_json_to_yaml (rt := Sample.runtime) Sample.empty_book_doc [] init
  = (Return true, Sample.empty_book_final)
  /\ entries_processed Sample.empty_book_final
     = List.length (yaml_trigger Sample.empty_book_final).
Proof.
  assert (H : convert_json_to_yaml (rt := Sample.runtime) Sample.empty_book_doc [] init
              = (Return true, Sample.empty_book_final))
    by (vm_compute; reflexivity).
  split; [exact H|].
  exact (@counter_is_number_of_triggers Sample.runtime _ _ _ _ H).
Defined.

Lemma probability_is_clamped_witness :
  process_entry (rt := Sample.runtime) (JInt 0) Sample.half_entry init
  = (Return (Some Sample.half_trigger), Sample.half_final)
  /\ t_probability Sample.half_trigger
     = PrimFloat.div (float_of_small (Z.max 0 (Z.min 50 100))) 100%float.
Proof.
  assert (H : process_entry (rt := Sample.runtime) (JInt 0) Sample.half_entry init
              = (Return (Some Sample.half_trigger), Sample.half_final))
    by (vm_compute; reflexivity).
  split; [exact H|].
  exact (proj2 (proj2 (@probability_is_clamped Sample.runtime (JInt 0) _ init _ _ H)
                  [(lit "probability", JInt 50)] eq_refl) 50%Z eq_refl).
Defined.

Lemma position_is_start_or_end_witness :
  process_entry (rt := Sample.runtime) (JInt 0) Sample.half_entry init
  = (Return (Some Sample.half_trigger), Sample.half_final)
  /\ t_position Sample.half_trigger = quote_value (JStr sys_end).
Proof.
  assert (H : process_entry (rt := Sample.runtime) (JInt 0) Sample.half_entry init
              = (Return (Some Sample.half_trigger), Sample.half_final))
    by (vm_compute; reflexivity).
  split; [exact H|].
  apply (proj2 (@position_is_start_or_end Sample.runtime (JInt 0) _ init _ _ H)).
  exists (JInt 1); split; [reflexivity|left; reflexivity].
Defined.

Lemma malformed_entry_is_dropped_witness :
  is_dict (dict_get (lit "extensions") (JObj []) [(lit "extensions", JInt 3)]) = false
  /\ exists st',
       process_entry (rt := Sample.runtime) (JInt 0)
         (JObj [(lit "extensions", JInt 3)]) init
       = (Return None, st').
Proof.
  split; [reflexivity|].
  apply (@malformed_entry_is_dropped Sample.runtime); right; reflexivity.
Defined.

Lemma plain_document_becomes_one_entry_witness :
  committed_shape [(lit "a", JInt 1)] = None
  /\ forallb (fun kv => is_scalar (snd kv)) [(lit "a", JInt 1)] = true
  /\ exists t st',
       extract_entries_from_json (rt := Sample.runtime) (JObj [(lit "a", JInt 1)]) [] init
       = (Return [t], st')
       /\ t_match t = quote_value (JStr (lit "unknown"))
       /\ t_priority t = NInt 0.
Proof.
  split; [reflexivity|]; split; [reflexivity|].
  destruct (@plain_document_becomes_one_entry Sample.runtime [(lit "a", JInt 1)] [] init
              eq_refl eq_refl) as (t & st' & H & _ & Hm & Hp & _).
  exists t, st'; split; [exact H|]; split; [exact Hm|exact Hp].
Defined.

Lemma other_document_gets_the_fallback_only_witness :
  is_dict (Sample.S "content") = false
  /\ convert_json_to_yaml (rt := Sample.runtime) (Sample.S "content") [] init
     = (Return true, Sample.str_doc_final)
  /\ yaml_trigger Sample.str_doc_final = [fallback_trigger].
Proof.
  assert (H : convert_json_to_yaml (rt := Sample.runtime) (Sample.S "content") [] init
              = (Return true, Sample.str_doc_final))
    by (vm_compute; reflexivity).
  split; [reflexivity|]; split; [exact H|].
  exact (@other_document_gets_the_fallback_only Sample.runtime (Sample.S "content") []
           init Sample.str_doc_final eq_refl H).
Defined.

Lemma quoted_lines_are_restored_witness :
  In 10%N Sample.two_lines
  /\ ~ In 13%N Sample.two_lines
  /\ contains [92; 110]%N Sample.two_lines = false
  /\ quote_value (JStr Sample.two_lines) = JStr Sample.two_lines_quoted
  /\ represent_scalar Sample.two_lines_quoted None
     = (Sample.two_lines, Some literal_style).
Proof.
  assert (H1 : In 10%N Sample.two_lines) by (right; left; reflexivity).
  assert (H2 : ~ In 13%N Sample.two_lines)
    by (intros [H|[H|[H|[H|[]]]]]; discriminate H).
  split; [exact H1|]; split; [exact H2|]; split; [reflexivity|]; split; [reflexivity|].
  exact (@quoted_lines_are_restored Sample.two_lines Sample.two_lines_quoted None
           H1 H2 eq_refl eq_refl).
Defined.

Lemma quoted_line_keeps_its_escapes_witness :
  ~ In 10%N Sample.one_line
  /\ ~ In 13%N Sample.one_line
  /\ contains [92; 110]%N Sample.one_line = false
  /\ quote_value (JStr Sample.one_line) = JStr Sample.one_line_quoted
  /\ represent_scalar Sample.one_line_quoted None
     = ([97; 92; 34; 98]%N, Some double_quoted_style).
Proof.
  assert (H1 : ~ In 10%N Sample.one_line)
    by (intros [H|[H|[H|[]]]]; discriminate H).
  assert (H2 : ~ In 13%N Sample.one_line)
    by (intros [H|[H|[H|[]]]]; discriminate H).
  split; [exact H1|]; split; [exact H2|]; split; [reflexivity|]; split; [reflexivity|].
  exact (proj1 (@quoted_line_keeps_its_escapes Sample.one_line Sample.one_line_quoted
                  None H1 H2 eq_refl eq_refl)).
Defined.

(** ** The character summary *)

(** C4, as the code has it.  [first_mes] is read from the first source that
    is present among first_mes, begin_dialogs, greeting, example_dialog,
    char_greeting and alternate_greetings, where example_dialog and
    alternate_greetings are passed over when their value is falsy; the source
    found decides even when what it gives is empty.  What it gives is in the
    table [Probe.sources]: first_mes, greeting and char_greeting give their
    value, whatever it is; begin_dialogs gives its first element when it is a
    list that has one, itself when it is a str, and the empty text
    otherwise; example_dialog and alternate_greetings give their first
    element when they are a list, and the empty text otherwise.  The summary
    writes [str] of what was read. *)
Theorem first_present_source_decides {rt : Runtime} (d : dict) :
  Card.first_mes_raw d = Probe.probe Probe.sources d
  /\ Card._extract_character_info (JObj d)
     = Card.summary (py_str (dict_get (lit "name") (JStr []) d))
         (py_str (dict_get (lit "description") (JStr []) d))
         (py_str (Probe.probe Probe.sources d)).
Proof.
  assert (H : Card.first_mes_raw d = Probe.probe Probe.sources d).
  { unfold Card.first_mes_raw, Probe.probe, Probe.sources, dict_has, dict_get,
      Probe.always, Probe.whole, Probe.head, Probe.head_or_text.
    destruct (dict_find (lit "first_mes") d); [reflexivity|].
    destruct (dict_find (lit "begin_dialogs") d); [reflexivity|].
    destruct (dict_find (lit "greeting") d); [reflexivity|].
    destruct (dict_find (lit "example_dialog") d) as [v|]; simpl andb.
    { destruct (truthy v); [reflexivity|].
      destruct (dict_find (lit "char_greeting") d); [reflexivity|].
      destruct (dict_find (lit "alternate_greetings") d) as [w|]; simpl andb;
        [destruct (truthy w)|]; reflexivity. }
    destruct (dict_find (lit "char_greeting") d); [reflexivity|].
    destruct (dict_find (lit "alternate_greetings") d) as [w|]; simpl andb;
      [destruct (truthy w)|]; reflexivity. }
  split; [exact H|].
  unfold Card._extract_character_info; rewrite H; reflexivity.
Qed.

(** C4, the claim as written, fails: an empty [first_mes] is present, so the
    populated [greeting] after it is never read and the summary's first_mes
    is empty. *)
Lemma empty_first_mes_shadows_greeting :
  dict_find (lit "greeting") Sample.empty_first_mes_doc = Some (Sample.S "hi")
  /\ Card.first_mes_raw Sample.empty_first_mes_doc = JStr []
  /\ Card._extract_character_info (rt := Sample.runtime)
       (JObj Sample.empty_first_mes_doc)
     = Card.summary [] [] [].
Proof. repeat split. Qed.

(** ** The lines of the character summary *)

Lemma escaped_one_line (s : pystr) (x : N) :
  In x (replace 13 [] (replace 10 [92; 110]%N (replace 34 [92; 34]%N s))) ->
  x <> 10%N /\ x <> 13%N.
Proof.
  unfold replace; intros H.
  apply in_flat_map in H as (a & Ha & H).
  destruct (N.eqb_spec a 13) as [->|H13]; [destruct H|].
  destruct H as [<-|[]]; split; [|exact H13].
  intros E; subst a; apply in_flat_map in Ha as (b & Hb & Ha).
  destruct (N.eqb_spec b 10) as [E10|H10].
  - destruct Ha as [Ha|[Ha|[]]]; discriminate.
  - destruct Ha as [Ha|[]]; congruence.
Qed.

Lemma count_quoted (s : pystr) (x : N) :
  x = 10%N \/ x = 13%N -> count_occ N.eq_dec (Card.quote_value s) x = 0%nat.
Proof.
  intros Hx; apply count_occ_not_In; unfold Card.quote_value.
  intros H; apply in_app_or in H as [H|H].
  - destruct H as [<-|[]]; destruct Hx; discriminate.
  - apply in_app_or in H as [H|H].
    + apply escaped_one_line in H as [H1 H2]; destruct Hx; contradiction.
    + destruct H as [<-|[]]; destruct Hx; discriminate.
Qed.

(** Whatever the fields of the document hold, the summary keeps its layout:
    three lines, [name], [prompt] and [first_mes], with an empty line between
    them; no value brings a line feed or a carriage return into it. *)
Theorem summary_keeps_its_lines {rt : Runtime} (d : dict) :
  count_occ N.eq_dec (Card._extract_character_info (JObj d)) 10%N = 4%nat
  /\ count_occ N.eq_dec (Card._extract_character_info (JObj d)) 13%N = 0%nat.
Proof.
  unfold Card._extract_character_info, Card.summary.
  rewrite !count_occ_app, !count_quoted by auto.
  split; reflexivity.
Qed.

(* ------------------------------------------------------------------ *)
(** ** The codec *)

Section CodecProperties.

Import Codec Container.

Local Open Scope N_scope.

(** ** Bytes and numbers *)

Lemma to_N_byte_of (n : N) : n < 256 -> Byte.to_N (byte_of n) = n.
Proof.
  intros H; unfold byte_of.
  destruct (Byte.of_N n) as [b|] eqn:E.
  - apply Byte.to_of_N; exact E.
  - apply Byte.of_N_None_iff in E; lia.
Qed.

Lemma byte_of_to_N (b : byte) : byte_of (Byte.to_N b) = b.
Proof. unfold byte_of; rewrite Byte.of_to_N; reflexivity. Qed.

Lemma to_N_lt (b : byte) : Byte.to_N b < 256.
Proof. pose proof (Byte.to_N_bounded b); lia. Qed.

Lemma byte_eqb_eq (a b : byte) : Byte.eqb a b = true <-> a = b.
Proof. split; [apply Byte.byte_dec_bl | apply Byte.byte_dec_lb]. Qed.

(** A check that holds on every number below [n] holds below [n]. *)
Lemma forallb_below (f : N -> bool) (n : nat) :
  forallb f (map N.of_nat (seq 0 n)) = true ->
  forall s, s < N.of_nat n -> f s = true.
Proof.
  intros H s Hs; rewrite forallb_forall in H; apply H.
  apply in_map_iff; exists (N.to_nat s); split; [lia|].
  apply in_seq; lia.
Qed.

(** ** Base64 *)

Lemma b64_char_ok (s : N) :
  s < 64 ->
  b64_value (b64_char s) = Some s
  /\ Byte.eqb (b64_char s) pad = false
  /\ Byte.to_N (b64_char s) < 128.
Proof.
  intros H.
  assert (C : (match b64_value (b64_char s) with Some v => v =? s | None => false end)
              && negb (Byte.eqb (b64_char s) pad)
              && (Byte.to_N (b64_char s) <? 128) = true).
  { revert s H.
    apply (forallb_below
             (fun s => (match b64_value (b64_char s) with Some v => v =? s | None => false end)
                       && negb (Byte.eqb (b64_char s) pad)
                       && (Byte.to_N (b64_char s) <? 128)) 64).
    vm_compute; reflexivity. }
  apply andb_true_iff in C as [C C3]; apply andb_true_iff in C as [C1 C2].
  repeat split.
  - destruct (b64_value (b64_char s)); [apply N.eqb_eq in C1; subst; reflexivity|discriminate].
  - apply negb_true_iff; exact C2.
  - apply N.ltb_lt; exact C3.
Qed.

Ltac Zify.zify_post_hook ::= Z.to_euclidean_division_equations.

(** One character of the alphabet moves the decoder one place in its group. *)
Lemma a2b_step (s : N) (rest : bytes) (st : b64_state) :
  s < 64 ->
  a2b_loop (b64_char s :: rest) st
  = a2b_loop rest
      (if quad_pos st =? 0 then
         {| quad_pos := 1; leftchar := s; pads := 0; written := written st |}
       else if quad_pos st =? 1 then
         {| quad_pos := 2; leftchar := s mod 16; pads := 0;
            written := written st ++ [byte_of (leftchar st * 4 + s / 16)] |}
       else if quad_pos st =? 2 then
         {| quad_pos := 3; leftchar := s mod 4; pads := 0;
            written := written st ++ [byte_of (leftchar st * 16 + s / 4)] |}
       else
         {| quad_pos := 0; leftchar := 0; pads := 0;
            written := written st ++ [byte_of (leftchar st * 64 + s)] |}).
Proof.
  intros H; destruct (b64_char_ok H) as (Hv & Hp & _).
  cbn [a2b_loop]; rewrite Hp, Hv; reflexivity.
Qed.

Lemma list_ind3 (A : Type) (P : list A -> Prop) :
  P [] -> (forall a, P [a]) -> (forall a b, P [a; b]) ->
  (forall a b c l, P l -> P (a :: b :: c :: l)) ->
  forall l, P l.
Proof.
  intros H0 H1 H2 H3 l.
  enough (H : P l /\ (forall a, P (a :: l)) /\ (forall a b, P (a :: b :: l))) by apply H.
  induction l as [|x l (IH0 & IH1 & IH2)]; repeat split; auto.
Qed.

Lemma a2b_encoded (data : bytes) :
  forall w, a2b_loop (b64encode data) (at_group w) = Some (w ++ data).
Proof.
  induction data as [|a|a b|a b c rest IH] using list_ind3; intros w.
  - simpl; rewrite app_nil_r; reflexivity.
  - pose proof (to_N_lt a).
    cbn [b64encode]; rewrite !a2b_step by lia.
    cbn -[N.div N.modulo N.mul N.add byte_of].
    replace (Byte.to_N a / 4 * 4 + Byte.to_N a mod 4 * 16 / 16) with (Byte.to_N a) by lia.
    rewrite byte_of_to_N; reflexivity.
  - pose proof (to_N_lt a); pose proof (to_N_lt b).
    cbn [b64encode]; rewrite !a2b_step by lia.
    cbn -[N.div N.modulo N.mul N.add byte_of].
    replace (Byte.to_N a / 4 * 4 + (Byte.to_N a mod 4 * 16 + Byte.to_N b / 16) / 16)
      with (Byte.to_N a) by lia.
    replace ((Byte.to_N a mod 4 * 16 + Byte.to_N b / 16) mod 16 * 16
             + Byte.to_N b mod 16 * 4 / 4)
      with (Byte.to_N b) by lia.
    rewrite !byte_of_to_N, <- app_assoc; reflexivity.
  - pose proof (to_N_lt a); pose proof (to_N_lt b); pose proof (to_N_lt c).
    cbn [b64encode]; rewrite !a2b_step by lia.
    cbn -[N.div N.modulo N.mul N.add byte_of a2b_loop b64encode].
    replace (Byte.to_N a / 4 * 4 + (Byte.to_N a mod 4 * 16 + Byte.to_N b / 16) / 16)
      with (Byte.to_N a) by lia.
    replace ((Byte.to_N a mod 4 * 16 + Byte.to_N b / 16) mod 16 * 16
             + (Byte.to_N b mod 16 * 4 + Byte.to_N c / 64) / 4)
      with (Byte.to_N b) by lia.
    replace ((Byte.to_N b mod 16 * 4 + Byte.to_N c / 64) mod 4 * 64 + Byte.to_N c mod 64)
      with (Byte.to_N c) by lia.
    rewrite !byte_of_to_N.
    change {| quad_pos := 0; leftchar := 0; pads := 0;
              written := ((w ++ [a]) ++ [b]) ++ [c] |}
      with (at_group (((w ++ [a]) ++ [b]) ++ [c])).
    rewrite IH, <- !app_assoc; reflexivity.
Qed.

Lemma b64encode_ascii (data : bytes) :
  Forall (fun b => Byte.to_N b < 128) (b64encode data).
Proof.
  assert (Hpad : Byte.to_N pad < 128) by (vm_compute; reflexivity).
  induction data as [|a|a b|a b c rest IH] using list_ind3; cbn [b64encode];
    repeat (apply Forall_cons; [first [exact Hpad | apply b64_char_ok; pose proof (to_N_lt a); try pose proof (to_N_lt b); try pose proof (to_N_lt c); lia]|]);
    first [apply Forall_nil | exact IH].
Qed.

Lemma ascii_encode_decode (b : bytes) :
  Forall (fun x => Byte.to_N x < 128) b -> ascii_encode (latin1_decode b) = Some b.
Proof.
  unfold latin1_decode; induction 1 as [|x b Hx _ IH]; [reflexivity|].
  cbn [map ascii_encode]; apply N.ltb_lt in Hx; rewrite Hx, IH, byte_of_to_N.
  reflexivity.
Qed.

(** [b64decode(b64encode(data).decode('ascii')) == data] *)
Lemma b64decode_b64encode (data : bytes) :
  b64decode (latin1_decode (b64encode data)) = Some data.
Proof.
  unfold b64decode; rewrite ascii_encode_decode by apply b64encode_ascii.
  apply (a2b_encoded data []).
Qed.

(** ** UTF-8 *)

Ltac decide_tests :=
  repeat match goal with
    | |- context [?a <? ?b] =>
        first [ replace (a <? b) with true by (symmetry; apply N.ltb_lt; lia)
              | replace (a <? b) with false by (symmetry; apply N.ltb_ge; lia) ]
    | |- context [?a <=? ?b] =>
        first [ replace (a <=? b) with true by (symmetry; apply N.leb_le; lia)
              | replace (a <=? b) with false by (symmetry; apply N.leb_gt; lia) ]
    end.

Opaque N.add N.sub N.mul N.div N.modulo.

Lemma utf8_char_decode (c : N) (bs rest : bytes) :
  utf8_encode_char c = Some bs ->
  utf8_decode (bs ++ rest) = push c (utf8_decode rest).
Proof.
  unfold utf8_encode_char, is_surrogate.
  destruct (c <? 0x80) eqn:H1; [|destruct (c <? 0x800) eqn:H2;
    [|destruct (c <? 0x10000) eqn:H3; [|destruct (c <? 0x110000) eqn:H4]]];
    repeat match goal with
      | H : (_ <? _) = true |- _ => apply N.ltb_lt in H
      | H : (_ <? _) = false |- _ => apply N.ltb_ge in H
      end.
  - intros E; injection E as <-.
    cbn [app utf8_decode]; rewrite to_N_byte_of by lia.
    decide_tests; reflexivity.
  - intros E; injection E as <-.
    cbn [app utf8_decode]; unfold is_cont, cont_bits; rewrite !to_N_byte_of by lia.
    decide_tests; cbn [andb]; f_equal; lia.
  - destruct ((0xD800 <=? c) && (c <=? 0xDFFF)) eqn:Hs; [discriminate|].
    intros E; injection E as <-.
    cbn [app utf8_decode]; unfold is_cont, cont_bits, is_surrogate.
    rewrite !to_N_byte_of by lia.
    replace ((0xE0 + c / 4096 - 0xE0) * 4096 + (0x80 + c / 64 mod 64 - 0x80) * 64
             + (0x80 + c mod 64 - 0x80)) with c by lia.
    rewrite Hs; decide_tests; reflexivity.
  - intros E; injection E as <-.
    cbn [app utf8_decode]; unfold is_cont, cont_bits.
    rewrite !to_N_byte_of by lia.
    replace ((0xF0 + c / 262144 - 0xF0) * 262144 + (0x80 + c / 4096 mod 64 - 0x80) * 4096
             + (0x80 + c / 64 mod 64 - 0x80) * 64 + (0x80 + c mod 64 - 0x80)) with c by lia.
    decide_tests; reflexivity.
  - discriminate.
Qed.

Transparent N.add N.sub N.mul N.div N.modulo.

(** [s.encode('utf-8').decode('utf-8') == s] *)
Lemma utf8_decode_encode (s : pystr) (b : bytes) :
  utf8_encode s = Some b -> utf8_decode b = Some s.
Proof.
  revert b; induction s as [|c s IH]; intros b; cbn [utf8_encode].
  - intros E; injection E as <-; reflexivity.
  - destruct (utf8_encode_char c) as [bc|] eqn:Ec; [|discriminate].
    destruct (utf8_encode s) as [bs|]; [|discriminate].
    intros E; injection E as <-.
    erewrite utf8_char_decode by exact Ec.
    rewrite (IH bs eq_refl); reflexivity.
Qed.

(** ** Chunks *)

Lemma pack_u32_some (n : N) :
  n < 0x100000000 ->
  pack_u32 n = Some [byte_of (n / 0x1000000); byte_of (n / 0x10000 mod 256);
                     byte_of (n / 0x100 mod 256); byte_of (n mod 256)].
Proof. intros H; unfold pack_u32; apply N.ltb_lt in H; rewrite H; reflexivity. Qed.

Lemma unpack_pack (n : N) :
  n < 0x100000000 ->
  unpack_u32 (byte_of (n / 0x1000000)) (byte_of (n / 0x10000 mod 256))
    (byte_of (n / 0x100 mod 256)) (byte_of (n mod 256)) = n.
Proof. intros H; unfold unpack_u32; rewrite !to_N_byte_of by lia; lia. Qed.

Lemma crc32_lt (data : bytes) : crc32 data < 0x100000000.
Proof.
  unfold crc32; change 0xFFFFFFFF with (N.ones 32) at 3.
  rewrite N.land_ones; apply N.mod_lt; discriminate.
Qed.


Lemma bytes_eqb_eq (a b : bytes) : bytes_eqb a b = true <-> a = b.
Proof.
  revert b; induction a as [|x a IH]; intros [|y b]; simpl;
    try (split; [discriminate | congruence || discriminate]); try tauto.
  rewrite andb_true_iff, byte_eqb_eq, IH.
  split; [intros [-> ->]; reflexivity | intros H; inversion H; auto].
Qed.

(** Reading what the writer wrote for one chunk. *)
Lemma read_one_written (lenient : bool) (fuel : nat) (c : chunk) (len crc rest : bytes) :
  chunk_ok c ->
  pack_u32 (N.of_nat (List.length (snd c))) = Some len ->
  pack_u32 (crc32 (fst c ++ snd c)) = Some crc ->
  read_chunks lenient (S fuel) (len ++ fst c ++ snd c ++ crc ++ rest)
  = if is_iend c then Ok [c]
    else match read_chunks lenient fuel rest with
         | Ok chunks => Ok (c :: chunks)
         | Err e => Err e
         end.
Proof.
  destruct c as [type data]; unfold chunk_ok, is_iend; cbn [fst snd].
  intros (Hlen & Hlet & Hsize) Hl Hc.
  destruct type as [|t0 [|t1 [|t2 [|t3 [|]]]]]; try discriminate Hlen.
  assert (Hs : N.of_nat (List.length data) < 0x100000000) by lia.
  rewrite (pack_u32_some Hs) in Hl; injection Hl as <-.
  rewrite (pack_u32_some (crc32_lt _)) in Hc; injection Hc as <-.
  cbn [app read_chunks].
  rewrite (unpack_pack Hs).
  replace (0x7FFFFFFF <? N.of_nat (List.length data)) with false
    by (symmetry; apply N.ltb_ge; exact Hsize).
  rewrite Hlet; cbn [negb].
  rewrite Nat2N.id.
  rewrite firstn_app, firstn_all, Nat.sub_diag, firstn_O, app_nil_r.
  rewrite N.eqb_refl; cbn [negb].
  rewrite skipn_app, skipn_all, Nat.sub_diag, skipn_O; cbn [app].
  rewrite (unpack_pack (crc32_lt _)), N.eqb_refl.
  cbn [negb]; rewrite andb_false_r; reflexivity.
Qed.


Lemma read_chunks_stream (lenient : bool) (fuel : nat) :
  forall b chunks,
    read_chunks lenient fuel b = Ok chunks ->
    exists pre last, chunks = pre ++ [last] /\ stream pre last.
Proof.
  induction fuel as [|fuel IH]; intros b chunks; [discriminate|].
  cbn [read_chunks].
  destruct b as [|l0 [|l1 [|l2 [|l3 [|t0 [|t1 [|t2 [|t3 rest]]]]]]]]; try discriminate.
  destruct (0x7FFFFFFF <? unpack_u32 l0 l1 l2 l3) eqn:Hsize; [discriminate|].
  destruct (forallb is_letter [t0; t1; t2; t3]) eqn:Hlet; [|discriminate].
  cbn [negb].
  destruct (N.of_nat (List.length (firstn (N.to_nat (unpack_u32 l0 l1 l2 l3)) rest))
            =? unpack_u32 l0 l1 l2 l3) eqn:Hlen; [|discriminate].
  cbn [negb].
  destruct (skipn (N.to_nat (unpack_u32 l0 l1 l2 l3)) rest)
    as [|c0 [|c1 [|c2 [|c3 rest']]]]; try discriminate.
  destruct (negb lenient && negb (unpack_u32 c0 c1 c2 c3 =? _)); [discriminate|].
  set (c := ([t0; t1; t2; t3], firstn (N.to_nat (unpack_u32 l0 l1 l2 l3)) rest)).
  assert (Hok : chunk_ok c).
  { unfold chunk_ok, c; cbn [fst snd]; repeat split; [exact Hlet|].
    apply N.eqb_eq in Hlen; rewrite Hlen; apply N.ltb_ge; exact Hsize. }
  destruct (bytes_eqb [t0; t1; t2; t3] IEND) eqn:Hend.
  - intros E; injection E as <-.
    exists [], c; repeat split; [constructor|apply Hok..|exact Hend].
  - destruct (read_chunks lenient fuel rest') as [chunks'|] eqn:Hrest; [|discriminate].
    intros E; injection E as <-.
    destruct (IH _ _ Hrest) as (pre & last & -> & Hpre & Hlast).
    exists (c :: pre), last; split; [reflexivity|].
    split; [|exact Hlast].
    constructor; [split; [exact Hok|exact Hend]|exact Hpre].
Qed.

(** The writer writes every list of accepted chunks. *)
Lemma write_chunks_ok (chunks : list chunk) :
  Forall chunk_ok chunks -> exists out, write_chunks chunks = Ok out.
Proof.
  induction 1 as [|[t d] chunks (_ & _ & Hsize) _ (out & IH)]; cbn [write_chunks].
  - eauto.
  - cbn [snd] in Hsize.
    rewrite pack_u32_some by lia.
    rewrite (pack_u32_some (crc32_lt _)), IH; eauto.
Qed.

Lemma write_chunks_length (chunks : list chunk) :
  forall out, write_chunks chunks = Ok out -> (List.length chunks <= List.length out)%nat.
Proof.
  induction chunks as [|[t d] chunks IH]; intros out; cbn [write_chunks].
  - intros _; apply Nat.le_0_l.
  - destruct (pack_u32 (N.of_nat (List.length d))) as [len|] eqn:Hl; [|discriminate].
    destruct (pack_u32 (crc32 (t ++ d))) as [crc|]; [|discriminate].
    destruct (write_chunks chunks) as [o|]; [|discriminate].
    intros E; injection E as <-.
    specialize (IH o eq_refl).
    unfold pack_u32 in Hl; destruct (_ <? _); [|discriminate]; injection Hl as <-.
    rewrite !length_app; cbn [List.length]; lia.
Qed.

(** What the writer wrote for a stream reads back as the stream. *)
Lemma read_written (lenient : bool) (pre : list chunk) (last : chunk) :
  stream pre last ->
  forall fuel out rest,
    write_chunks (pre ++ [last]) = Ok out ->
    (List.length pre < fuel)%nat ->
    read_chunks lenient fuel (out ++ rest) = Ok (pre ++ [last]).
Proof.
  intros (Hpre & Hlast & Hend).
  induction Hpre as [|[t d] pre [Hc Hn] _ IH]; intros fuel out rest;
    (destruct fuel as [|fuel]; [intros _ H; inversion H|]); cbn [app write_chunks].
  - destruct last as [t d].
    destruct (pack_u32 (N.of_nat (List.length d))) as [len|] eqn:Hl; [|discriminate].
    destruct (pack_u32 (crc32 (t ++ d))) as [crc|] eqn:Hcrc; [|discriminate].
    intros E _; injection E as <-.
    rewrite app_nil_r, <- !app_assoc.
    pose proof (read_one_written lenient fuel (c := (t, d)) rest Hlast Hl Hcrc) as R.
    cbn [fst snd] in R; rewrite R, Hend; reflexivity.
  - destruct (pack_u32 (N.of_nat (List.length d))) as [len|] eqn:Hl; [|discriminate].
    destruct (pack_u32 (crc32 (t ++ d))) as [crc|] eqn:Hcrc; [|discriminate].
    destruct (write_chunks (pre ++ [last])) as [o|] eqn:Ho; [|discriminate].
    intros E Hf; injection E as <-.
    rewrite <- !app_assoc.
    pose proof (read_one_written lenient fuel (c := (t, d)) (o ++ rest) Hc Hl Hcrc) as R.
    cbn [fst snd] in R; rewrite R, Hn.
    rewrite (IH fuel o rest eq_refl) by (cbn [List.length] in Hf; lia).
    reflexivity.
Qed.

(** The fuel that [png_chunks] gives is enough: with more bytes of fuel than
    bytes of input the reader never runs out, so more fuel changes nothing. *)
Lemma read_chunks_fuel (lenient : bool) (fuel : nat) :
  forall fuel' b,
    (List.length b < fuel)%nat -> (List.length b < fuel')%nat ->
    read_chunks lenient fuel b = read_chunks lenient fuel' b.
Proof.
  induction fuel as [|fuel IH]; intros fuel' b Hf Hf'; [inversion Hf|].
  destruct fuel' as [|fuel']; [inversion Hf'|].
  cbn [read_chunks].
  destruct b as [|l0 [|l1 [|l2 [|l3 [|t0 [|t1 [|t2 [|t3 rest]]]]]]]]; try reflexivity.
  destruct (0x7FFFFFFF <? unpack_u32 l0 l1 l2 l3); [reflexivity|].
  destruct (negb (forallb is_letter [t0; t1; t2; t3])); [reflexivity|].
  destruct (negb (N.of_nat (List.length (firstn (N.to_nat (unpack_u32 l0 l1 l2 l3)) rest))
                  =? unpack_u32 l0 l1 l2 l3)); [reflexivity|].
  destruct (skipn (N.to_nat (unpack_u32 l0 l1 l2 l3)) rest)
    as [|c0 [|c1 [|c2 [|c3 rest']]]] eqn:Hskip; try reflexivity.
  destruct (negb lenient && negb (unpack_u32 c0 c1 c2 c3 =? _)); [reflexivity|].
  destruct (bytes_eqb [t0; t1; t2; t3] IEND); [reflexivity|].
  assert (Hlen : (List.length rest' < List.length rest)%nat).
  { apply (f_equal (@List.length byte)) in Hskip.
    rewrite length_skipn in Hskip; cbn [List.length] in Hskip; lia. }
  cbn [List.length] in Hf, Hf'.
  rewrite (IH fuel' rest') by lia; reflexivity.
Qed.

Lemma png_chunks_fuel (lenient : bool) (b : bytes) (more : nat) :
  bytes_startswith signature b = true ->
  png_chunks lenient b
  = read_chunks lenient (S (List.length (skipn 8 b)) + more) (skipn 8 b).
Proof.
  intros H; unfold png_chunks; rewrite H; cbv zeta.
  apply read_chunks_fuel; lia.
Qed.

(** ** The text dict of [read_metadata] *)

Lemma text_find_set (k k' v : pystr) (d : text_dict) :
  text_find k (text_set k' v d) = if str_eqb k k' then Some v else text_find k d.
Proof.
  induction d as [|[k0 v0] d IH]; cbn [text_set text_find].
  - destruct (str_eqb k k'); reflexivity.
  - destruct (str_eqb k' k0) eqn:E0; cbn [text_find].
    + apply str_eqb_eq in E0; subst k0.
      destruct (str_eqb k k'); reflexivity.
    + destruct (str_eqb k k0) eqn:E1; [|exact IH].
      apply str_eqb_eq in E1; subst k0.
      destruct (str_eqb k k') eqn:E2; [|reflexivity].
      apply str_eqb_eq in E2; subst k'; rewrite str_eqb_refl in E0; discriminate.
Qed.

Lemma text_find_app (k : pystr) (a b : text_dict) :
  text_find k (a ++ b)
  = match text_find k a with Some v => Some v | None => text_find k b end.
Proof.
  induction a as [|[k0 v0] a IH]; cbn [app text_find]; [reflexivity|].
  destruct (str_eqb k k0); [reflexivity|exact IH].
Qed.

(** Looking a keyword up in the dict is finding its last record. *)
Lemma collect_text_find (k : pystr) (chunks : list chunk) :
  text_find k (collect_text chunks) = last_text k chunks.
Proof.
  unfold collect_text, last_text.
  enough (H : forall d,
            text_find k
              (fold_left
                 (fun text_chunks_data c =>
                    if bytes_eqb (fst c) tEXt
                    then match _decode_text_chunk (snd c) with
                         | Some (keyword, text) =>
                             text_set (lower keyword) text text_chunks_data
                         | None => text_chunks_data
                         end
                    else text_chunks_data)
                 chunks d)
            = match text_find k (rev (text_records chunks)) with
              | Some v => Some v
              | None => text_find k d
              end).
  { rewrite H; destruct (text_find k (rev (text_records chunks))); reflexivity. }
  induction chunks as [|c chunks IH]; intros d; cbn [fold_left]; [reflexivity|].
  rewrite IH; unfold text_records; cbn [flat_map]; fold (text_records chunks).
  rewrite rev_app_distr, text_find_app.
  destruct (text_find k (rev (text_records chunks))); [reflexivity|].
  unfold text_record.
  destruct (bytes_eqb (fst c) tEXt); [|reflexivity].
  destruct (_decode_text_chunk (snd c)) as [[keyword text]|]; [|reflexivity].
  rewrite text_find_set; cbn [rev app text_find].
  destruct (str_eqb k (lower keyword)); reflexivity.
Qed.

(** A keyword has no record in a stream exactly when no chunk has one. *)
Lemma last_text_none (k : pystr) (chunks : list chunk) :
  last_text k chunks = None
  <-> Forall (fun c => text_find k (text_record c) = None) chunks.
Proof.
  unfold last_text, text_records.
  induction chunks as [|c chunks IH]; cbn [flat_map]; [split; constructor|].
  assert (R : text_find k (rev (text_record c)) = text_find k (text_record c)).
  { unfold text_record; destruct (bytes_eqb (fst c) tEXt); [|reflexivity].
    destruct (_decode_text_chunk (snd c)) as [[keyword text]|]; reflexivity. }
  rewrite rev_app_distr, text_find_app, R; split.
  - intros H; destruct (text_find k (rev (flat_map text_record chunks))) eqn:E; [discriminate|].
    constructor; [exact H|apply IH; reflexivity].
  - intros H; inversion H as [|? ? Hc Hrest]; subst.
    rewrite (proj2 IH Hrest); exact Hc.
Qed.

(** What [read_metadata] returns for a stream, by its last records. *)
Lemma read_metadata_chunks (lenient : bool) (image_bytes : bytes) (chunks : list chunk) :
  png_chunks lenient image_bytes = Ok chunks ->
  read_metadata lenient image_bytes
  = match last_text (lit "ccv3") chunks with
    | Some text => decode_payload text
    | None =>
        match last_text (lit "chara") chunks with
        | Some text => decode_payload text
        | None => Ok None
        end
    end.
Proof.
  intros H; unfold read_metadata; rewrite H.
  rewrite <- !collect_text_find.
  destruct (collect_text chunks); reflexivity.
Qed.

(** ** The metadata chunks *)

Lemma latin1_encode_decode (b : bytes) : latin1_encode (latin1_decode b) = Some b.
Proof.
  unfold latin1_decode; induction b as [|x b IH]; [reflexivity|].
  cbn [map latin1_encode]; pose proof (to_N_lt x) as Hx; apply N.ltb_lt in Hx.
  rewrite Hx, IH, byte_of_to_N; reflexivity.
Qed.

Lemma encode_text_chunk_b64 (keyword : pystr) (k text : bytes) :
  latin1_encode keyword = Some k ->
  _encode_text_chunk keyword (latin1_decode text) = Some (k ++ x00 :: text).
Proof.
  intros Hk; unfold _encode_text_chunk; rewrite Hk, latin1_encode_decode; reflexivity.
Qed.

Lemma v2_chunk_inv (data : pystr) (c : chunk) :
  v2_chunk data = Ok c ->
  exists raw,
    utf8_encode data = Some raw
    /\ c = (tEXt, blit "chara" ++ x00 :: b64encode raw).
Proof.
  unfold v2_chunk; destruct (utf8_encode data) as [raw|]; [|discriminate].
  erewrite encode_text_chunk_b64 by reflexivity.
  intros E; injection E as <-; eauto.
Qed.

Lemma v3_chunk_inv {rt : Runtime} (data : pystr) (c : chunk) :
  v3_chunk data = Some c ->
  exists v v' raw,
    json_loads data = Some v /\ with_spec v = Some v'
    /\ utf8_encode (lit (json_dumps v')) = Some raw
    /\ c = (tEXt, blit "ccv3" ++ x00 :: b64encode raw).
Proof.
  unfold v3_chunk; destruct (json_loads data) as [v|] eqn:Hv; [|discriminate].
  destruct (with_spec v) as [v'|] eqn:Hs; [|discriminate].
  destruct (utf8_encode (lit (json_dumps v'))) as [raw|] eqn:Hr; [|discriminate].
  erewrite encode_text_chunk_b64 by reflexivity.
  intros E; injection E as <-; exists v, v', raw; auto.
Qed.

(** Every char of a [string] is below 256 and has its UTF-8 form. *)
Lemma utf8_encode_lit (s : string) : exists raw, utf8_encode (lit s) = Some raw.
Proof.
  unfold lit; induction s as [|a s (raw & IH)]; cbn [list_ascii_of_string map utf8_encode].
  - eauto.
  - rewrite IH.
    assert (Ha : N_of_ascii a < 256) by apply N_ascii_bounded.
    unfold utf8_encode_char.
    destruct (N_of_ascii a <? 0x80); [eauto|].
    replace (N_of_ascii a <? 0x800) with true by (symmetry; apply N.ltb_lt; lia).
    eauto.
Qed.

Lemma utf8_encode_unicode (s : pystr) :
  unicode_text s = true -> exists raw, utf8_encode s = Some raw.
Proof.
  unfold unicode_text; induction s as [|c s IH]; cbn [forallb utf8_encode]; [eauto|].
  intros H; apply andb_true_iff in H as [Hc Hs].
  destruct (IH Hs) as (raw & ->).
  apply andb_true_iff in Hc as [Hlt Hsur]; apply negb_true_iff in Hsur.
  unfold utf8_encode_char; rewrite Hlt, Hsur.
  destruct (c <? 0x80); [eauto|]; destruct (c <? 0x800); [eauto|].
  destruct (c <? 0x10000); eauto.
Qed.

Lemma lower_lower (s : pystr) : lower (lower s) = lower s.
Proof.
  unfold lower; rewrite map_map; apply map_ext; intros c; unfold lower_char.
  destruct ((65 <=? c) && (c <=? 90) || (192 <=? c) && (c <=? 222) && negb (c =? 215))
    eqn:E; [|rewrite E; reflexivity].
  replace ((65 <=? c + 32) && (c + 32 <=? 90)
           || (192 <=? c + 32) && (c + 32 <=? 222) && negb (c + 32 =? 215))
    with false; [reflexivity|].
  symmetry; apply orb_true_iff in E as [E|E].
  - apply andb_true_iff in E as [E1 E2]; apply N.leb_le in E1, E2.
    apply orb_false_iff; split; apply andb_false_iff.
    + right; apply N.leb_gt; lia.
    + left; apply andb_false_iff; left; apply N.leb_gt; lia.
  - apply andb_true_iff in E as [E E3]; apply andb_true_iff in E as [E1 E2].
    apply N.leb_le in E1, E2.
    apply orb_false_iff; split; apply andb_false_iff.
    + right; apply N.leb_gt; lia.
    + left; apply andb_false_iff; right; apply N.leb_gt; lia.
Qed.

(** A chunk that the filter keeps has no record under a reserved keyword. *)
Lemma kept_record (c : chunk) (k : pystr) :
  keeps c = true -> is_reserved k = true -> text_find k (rev (text_record c)) = None.
Proof.
  unfold keeps, text_record; destruct (bytes_eqb (fst c) tEXt); [|reflexivity].
  destruct (_decode_text_chunk (snd c)) as [[keyword text]|]; [|reflexivity].
  intros Hk Hr; cbn [rev app text_find].
  destruct (str_eqb k (lower keyword)) eqn:E; [|reflexivity].
  apply str_eqb_eq in E; apply negb_true_iff in Hk.
  exfalso; revert Hk Hr; unfold is_reserved; subst k.
  rewrite lower_lower; intros ->; discriminate.
Qed.

Lemma kept_records (chunks : list chunk) (k : pystr) :
  Forall (fun c => keeps c = true) chunks -> is_reserved k = true ->
  last_text k chunks = None.
Proof.
  intros H Hr; unfold last_text, text_records.
  induction H as [|c chunks Hc _ IH]; [reflexivity|].
  cbn [flat_map]; rewrite rev_app_distr, text_find_app, IH.
  apply kept_record; assumption.
Qed.

(** ** [write_metadata] on a stream *)

Lemma png_chunks_stream (lenient : bool) (b : bytes) (chunks : list chunk) :
  png_chunks lenient b = Ok chunks ->
  exists pre last, chunks = pre ++ [last] /\ stream pre last.
Proof.
  unfold png_chunks; destruct (bytes_startswith signature b); [|discriminate].
  apply read_chunks_stream.
Qed.

Lemma iend_index_stream (pre : list chunk) (last : chunk) :
  stream pre last -> iend_index (pre ++ [last]) = Some (List.length pre).
Proof.
  intros (Hpre & _ & Hend); unfold is_iend in *.
  induction Hpre as [|c pre [_ Hc] _ IH]; cbn [app iend_index List.length].
  - rewrite Hend; reflexivity.
  - rewrite Hc, IH; reflexivity.
Qed.

Lemma insert_after (A : Type) (pre l : list A) (x : A) :
  insert (List.length pre) x (pre ++ l) = pre ++ x :: l.
Proof.
  unfold insert.
  rewrite firstn_app, firstn_all, Nat.sub_diag, firstn_O, app_nil_r.
  rewrite skipn_app, skipn_all, Nat.sub_diag, skipn_O; reflexivity.
Qed.

Lemma add_metadata_stream (pre : list chunk) (last v2 : chunk) (v3 : option chunk) :
  stream pre last ->
  add_metadata (pre ++ [last]) v2 v3 = (pre ++ metadata v2 v3) ++ [last].
Proof.
  intros H; unfold add_metadata, metadata; rewrite (iend_index_stream H), insert_after.
  destruct v3 as [c|].
  - change (pre ++ v2 :: [last]) with (pre ++ [v2] ++ [last]).
    rewrite app_assoc.
    replace (List.length pre + 1)%nat with (List.length (pre ++ [v2]))
      by (rewrite length_app; reflexivity).
    rewrite insert_after, <- !app_assoc; reflexivity.
  - rewrite <- app_assoc; reflexivity.
Qed.

Lemma keeps_iend (c : chunk) : is_iend c = true -> keeps c = true.
Proof.
  unfold is_iend, keeps; intros H; apply bytes_eqb_eq in H; rewrite H; reflexivity.
Qed.

Lemma filter_keeps_stream (pre : list chunk) (last : chunk) :
  stream pre last ->
  filter keeps (pre ++ [last]) = filter keeps pre ++ [last]
  /\ stream (filter keeps pre) last.
Proof.
  intros (Hpre & Hlast & Hend); split.
  - rewrite filter_app; cbn [filter]; rewrite (keeps_iend _ Hend); reflexivity.
  - split; [|split; assumption].
    apply Forall_forall; intros c Hc; apply filter_In in Hc as [Hc _].
    rewrite Forall_forall in Hpre; apply Hpre; exact Hc.
Qed.

Lemma text_chunk_ok (data : bytes) :
  fits (tEXt, data) = true -> chunk_ok (tEXt, data) /\ is_iend (tEXt, data) = false.
Proof.
  unfold fits, chunk_ok, is_iend; cbn [fst snd]; intros H; apply N.leb_le in H.
  repeat split; [exact H].
Qed.

Lemma metadata_ok {rt : Runtime} (data : pystr) (v2 : chunk) :
  v2_chunk data = Ok v2 -> metadata_fits data = true ->
  Forall (fun c => chunk_ok c /\ is_iend c = false) (metadata v2 (v3_chunk data))
  /\ Forall (fun c => keeps c = false) (metadata v2 (v3_chunk data)).
Proof.
  unfold metadata_fits, metadata; intros H2 Hf; rewrite H2 in Hf.
  apply andb_true_iff in Hf as [F2 F3].
  destruct (v2_chunk_inv _ H2) as (raw & _ & ->).
  destruct (v3_chunk data) as [c|] eqn:H3.
  - destruct (v3_chunk_inv _ H3) as (v & v' & raw' & _ & _ & _ & ->).
    split; repeat constructor; first [apply text_chunk_ok; assumption | reflexivity].
  - split; repeat constructor; first [apply text_chunk_ok; assumption | reflexivity].
Qed.

Lemma stream_app (pre more : list chunk) (last : chunk) :
  stream pre last -> Forall (fun c => chunk_ok c /\ is_iend c = false) more ->
  stream (pre ++ more) last.
Proof.
  intros (Hpre & Hl) Hm; split; [apply Forall_app; split; assumption|exact Hl].
Qed.

Lemma stream_all_ok (pre : list chunk) (last : chunk) :
  stream pre last -> Forall chunk_ok (pre ++ [last]).
Proof.
  intros (Hpre & Hlast & _); apply Forall_app; split.
  - eapply Forall_impl; [|exact Hpre]; intros c [H _]; exact H.
  - constructor; [exact Hlast|constructor].
Qed.

(** The signature and what the writer wrote for a stream read back as the
    stream. *)
Lemma png_chunks_written (lenient : bool) (pre : list chunk) (last : chunk) (out : bytes) :
  stream pre last ->
  write_chunks (pre ++ [last]) = Ok out ->
  png_chunks lenient (signature ++ out) = Ok (pre ++ [last]).
Proof.
  intros Hs Hw; unfold png_chunks.
  change (bytes_startswith signature (signature ++ out)) with true.
  change (skipn 8 (signature ++ out)) with out; cbv iota zeta.
  rewrite <- (app_nil_r out) at 2.
  apply read_written; [exact Hs|exact Hw|].
  pose proof (write_chunks_length _ Hw) as L.
  rewrite length_app in L; cbn [List.length] in L; lia.
Qed.

(** What a successful [write_metadata] read and what it wrote. *)
Lemma write_metadata_stream {rt : Runtime} (lenient : bool) (image_bytes : bytes)
    (data : pystr) (written : bytes) :
  write_metadata lenient image_bytes data = Ok written ->
  metadata_fits data = true ->
  exists pre last v2 out,
    png_chunks lenient image_bytes = Ok (pre ++ [last])
    /\ stream pre last
    /\ v2_chunk data = Ok v2
    /\ stream (filter keeps pre ++ metadata v2 (v3_chunk data)) last
    /\ write_chunks ((filter keeps pre ++ metadata v2 (v3_chunk data)) ++ [last])
       = Ok out
    /\ written = signature ++ out
    /\ png_chunks lenient written
       = Ok ((filter keeps pre ++ metadata v2 (v3_chunk data)) ++ [last]).
Proof.
  unfold write_metadata; intros H Hf.
  destruct (bytes_startswith signature image_bytes); [|discriminate].
  cbn [negb] in H.
  destruct (png_chunks lenient image_bytes) as [chunks|] eqn:Hp; [|discriminate].
  destruct (png_chunks_stream _ _ Hp) as (pre & last & -> & Hs).
  destruct (v2_chunk data) as [v2|] eqn:H2; [|discriminate].
  destruct (filter_keeps_stream Hs) as (Hfilter & Hkept).
  rewrite Hfilter, (add_metadata_stream _ _ Hkept) in H.
  destruct (write_chunks _) as [out|] eqn:Hw; [|discriminate].
  injection H as <-.
  assert (Hnew : stream (filter keeps pre ++ metadata v2 (v3_chunk data)) last)
    by (apply stream_app; [exact Hkept | apply (metadata_ok _ H2 Hf)]).
  exists pre, last, v2, out.
  split; [reflexivity|]; split; [exact Hs|]; split; [reflexivity|].
  split; [exact Hnew|]; split; [exact Hw|]; split; [reflexivity|].
  apply png_chunks_written; assumption.
Qed.

(** [write_metadata] succeeds on every container that parses, for every
    Unicode text whose metadata chunks fit. *)
Lemma write_metadata_total {rt : Runtime} (lenient : bool) (image_bytes : bytes)
    (data : pystr) (chunks : list chunk) :
  png_chunks lenient image_bytes = Ok chunks ->
  unicode_text data = true ->
  metadata_fits data = true ->
  exists written, write_metadata lenient image_bytes data = Ok written.
Proof.
  intros Hp Hu Hf; unfold write_metadata.
  assert (Hsig : bytes_startswith signature image_bytes = true).
  { unfold png_chunks in Hp; destruct (bytes_startswith signature image_bytes);
      [reflexivity|discriminate]. }
  rewrite Hsig, Hp; cbn [negb]; cbv iota.
  destruct (png_chunks_stream _ _ Hp) as (pre & last & -> & Hs).
  destruct (utf8_encode_unicode _ Hu) as (raw & Hraw).
  assert (H2 : v2_chunk data = Ok (tEXt, blit "chara" ++ x00 :: b64encode raw)).
  { unfold v2_chunk; rewrite Hraw.
    erewrite encode_text_chunk_b64 by reflexivity; reflexivity. }
  rewrite H2.
  destruct (filter_keeps_stream Hs) as (Hfilter & Hkept).
  rewrite Hfilter, (add_metadata_stream _ _ Hkept).
  assert (Hnew : stream (filter keeps pre ++ metadata (tEXt, blit "chara" ++ x00 :: b64encode raw)
                           (v3_chunk data)) last)
    by (apply stream_app; [exact Hkept | apply (metadata_ok _ H2 Hf)]).
  destruct (write_chunks_ok (stream_all_ok Hnew)) as (out & ->); eauto.
Qed.

(** ** The codec's contract *)

Lemma filter_all (A : Type) (f : A -> bool) (l : list A) :
  Forall (fun x => f x = true) l -> filter f l = l.
Proof.
  induction 1 as [|x l Hx _ IH]; cbn [filter]; [reflexivity|].
  rewrite Hx, IH; reflexivity.
Qed.

Lemma filter_none (A : Type) (f : A -> bool) (l : list A) :
  Forall (fun x => f x = false) l -> filter f l = [].
Proof.
  induction 1 as [|x l Hx _ IH]; cbn [filter]; [reflexivity|].
  rewrite Hx, IH; reflexivity.
Qed.

Lemma filter_kept (l : list chunk) : Forall (fun c => keeps c = true) (filter keeps l).
Proof. apply Forall_forall; intros c Hc; apply filter_In in Hc as [_ Hc]; exact Hc. Qed.

Lemma last_text_app (k : pystr) (a b : list chunk) :
  last_text k (a ++ b)
  = match last_text k b with Some t => Some t | None => last_text k a end.
Proof.
  unfold last_text, text_records.
  rewrite flat_map_app, rev_app_distr; apply text_find_app.
Qed.

Lemma last_text_iend (k : pystr) (last : chunk) :
  is_iend last = true -> last_text k [last] = None.
Proof.
  unfold is_iend, last_text, text_records, text_record; intros H.
  apply bytes_eqb_eq in H; cbn [flat_map]; rewrite H; reflexivity.
Qed.

(** C8.  A byte buffer that does not start with the 8-byte PNG signature
    makes both [read_metadata] and [write_metadata] fail with [png.Error];
    neither returns a result. *)
Theorem bad_signature_is_an_error {rt : Runtime} (lenient : bool)
    (image_bytes : bytes) (data : pystr) :
  bytes_startswith signature image_bytes = false ->
  read_metadata lenient image_bytes = Err PngError
  /\ write_metadata lenient image_bytes data = Err PngError.
Proof.
  intros H; unfold read_metadata, write_metadata, png_chunks; rewrite H.
  split; reflexivity.
Qed.

Lemma bad_signature_is_an_error_witness :
  bytes_startswith signature Sample.not_png = false
  /\ read_metadata false Sample.not_png = Err PngError
  /\ write_metadata (rt := Sample.runtime) false Sample.not_png Sample.card_text
     = Err PngError.
Proof.
  split; [reflexivity|].
  apply (bad_signature_is_an_error (rt := Sample.runtime) false Sample.not_png
           Sample.card_text).
  reflexivity.
Defined.

(** C6.  On a container that parses, [read_metadata] goes by the keyword
    (lower-cased) of the text chunks: with a ccv3 record it returns the
    Base64 and UTF-8 decoding of the text of the last one, or raises
    ValueError when either decoding fails, whatever chara records there are;
    without a ccv3 record it does the same with the last chara record; with
    neither it returns [None]. *)
Theorem read_metadata_selection (lenient : bool) (image_bytes : bytes)
    (chunks : list chunk) :
  png_chunks lenient image_bytes = Ok chunks ->
  (forall text, last_text (lit "ccv3") chunks = Some text ->
     read_metadata lenient image_bytes = decode_payload text)
  /\ (last_text (lit "ccv3") chunks = None ->
      forall text, last_text (lit "chara") chunks = Some text ->
        read_metadata lenient image_bytes = decode_payload text)
  /\ (last_text (lit "ccv3") chunks = None ->
      last_text (lit "chara") chunks = None ->
      read_metadata lenient image_bytes = Ok None)
  /\ (forall text,
        (exists raw s,
           b64decode text = Some raw /\ utf8_decode raw = Some s
           /\ decode_payload text = Ok (Some s))
        \/ ((b64decode text = None
             \/ exists raw, b64decode text = Some raw /\ utf8_decode raw = None)
            /\ decode_payload text = Err ValueError)).
Proof.
  intros H; rewrite (read_metadata_chunks _ _ H).
  split; [intros text ->; reflexivity|].
  split; [intros -> text ->; reflexivity|].
  split; [intros -> ->; reflexivity|].
  intros text; unfold decode_payload.
  destruct (b64decode text) as [raw|] eqn:Hb; [|right; auto].
  destruct (utf8_decode raw) as [s|] eqn:Hu.
  - left; exists raw, s; auto.
  - right; split; [right; exists raw; auto|reflexivity].
Qed.

Lemma read_metadata_selection_witness :
  png_chunks false Sample.mixed_png = Ok Sample.mixed_chunks
  /\ last_text (lit "ccv3") Sample.mixed_chunks = Some (lit "A")
  /\ last_text (lit "chara") Sample.mixed_chunks = Some (lit "eyJhIjogMX0=")
  /\ decode_payload (lit "eyJhIjogMX0=") = Ok (Some Sample.card_text)
  /\ read_metadata false Sample.mixed_png = Err ValueError.
Proof.
  assert (H : png_chunks false Sample.mixed_png = Ok Sample.mixed_chunks)
    by (vm_compute; reflexivity).
  split; [exact H|].
  split; [vm_compute; reflexivity|].
  split; [vm_compute; reflexivity|].
  split; [vm_compute; reflexivity|].
  rewrite (proj1 (read_metadata_selection false Sample.mixed_png H) (lit "A"))
    by (vm_compute; reflexivity).
  vm_compute; reflexivity.
Defined.

(** ** Card chunks, in the words of the contract *)

Lemma lower_char_same (x w : N) :
  w < 192 -> w < 65 \/ 90 < w ->
  N.eqb (lower_char x) w
  = (x =? w) || ((97 <=? w) && (w <=? 122) && (x + 32 =? w)).
Proof.
  intros H1 H2; unfold lower_char.
  destruct (N.leb_spec 65 x), (N.leb_spec x 90), (N.leb_spec 192 x),
    (N.leb_spec x 222), (N.eqb_spec x 215); cbn [andb orb negb]; cbv iota;
    destruct (N.leb_spec 97 w), (N.leb_spec w 122); cbn [andb orb];
    repeat match goal with
           | |- context [?a =? ?b] => destruct (N.eqb_spec a b)
           end; cbn [andb orb]; try reflexivity; exfalso; lia.
Qed.

Lemma lower_same_word (word k : pystr) :
  Forall (fun w => w < 192 /\ (w < 65 \/ 90 < w)) word ->
  str_eqb (lower k) word = same_word word k.
Proof.
  intros H; revert k; induction H as [|w word [H1 H2] _ IH]; intros [|x k];
    try reflexivity.
  cbn [lower map str_eqb same_word].
  rewrite (lower_char_same x H1 H2); f_equal; apply IH.
Qed.

(** The test of line 61 finds the card keywords, and no other. *)
Lemma is_reserved_card_keyword (k : pystr) : is_reserved k = card_keyword k.
Proof.
  unfold is_reserved, card_keyword.
  rewrite !lower_same_word; [reflexivity| |];
    repeat (constructor;
            [split; [reflexivity|first [left; reflexivity|right; reflexivity]]|]);
    constructor.
Qed.

(** The filter of lines 57-68 drops the card chunks, and no other. *)
Lemma keeps_card_chunk (c : chunk) : keeps c = negb (card_chunk c).
Proof.
  unfold keeps, card_chunk, _decode_text_chunk.
  destruct (bytes_eqb (fst c) tEXt); [|reflexivity].
  destruct (split_null (snd c)) as [[keyword text]|]; [|reflexivity].
  cbn [andb]; rewrite is_reserved_card_keyword; reflexivity.
Qed.

Lemma filter_not_card (chunks : list chunk) :
  filter (fun c => negb (card_chunk c)) chunks = filter keeps chunks.
Proof. apply filter_ext; intros c; symmetry; apply keeps_card_chunk. Qed.

(** What a write leaves of the chunks it read, and what it adds. *)
Lemma written_card_chunks (pre : list chunk) (last : chunk) (meta : list chunk) :
  stream pre last ->
  Forall (fun c => keeps c = false) meta ->
  filter card_chunk ((filter keeps pre ++ meta) ++ [last]) = meta
  /\ filter (fun c => negb (card_chunk c)) ((filter keeps pre ++ meta) ++ [last])
     = filter (fun c => negb (card_chunk c)) (pre ++ [last]).
Proof.
  intros (_ & _ & Hend) Hmeta.
  pose proof (keeps_iend _ Hend) as Hlast.
  split.
  - rewrite !filter_app; cbn [filter].
    rewrite (filter_none card_chunk (l := filter keeps pre)),
      (filter_all card_chunk (l := meta)).
    + replace (card_chunk last) with false; [apply app_nil_r|].
      rewrite keeps_card_chunk in Hlast; destruct (card_chunk last);
        [discriminate|reflexivity].
    + eapply Forall_impl; [|exact Hmeta]; intros c Hc; cbv beta in Hc.
      rewrite keeps_card_chunk in Hc; destruct (card_chunk c);
        [reflexivity|discriminate].
    + eapply Forall_impl; [|exact (filter_kept pre)]; intros c Hc; cbv beta in Hc.
      rewrite keeps_card_chunk in Hc; destruct (card_chunk c);
        [discriminate|reflexivity].
  - rewrite !filter_not_card, !filter_app, (filter_all _ (filter_kept pre)),
      (filter_none _ Hmeta), app_nil_r; reflexivity.
Qed.

(** C7.  Writing the same [data] into what [write_metadata] wrote gives the
    same bytes again, hence the same [read_metadata] result.  The card
    chunks of the first write (tEXt chunks whose keyword is chara or ccv3 in
    any case of the letters) are exactly the one or two metadata chunks it
    added, every older one being gone; every other chunk of the input, a
    tEXt chunk that does not decode included, is there as it was and in its
    place; and the second write removes the card chunks before it adds its
    own.  The metadata chunks are supposed to fit the reader's limit of
    2^31-1 bytes. *)
Theorem rewrite_is_idempotent {rt : Runtime} (lenient : bool) (image_bytes : bytes)
    (data : pystr) (written : bytes) :
  write_metadata lenient image_bytes data = Ok written ->
  metadata_fits data = true ->
  (exists again,
     write_metadata lenient written data = Ok again
     /\ again = written
     /\ read_metadata lenient again = read_metadata lenient written)
  /\ (exists chunks v2,
        png_chunks lenient written = Ok chunks
        /\ v2_chunk data = Ok v2
        /\ reserved_chunks chunks = metadata v2 (v3_chunk data))
  /\ (exists original chunks v2,
        png_chunks lenient image_bytes = Ok original
        /\ png_chunks lenient written = Ok chunks
        /\ v2_chunk data = Ok v2
        /\ filter card_chunk chunks = metadata v2 (v3_chunk data)
        /\ filter (fun c => negb (card_chunk c)) chunks
           = filter (fun c => negb (card_chunk c)) original).
Proof.
  intros Hw Hf.
  destruct (write_metadata_stream _ _ _ Hw Hf)
    as (pre & last & v2 & out & Horig & Hs & H2 & Hnew & Hout & -> & Hread).
  destruct (metadata_ok _ H2 Hf) as (_ & Hmeta).
  split; [|split].
  - exists (signature ++ out); split; [|split; reflexivity].
    unfold write_metadata.
    change (bytes_startswith signature (signature ++ out)) with true.
    cbn [negb]; cbv iota; rewrite Hread, H2.
    destruct (filter_keeps_stream Hnew) as (-> & Hkept).
    rewrite filter_app, (filter_all _ (filter_kept pre)), (filter_none _ Hmeta),
      app_nil_r in *.
    rewrite (add_metadata_stream _ _ Hkept), Hout; reflexivity.
  - exists ((filter keeps pre ++ metadata v2 (v3_chunk data)) ++ [last]), v2.
    split; [exact Hread|]; split; [exact H2|].
    unfold reserved_chunks; rewrite !filter_app.
    destruct Hnew as (_ & _ & Hend).
    rewrite (filter_none (fun c => negb (keeps c)) (l := filter keeps pre)),
      (filter_all (fun c => negb (keeps c)) (l := metadata v2 (v3_chunk data))).
    + cbn [filter app]; rewrite (keeps_iend _ Hend); cbn [negb]; apply app_nil_r.
    + eapply Forall_impl; [|exact Hmeta]; intros c ->; reflexivity.
    + eapply Forall_impl; [|exact (filter_kept pre)]; intros c ->; reflexivity.
  - exists (pre ++ [last]),
      ((filter keeps pre ++ metadata v2 (v3_chunk data)) ++ [last]), v2.
    split; [exact Horig|]; split; [exact Hread|]; split; [exact H2|].
    apply written_card_chunks; assumption.
Qed.

Lemma rewrite_is_idempotent_witness :
  write_metadata (rt := Sample.runtime) false Sample.busy_png Sample.card_text
  = Ok Sample.busy_written
  /\ metadata_fits (rt := Sample.runtime) Sample.card_text = true
  /\ (exists again,
        write_metadata (rt := Sample.runtime) false Sample.busy_written Sample.card_text
        = Ok again
        /\ again = Sample.busy_written
        /\ read_metadata false again = read_metadata false Sample.busy_written)
  /\ png_chunks false Sample.busy_written = Ok Sample.busy_written_chunks
  /\ List.length (filter card_chunk Sample.busy_written_chunks) = 2%nat
  /\ ~ In (tEXt, blit "CHARA" ++ [x00] ++ blit "b2xk") Sample.busy_written_chunks
  /\ In (tEXt, blit "Comment" ++ [x00] ++ blit "hi") Sample.busy_written_chunks
  /\ In (tEXt, blit "A") Sample.busy_written_chunks.
Proof.
  assert (H : write_metadata (rt := Sample.runtime) false Sample.busy_png Sample.card_text
              = Ok Sample.busy_written) by (vm_compute; reflexivity).
  assert (F : metadata_fits (rt := Sample.runtime) Sample.card_text = true)
    by (vm_compute; reflexivity).
  assert (R : png_chunks false Sample.busy_written = Ok Sample.busy_written_chunks)
    by (vm_compute; reflexivity).
  split; [exact H|]; split; [exact F|].
  destruct (rewrite_is_idempotent (rt := Sample.runtime) false Sample.busy_png
              Sample.card_text H F) as (Hagain & _ & _).
  split; [exact Hagain|]; split; [exact R|].
  split; [vm_compute; reflexivity|].
  split; [|split; vm_compute; auto].
  intros Hc; vm_compute in Hc.
  repeat (destruct Hc as [Hc|Hc]; [discriminate Hc|]); exact Hc.
Defined.

Lemma decode_payload_b64 (s : pystr) (raw : bytes) :
  utf8_encode s = Some raw ->
  decode_payload (latin1_decode (b64encode raw)) = Ok (Some s).
Proof.
  intros H; unfold decode_payload.
  rewrite b64decode_b64encode, (utf8_decode_encode _ H); reflexivity.
Qed.

(** What [read_metadata] finds in what [write_metadata] wrote: the v3 text
    when there is a v3 chunk, the text as given otherwise. *)
Lemma read_written_metadata {rt : Runtime} (lenient : bool) (image_bytes : bytes)
    (data : pystr) (written : bytes) :
  write_metadata lenient image_bytes data = Ok written ->
  metadata_fits data = true ->
  read_metadata lenient written
  = Ok (Some match json_loads data with
             | Some v =>
                 match with_spec v with
                 | Some v' => lit (json_dumps v')
                 | None => data
                 end
             | None => data
             end).
Proof.
  intros Hw Hf.
  destruct (write_metadata_stream _ _ _ Hw Hf)
    as (pre & last & v2 & out & _ & _ & H2 & Hnew & _ & _ & Hread).
  rewrite (read_metadata_chunks _ _ Hread).
  destruct Hnew as (_ & _ & Hend).
  rewrite !last_text_app, !(last_text_iend _ _ Hend).
  destruct (v2_chunk_inv _ H2) as (raw & Hraw & ->).
  destruct (v3_chunk data) as [c|] eqn:H3.
  - destruct (v3_chunk_inv _ H3) as (v & v' & raw' & -> & -> & Hraw' & ->).
    change (last_text (lit "ccv3")
              (metadata (tEXt, blit "chara" ++ x00 :: b64encode raw)
                 (Some (tEXt, blit "ccv3" ++ x00 :: b64encode raw'))))
      with (Some (latin1_decode (b64encode raw'))).
    apply decode_payload_b64; exact Hraw'.
  - change (last_text (lit "ccv3")
              (metadata (tEXt, blit "chara" ++ x00 :: b64encode raw) None))
      with (@None pystr).
    change (last_text (lit "chara")
              (metadata (tEXt, blit "chara" ++ x00 :: b64encode raw) None))
      with (Some (latin1_decode (b64encode raw))).
    rewrite (kept_records (lit "ccv3") (filter_kept pre)) by reflexivity.
    rewrite (decode_payload_b64 _ Hraw).
    unfold v3_chunk in H3.
    destruct (json_loads data) as [v|]; [|reflexivity].
    destruct (with_spec v) as [v'|]; [|reflexivity].
    destruct (utf8_encode_lit (json_dumps v')) as (raw' & Hraw').
    rewrite Hraw' in H3.
    erewrite encode_text_chunk_b64 in H3 by reflexivity; discriminate.
Qed.

(** C2, as the code has it.  For a container that parses and a JSON text
    [data] that is Unicode text (no lone surrogate, nothing above U+10FFFF)
    and whose metadata chunks stay within the reader's limit of 2^31-1 bytes,
    [write_metadata] succeeds and [read_metadata] of what it wrote returns a
    text that [json.loads] decodes to the value of [data] with [spec] set to
    "chara_card_v3" and [spec_version] to "3.0" when that value is an
    object, and to the value of [data] itself otherwise.  [json.loads] is
    supposed to read back what [json.dumps] wrote for the value with the
    spec fields. *)
Theorem read_after_write {rt : Runtime} (lenient : bool) (image_bytes : bytes)
    (chunks : list chunk) (data : pystr) (v : json) :
  png_chunks lenient image_bytes = Ok chunks ->
  json_loads data = Some v ->
  unicode_text data = true ->
  metadata_fits data = true ->
  (forall v', with_spec v = Some v' -> json_loads (lit (json_dumps v')) = Some v') ->
  exists written text,
    write_metadata lenient image_bytes data = Ok written
    /\ read_metadata lenient written = Ok (Some text)
    /\ json_loads text
       = Some match v with
              | JObj d =>
                  JObj (dict_set (lit "spec_version") (JStr (lit "3.0"))
                          (dict_set (lit "spec") (JStr (lit "chara_card_v3")) d))
              | _ => v
              end.
Proof.
  intros Hp Hv Hu Hf Hjson.
  edestruct write_metadata_total as (written & Hw); [exact Hp|exact Hu|exact Hf|].
  exists written; eexists; split; [exact Hw|].
  split; [eapply read_written_metadata; [exact Hw|exact Hf]|].
  rewrite Hv.
  destruct v as [| | | | | |d]; try exact Hv.
  cbn [with_spec]; apply Hjson; reflexivity.
Qed.

(** Why [data] is taken to be Unicode text: a str with a lone surrogate has
    no UTF-8 form, and [data.encode('utf-8')] of line 71 raises. *)
Example lone_surrogate_is_not_written :
  write_metadata (rt := Sample.runtime) false Sample.card_png [34; 0xD800; 34]
  = Err UnicodeEncodeError.
Proof. vm_compute; reflexivity. Qed.

(** C2, the claim as written, fails: a JSON text with a lone surrogate
    between its quotation marks is read by [json.loads], yet it has no UTF-8
    form; [data.encode('utf-8')] of line 71 raises, [write_metadata] returns
    nothing and there is nothing to read back. *)
Lemma lone_surrogate_breaks_round_trip :
  png_chunks false Sample.card_png = Ok Sample.card_chunks
  /\ json_loads (Runtime := Sample.surrogate_runtime) Sample.surrogate_text
     = Some (JStr [0xD800])
  /\ write_metadata (rt := Sample.surrogate_runtime) false Sample.card_png
       Sample.surrogate_text
     = Err UnicodeEncodeError.
Proof. repeat split; vm_compute; reflexivity. Qed.

Lemma read_after_write_witness :
  png_chunks false Sample.card_png = Ok Sample.card_chunks
  /\ json_loads (Runtime := Sample.runtime) Sample.card_text = Some Sample.card_json
  /\ unicode_text Sample.card_text = true
  /\ metadata_fits (rt := Sample.runtime) Sample.card_text = true
  /\ exists written text,
       write_metadata (rt := Sample.runtime) false Sample.card_png Sample.card_text
       = Ok written
       /\ read_metadata false written = Ok (Some text)
       /\ json_loads (Runtime := Sample.runtime) text = Some Sample.card_v3_json.
Proof.
  assert (Hp : png_chunks false Sample.card_png = Ok Sample.card_chunks)
    by (vm_compute; reflexivity).
  assert (Hv : json_loads (Runtime := Sample.runtime) Sample.card_text
               = Some Sample.card_json) by reflexivity.
  assert (Hu : unicode_text Sample.card_text = true) by reflexivity.
  assert (Hf : metadata_fits (rt := Sample.runtime) Sample.card_text = true)
    by (vm_compute; reflexivity).
  assert (Hj : forall v', with_spec Sample.card_json = Some v' ->
                 json_loads (Runtime := Sample.runtime)
                   (lit (json_dumps (Runtime := Sample.runtime) v')) = Some v')
    by (intros v' H; injection H as <-; vm_compute; reflexivity).
  repeat (split; [assumption|]).
  exact (@read_after_write Sample.runtime false Sample.card_png Sample.card_chunks
           Sample.card_text Sample.card_json Hp Hv Hu Hf Hj).
Defined.

(** What [write_metadata] wrote passes the reader's CRC check even when the
    input was read without it: every CRC is computed afresh. *)
Theorem written_container_verifies {rt : Runtime} (image_bytes : bytes)
    (data : pystr) (written : bytes) :
  write_metadata true image_bytes data = Ok written ->
  metadata_fits data = true ->
  exists chunks, png_chunks false written = Ok chunks.
Proof.
  intros Hw Hf.
  destruct (write_metadata_stream _ _ _ Hw Hf)
    as (pre & last & v2 & out & _ & _ & _ & Hnew & Hout & -> & _).
  eexists; apply png_chunks_written; [exact Hnew|exact Hout].
Qed.

Lemma written_container_verifies_witness :
  write_metadata (rt := Sample.runtime) true Sample.card_png Sample.card_text
  = Ok Sample.card_written
  /\ metadata_fits (rt := Sample.runtime) Sample.card_text = true
  /\ exists chunks, png_chunks false Sample.card_written = Ok chunks.
Proof.
  assert (H : write_metadata (rt := Sample.runtime) true Sample.card_png Sample.card_text
              = Ok Sample.card_written) by (vm_compute; reflexivity).
  assert (F : metadata_fits (rt := Sample.runtime) Sample.card_text = true)
    by (vm_compute; reflexivity).
  split; [exact H|]; split; [exact F|].
  exact (@written_container_verifies Sample.runtime _ _ _ H F).
Defined.

(** ** Text chunks, both ways *)

Lemma latin1_encode_below (s : pystr) :
  forallb (fun c => c <? 256) s = true -> latin1_encode s = Some (map byte_of s).
Proof.
  induction s as [|c s IH]; [reflexivity|].
  cbn [forallb latin1_encode map]; intros H; apply andb_prop in H as [Hc Hs].
  rewrite Hc, (IH Hs); reflexivity.
Qed.

Lemma latin1_decode_bytes (s : pystr) :
  forallb (fun c => c <? 256) s = true -> latin1_decode (map byte_of s) = s.
Proof.
  induction s as [|c s IH]; [reflexivity|].
  cbn [forallb latin1_decode map]; intros H; apply andb_prop in H as [Hc Hs].
  apply N.ltb_lt in Hc; rewrite (to_N_byte_of Hc); f_equal; apply IH, Hs.
Qed.

Lemma split_null_keyword (k t : bytes) :
  existsb (Byte.eqb x00) k = false -> split_null (k ++ [x00] ++ t) = Some (k, t).
Proof.
  induction k as [|b k IH]; [reflexivity|].
  cbn [existsb app split_null]; intros H; apply orb_false_elim in H as [Hb Hk].
  assert (E : Byte.eqb b x00 = false).
  { destruct (Byte.eqb b x00) eqn:E; [|reflexivity].
    apply byte_eqb_eq in E; subst b; discriminate. }
  rewrite E; change (k ++ x00 :: t) with (k ++ [x00] ++ t); rewrite (IH Hk); reflexivity.
Qed.

Lemma split_null_inv (data k t : bytes) :
  split_null data = Some (k, t) ->
  data = k ++ [x00] ++ t /\ existsb (Byte.eqb x00) k = false.
Proof.
  revert k; induction data as [|b data IH]; intros k; [discriminate|].
  cbn [split_null]; destruct (Byte.eqb b x00) eqn:E.
  - apply byte_eqb_eq in E; subst b; intros H; injection H as <- <-; auto.
  - destruct (split_null data) as [[k' t']|]; [|discriminate].
    intros H; injection H as <- <-; destruct (IH k' eq_refl) as (-> & Hk).
    split; [reflexivity|]; cbn [existsb]; rewrite Hk, orb_false_r.
    destruct (Byte.eqb x00 b) eqn:E'; [|reflexivity].
    apply byte_eqb_eq in E'; subst b; discriminate.
Qed.

Lemma split_null_none (data : bytes) :
  split_null data = None <-> existsb (Byte.eqb x00) data = false.
Proof.
  induction data as [|b data IH]; [split; reflexivity|].
  cbn [split_null existsb].
  assert (S : Byte.eqb x00 b = Byte.eqb b x00).
  { destruct (Byte.eqb b x00) eqn:E.
    - apply byte_eqb_eq in E; subst b; reflexivity.
    - destruct (Byte.eqb x00 b) eqn:E'; [|reflexivity].
      apply byte_eqb_eq in E'; subst b; discriminate. }
  rewrite S; destruct (Byte.eqb b x00); cbn [orb]; [split; discriminate|].
  rewrite <- IH; destruct (split_null data) as [[k t]|]; split;
    first [discriminate|reflexivity].
Qed.

(** A keyword and a text of ISO-8859-1 characters, the keyword without a null
    character, come back from [_decode_text_chunk] as they went into
    [_encode_text_chunk]. *)
Theorem text_chunk_round_trip (keyword text : pystr) :
  forallb (fun c => c <? 256) keyword = true ->
  forallb (fun c => c <? 256) text = true ->
  existsb (N.eqb 0) keyword = false ->
  exists chunk_data,
    _encode_text_chunk keyword text = Some chunk_data
    /\ _decode_text_chunk chunk_data = Some (keyword, text).
Proof.
  intros Hk Ht H0; unfold _encode_text_chunk, _decode_text_chunk.
  rewrite (latin1_encode_below _ Hk), (latin1_encode_below _ Ht).
  eexists; split; [reflexivity|].
  rewrite split_null_keyword.
  - rewrite (latin1_decode_bytes _ Hk), (latin1_decode_bytes _ Ht); reflexivity.
  - clear - Hk H0; induction keyword as [|c k IH]; [reflexivity|].
    cbn [forallb existsb map] in *.
    apply andb_prop in Hk as [Hc Hk]; apply orb_false_elim in H0 as [Hz H0].
    rewrite (IH Hk H0), orb_false_r.
    destruct (Byte.eqb x00 (byte_of c)) eqn:E; [|reflexivity].
    apply byte_eqb_eq in E; apply N.ltb_lt in Hc.
    apply (f_equal Byte.to_N) in E; rewrite (to_N_byte_of Hc) in E.
    subst c; discriminate.
Qed.

(** The other way: [_decode_text_chunk] fails exactly on data without a null
    byte, and what it returns otherwise is a keyword without a null
    character and a text that [_encode_text_chunk] turns into the data
    again. *)
Theorem decoded_text_chunk_encodes_back (chunk_data : bytes) :
  match _decode_text_chunk chunk_data with
  | Some (keyword, text) =>
      _encode_text_chunk keyword text = Some chunk_data
      /\ existsb (N.eqb 0) keyword = false
  | None => existsb (Byte.eqb x00) chunk_data = false
  end.
Proof.
  unfold _decode_text_chunk, _encode_text_chunk.
  destruct (split_null chunk_data) as [[k t]|] eqn:E.
  - apply split_null_inv in E as (-> & Hk).
    rewrite !latin1_encode_decode; split; [reflexivity|].
    clear - Hk; unfold latin1_decode; induction k as [|b k IH]; [reflexivity|].
    cbn [existsb map] in *; apply orb_false_elim in Hk as [Hb Hk].
    rewrite (IH Hk), orb_false_r.
    destruct (N.eqb_spec 0 (Byte.to_N b)) as [E|_]; [|reflexivity].
    rewrite <- (byte_of_to_N b), <- E in Hb; discriminate.
  - apply split_null_none; exact E.
Qed.

(** ** What [write_metadata] leaves as it was *)

Lemma find_chunks_kept (name : bytes) (chunks : list chunk) :
  bytes_eqb name tEXt = false ->
  _find_chunks (filter keeps chunks) name = _find_chunks chunks name.
Proof.
  intros Hn; unfold _find_chunks; induction chunks as [|c chunks IH]; [reflexivity|].
  cbn [filter]; destruct (keeps c) eqn:K; cbn [filter]; rewrite IH; [reflexivity|].
  destruct (bytes_eqb (fst c) name) eqn:E; [|reflexivity].
  apply bytes_eqb_eq in E; subst name.
  unfold keeps in K; rewrite Hn in K; discriminate.
Qed.

Lemma find_chunks_app (name : bytes) (a b : list chunk) :
  _find_chunks (a ++ b) name = _find_chunks a name ++ _find_chunks b name.
Proof. apply filter_app. Qed.

Lemma find_iend_stream (pre : list chunk) (last : chunk) :
  stream pre last -> _find_chunks (pre ++ [last]) IEND = [last].
Proof.
  intros (Hpre & _ & Hend); unfold _find_chunks, is_iend in *.
  induction Hpre as [|c pre [_ Hc] _ IH]; cbn [app filter].
  - rewrite Hend; reflexivity.
  - rewrite Hc; exact IH.
Qed.

(** [write_metadata] changes the card chunks and nothing else.  Every chunk
    of the input that is no card chunk (a chunk of another type, a tEXt chunk
    with another keyword, a tEXt chunk that does not decode for want of a
    null byte) is in the output as it was, and these chunks are in the same
    order; the card chunks of the output are the new metadata chunks alone;
    for every chunk type but tEXt, [_find_chunks] finds the same chunks
    before and after; the metadata chunks stand immediately before the end
    marker, which is the one IEND chunk of the result. *)
Theorem write_changes_reserved_text_only {rt : Runtime} (lenient : bool)
    (image_bytes : bytes) (data : pystr) (written : bytes) :
  write_metadata lenient image_bytes data = Ok written ->
  metadata_fits data = true ->
  exists original rewritten others v2 last,
    png_chunks lenient image_bytes = Ok original
    /\ png_chunks lenient written = Ok rewritten
    /\ filter (fun c => negb (card_chunk c)) rewritten
       = filter (fun c => negb (card_chunk c)) original
    /\ (forall c, In c original -> card_chunk c = false -> In c rewritten)
    /\ filter card_chunk rewritten = metadata v2 (v3_chunk data)
    /\ (forall name, bytes_eqb name tEXt = false ->
          _find_chunks rewritten name = _find_chunks original name)
    /\ v2_chunk data = Ok v2
    /\ rewritten = others ++ metadata v2 (v3_chunk data) ++ [last]
    /\ _find_chunks rewritten IEND = [last].
Proof.
  intros Hw Hf.
  destruct (write_metadata_stream _ _ _ Hw Hf)
    as (pre & last & v2 & out & Horig & Hs & H2 & Hnew & _ & _ & Hread).
  destruct (metadata_ok _ H2 Hf) as (_ & Hmeta).
  destruct (written_card_chunks Hs Hmeta) as (Hcard & Hrest).
  exists (pre ++ [last]), ((filter keeps pre ++ metadata v2 (v3_chunk data)) ++ [last]),
    (filter keeps pre), v2, last.
  split; [exact Horig|]; split; [exact Hread|]; split; [exact Hrest|].
  split; [|split; [exact Hcard|split; [|split; [exact H2|split]]]].
  - intros c Hc Hn.
    assert (K : In c (filter (fun c => negb (card_chunk c)) (pre ++ [last])))
      by (apply filter_In; split; [exact Hc|rewrite Hn; reflexivity]).
    rewrite <- Hrest in K; apply filter_In in K as [K _]; exact K.
  - intros name Hn; rewrite !find_chunks_app, (@find_chunks_kept name pre Hn).
    replace (_find_chunks (metadata v2 (v3_chunk data)) name) with (@nil chunk);
      [rewrite app_nil_r; reflexivity|].
    symmetry; apply filter_none.
    destruct (v2_chunk_inv _ H2) as (raw & _ & ->).
    destruct (v3_chunk data) as [c|] eqn:H3.
    + destruct (v3_chunk_inv _ H3) as (v & v' & raw' & _ & _ & _ & ->).
      repeat constructor; cbn [fst]; destruct (bytes_eqb tEXt name) eqn:E; try reflexivity;
        apply bytes_eqb_eq in E; subst name; discriminate.
    + repeat constructor; cbn [fst]; destruct (bytes_eqb tEXt name) eqn:E; try reflexivity;
        apply bytes_eqb_eq in E; subst name; discriminate.
  - rewrite <- app_assoc; reflexivity.
  - apply find_iend_stream; exact Hnew.
Qed.

(** A text that is no JSON object (no JSON at all, or a JSON list, number,
    str, bool or null) is written as a chara chunk only, and [read_metadata]
    of what was written returns the text itself, character by character. *)
Theorem other_text_reads_back_verbatim {rt : Runtime} (lenient : bool)
    (image_bytes : bytes) (data : pystr) (written : bytes) :
  write_metadata lenient image_bytes data = Ok written ->
  metadata_fits data = true ->
  (forall d, json_loads data <> Some (JObj d)) ->
  v3_chunk data = None
  /\ read_metadata lenient written = Ok (Some data).
Proof.
  intros Hw Hf Hno; split.
  - unfold v3_chunk; destruct (json_loads data) as [v|]; [|reflexivity].
    destruct v; try reflexivity; exfalso; eapply Hno; reflexivity.
  - rewrite (read_written_metadata _ _ _ Hw Hf).
    destruct (json_loads data) as [v|]; [|reflexivity].
    destruct v; try reflexivity; exfalso; eapply Hno; reflexivity.
Qed.

Lemma text_chunk_round_trip_witness :
  forallb (fun c => c <? 256) (lit "chara") = true
  /\ forallb (fun c => c <? 256) (lit "abc") = true
  /\ existsb (N.eqb 0) (lit "chara") = false
  /\ exists chunk_data,
       _encode_text_chunk (lit "chara") (lit "abc") = Some chunk_data
       /\ _decode_text_chunk chunk_data = Some (lit "chara", lit "abc").
Proof.
  split; [reflexivity|]; split; [reflexivity|]; split; [reflexivity|].
  exact (@text_chunk_round_trip (lit "chara") (lit "abc") eq_refl eq_refl eq_refl).
Defined.

Lemma write_changes_reserved_text_only_witness :
  write_metadata (rt := Sample.runtime) false Sample.busy_png Sample.card_text
  = Ok Sample.busy_written
  /\ metadata_fits (rt := Sample.runtime) Sample.card_text = true
  /\ exists original rewritten,
       png_chunks false Sample.busy_png = Ok original
       /\ png_chunks false Sample.busy_written = Ok rewritten
       /\ In (tEXt, blit "Comment" ++ [x00] ++ blit "hi") rewritten
       /\ In (tEXt, blit "A") rewritten
       /\ _find_chunks rewritten (blit "IHDR") = _find_chunks original (blit "IHDR").
Proof.
  assert (H : write_metadata (rt := Sample.runtime) false Sample.busy_png Sample.card_text
              = Ok Sample.busy_written) by (vm_compute; reflexivity).
  assert (F : metadata_fits (rt := Sample.runtime) Sample.card_text = true)
    by (vm_compute; reflexivity).
  split; [exact H|]; split; [exact F|].
  destruct (@write_changes_reserved_text_only Sample.runtime _ _ _ _ H F)
    as (original & rewritten & others & v2 & last & Ho & Hr & _ & Hin & _ & Hf & _).
  exists original, rewritten.
  split; [exact Ho|]; split; [exact Hr|].
  assert (Ho' : png_chunks false Sample.busy_png
                = Ok [(blit "IHDR", map byte_of [0; 0; 0; 1; 0; 0; 0; 1; 8; 0; 0; 0; 0]);
                      (tEXt, blit "Comment" ++ [x00] ++ blit "hi");
                      (tEXt, blit "A");
                      (tEXt, blit "CHARA" ++ [x00] ++ blit "b2xk");
                      (IEND, [])])
    by (vm_compute; reflexivity).
  rewrite Ho' in Ho; injection Ho as <-.
  split; [apply Hin; [right; left; reflexivity|reflexivity]|].
  split; [apply Hin; [right; right; left; reflexivity|reflexivity]|].
  apply Hf; reflexivity.
Defined.

Lemma other_text_reads_back_verbatim_witness :
  write_metadata (rt := Sample.runtime) false Sample.card_png (lit "hello")
  = Ok Sample.plain_written
  /\ metadata_fits (rt := Sample.runtime) (lit "hello") = true
  /\ (forall d, json_loads (Runtime := Sample.runtime) (lit "hello") <> Some (JObj d))
  /\ read_metadata false Sample.plain_written = Ok (Some (lit "hello")).
Proof.
  assert (H : write_metadata (rt := Sample.runtime) false Sample.card_png (lit "hello")
              = Ok Sample.plain_written) by (vm_compute; reflexivity).
  assert (F : metadata_fits (rt := Sample.runtime) (lit "hello") = true)
    by (vm_compute; reflexivity).
  assert (N : forall d, json_loads (Runtime := Sample.runtime) (lit "hello")
                        <> Some (JObj d))
    by (intros d E; vm_compute in E; discriminate E).
  split; [exact H|]; split; [exact F|]; split; [exact N|].
  exact (proj2 (@other_text_reads_back_verbatim Sample.runtime _ _ _ _ H F N)).
Defined.

(** ** Chunks that [read_metadata] passes over *)

(** A chunk without a text record (a chunk of another type, or a tEXt chunk
    that does not decode for want of a null byte) is passed over wherever it
    stands: [read_metadata] returns what it returns for the container
    without that chunk. *)
Theorem chunk_without_record_is_passed_over (lenient : bool) (b b' : bytes)
    (pre post : list chunk) (c : chunk) :
  png_chunks lenient b = Ok (pre ++ c :: post) ->
  png_chunks lenient b' = Ok (pre ++ post) ->
  text_record c = [] ->
  read_metadata lenient b = read_metadata lenient b'.
Proof.
  intros Hb Hb' Hc.
  rewrite (read_metadata_chunks _ _ Hb), (read_metadata_chunks _ _ Hb').
  assert (E : forall k, last_text k (pre ++ c :: post) = last_text k (pre ++ post)).
  { intros k; unfold last_text, text_records.
    rewrite !flat_map_app; cbn [flat_map]; rewrite Hc; reflexivity. }
  rewrite !E; reflexivity.
Qed.

Lemma chunk_without_record_is_passed_over_witness :
  png_chunks false Sample.odd_png
  = Ok ([] ++ (tEXt, blit "A") :: [(IEND, [])])
  /\ png_chunks false Sample.bare_png = Ok ([] ++ [(IEND, [])])
  /\ text_record (tEXt, blit "A") = []
  /\ read_metadata false Sample.odd_png = read_metadata false Sample.bare_png.
Proof.
  assert (H1 : png_chunks false Sample.odd_png
               = Ok ([] ++ (tEXt, blit "A") :: [(IEND, [])]))
    by (vm_compute; reflexivity).
  assert (H2 : png_chunks false Sample.bare_png = Ok ([] ++ [(IEND, [])]))
    by (vm_compute; reflexivity).
  split; [exact H1|]; split; [exact H2|]; split; [reflexivity|].
  exact (@chunk_without_record_is_passed_over false _ _ [] [(IEND, [])] (tEXt, blit "A")
           H1 H2 eq_refl).
Defined.

End CodecProperties.
